(** * remove-json-comments.py: JSONC to JSON converter

    A shallow embedding of [convert_jsonc_to_json] and of the script's entry
    point.  Python [str] values are sequences of Unicode code points; the three
    [re.sub] calls are kept as regular expressions and run by a small
    backtracking matcher that follows the priority order of Python's [re]
    module; [json.loads] and [json.dump(..., indent=4)] are modelled after
    CPython's [json] package, the decoder with the two limits of the
    interpreter it can meet (the digits of an integer, the depth of
    recursion); the file system is a finite map from paths to the text of
    each file. *)

From Stdlib Require Import NArith ZArith List Bool Ascii Lia.
From Stdlib Require DecimalFacts DecimalPos DecimalZ.
From stdpp Require Import gmap strings list.

Local Open Scope N_scope.

(** ** Text *)

(** A Python [str]: a sequence of code points. *)
Abbreviation str := (list N).

(** [ord c], for a character literal of the ASCII range. *)
Definition ord (a : ascii) : N := N_of_ascii a.
Global Arguments ord : simpl never.

(** A [str] literal of the ASCII range. *)
Fixpoint py (s : string) : str :=
  match s with
  | EmptyString => []
  | String a s' => ord a :: py s'
  end.
Global Arguments py : simpl never.

(** The double quote. *)
Definition quote : N := 34.

(** A text literal in which an apostrophe stands for the double quote. *)
Fixpoint pyq (s : string) : str :=
  match s with
  | EmptyString => []
  | String a s' => (if Ascii.eqb a "'" then quote else ord a) :: pyq s'
  end.

(** ** Regular expressions, as far as the script uses them *)

(** One-character matchers. *)
Inductive charset : Type :=
| CChar (c : N)          (* a literal character, e.g. [/] or [\*] *)
| CDot (dotall : bool)   (* [.]; it matches a newline only under [re.DOTALL] *)
| CSpace                 (* [\s] *)
| CSet (cs : list N).    (* a bracketed set, e.g. [[\]}]] *)

(** Patterns: one character, a starred character class (greedy [*] or lazy
    [*?]), concatenation and a numbered capturing group. *)
Inductive regex : Type :=
| RChar (cs : charset)
| RStar (greedy : bool) (cs : charset)
| RSeq (r1 r2 : regex)
| RGroup (n : nat) (r : regex).

(** [str.isspace] on one code point, which is what [\s] tests in a [str]
    pattern. *)
Definition isspace (c : N) : bool :=
  ((9 <=? c) && (c <=? 13)) || ((28 <=? c) && (c <=? 32))
  || (c =? 133) || (c =? 160) || (c =? 5760)
  || ((8192 <=? c) && (c <=? 8202))
  || (c =? 8232) || (c =? 8233) || (c =? 8239) || (c =? 8287) || (c =? 12288).

Fixpoint mem (c : N) (cs : list N) : bool :=
  match cs with
  | [] => false
  | d :: cs' => (c =? d) || mem c cs'
  end.

Definition cs_match (cs : charset) (c : N) : bool :=
  match cs with
  | CChar d => c =? d
  | CDot dotall => dotall || negb (c =? ord "010")
  | CSpace => isspace c
  | CSet l => mem c l
  end.

(** The text of each group that took part in the match, latest first. *)
Definition groups := list (nat * str).

Fixpoint group (n : nat) (g : groups) : option str :=
  match g with
  | [] => None
  | (m, t) :: g' => if Nat.eqb n m then Some t else group n g'
  end.

(** The backtracking matcher, in continuation-passing style: [k] is what
    remains to be matched after the current sub-pattern, and the first
    alternative for which [k] succeeds wins.  A greedy star tries the longest
    run first, a lazy star the shortest. *)
Fixpoint star_loop {A} (greedy : bool) (cs : charset) (s : str)
    (k : str → option A) : option A :=
  if greedy then
    match s with
    | c :: t =>
        if cs_match cs c then
          match star_loop greedy cs t k with
          | Some r => Some r
          | None => k s
          end
        else k s
    | [] => k s
    end
  else
    match k s with
    | Some r => Some r
    | None =>
        match s with
        | c :: t => if cs_match cs c then star_loop greedy cs t k else None
        | [] => None
        end
    end.

Fixpoint rmatch {A} (r : regex) (s : str) (g : groups)
    (k : str → groups → option A) : option A :=
  match r with
  | RChar cs =>
      match s with
      | c :: t => if cs_match cs c then k t g else None
      | [] => None
      end
  | RStar greedy cs => star_loop greedy cs s (λ t, k t g)
  | RSeq r1 r2 => rmatch r1 s g (λ t g', rmatch r2 t g' k)
  | RGroup n r' =>
      rmatch r' s g (λ t g', k t ((n, take (length s - length t) s) :: g'))
  end.

(** A match of [r] that starts at the head of [s]: the text after the match
    and the groups.  With [must_advance] an empty match is refused, and the
    matcher backtracks for a longer one. *)
Definition match_at (r : regex) (must_advance : bool) (s : str)
    : option (str * groups) :=
  rmatch r s []
    (λ t g, if must_advance && (length t =? length s)%nat then None
            else Some (t, g)).

(** Replacement templates: literal characters and group references [\n]. *)
Inductive titem : Type :=
| TLit (c : N)
| TGroup (n : nat).

Fixpoint expand (repl : list titem) (g : groups) : str :=
  match repl with
  | [] => []
  | TLit c :: repl' => c :: expand repl' g
  | TGroup n :: repl' => default [] (group n g) ++ expand repl' g
  end.

(** [re.sub]: scan from the left; where the pattern matches, emit the
    replacement and go on after the match; elsewhere copy one character.
    After an empty match the next attempt at the same place must advance. *)
Fixpoint sub_from (r : regex) (repl : list titem) (fuel : nat)
    (must_advance : bool) (s : str) : str :=
  match fuel with
  | O => s
  | S fuel' =>
      match match_at r must_advance s with
      | Some (t, g) =>
          expand repl g
            ++ sub_from r repl fuel' (length t =? length s)%nat t
      | None =>
          match s with
          | [] => []
          | c :: s' => c :: sub_from r repl fuel' false s'
          end
      end
  end.

Definition re_sub (r : regex) (repl : list titem) (s : str) : str :=
  sub_from r repl (2 * length s + 2) false s.

(** ** The three cleaning steps of [convert_jsonc_to_json] *)

Fixpoint rseq (rs : list regex) (last : regex) : regex :=
  match rs with
  | [] => last
  | r :: rs' => RSeq r (rseq rs' last)
  end.

(** [r'/\*.*?\*/'] with [re.DOTALL]. *)
Definition block_comment_re : regex :=
  rseq [RChar (CChar (ord "/")); RChar (CChar (ord "*"));
        RStar false (CDot true); RChar (CChar (ord "*"))]
       (RChar (CChar (ord "/"))).

(** [r'//.*']. *)
Definition line_comment_re : regex :=
  rseq [RChar (CChar (ord "/")); RChar (CChar (ord "/"))]
       (RStar true (CDot false)).

(** [r',\s*([\]}])']. *)
Definition trailing_comma_re : regex :=
  rseq [RChar (CChar (ord ",")); RStar true CSpace]
       (RGroup 1 (RChar (CSet [ord "]"; ord "}"]))).

(** Step 1: [re.sub(r'/\*.*?\*/', '', content, flags=re.DOTALL)]. *)
Definition remove_block_comments (content : str) : str :=
  re_sub block_comment_re [] content.

(** Step 2: [re.sub(r'//.*', '', content)]. *)
Definition remove_line_comments (content : str) : str :=
  re_sub line_comment_re [] content.

(** Step 3: [re.sub(r',\s*([\]}])', r'\1', content)]. *)
Definition remove_trailing_commas (content : str) : str :=
  re_sub trailing_comma_re [TGroup 1] content.

Definition clean (content : str) : str :=
  remove_trailing_commas (remove_line_comments (remove_block_comments content)).

(** ** The output path *)

(** [s.rpartition(sep)] for a one-character separator: the text before and
    after the last occurrence of [sep], when there is one. *)
Fixpoint rpartition (sep : N) (s : str) : option (str * str) :=
  match s with
  | [] => None
  | c :: t =>
      match rpartition sep t with
      | Some (a, b) => Some (c :: a, b)
      | None => if c =? sep then Some ([], t) else None
      end
  end.

(** [s.rsplit(sep, 1)]. *)
Definition rsplit1 (sep : N) (s : str) : list str :=
  match rpartition sep s with
  | Some (a, b) => [a; b]
  | None => [s]
  end.

(** [l[0]]. *)
Definition item0 (l : list str) : str :=
  match l with
  | a :: _ => a
  | [] => []
  end.

(** [input_path.rsplit('.', 1)[0] + '.json']. *)
Definition output_path_of (input_path : str) : str :=
  item0 (rsplit1 (ord ".") input_path) ++ py ".json".

(** ** JSON values *)

(** Python's [float] is left abstract: the decoder's conversion of a number
    lexeme that has a fraction or an exponent, the three constants the decoder
    accepts, and the text the encoder writes for a float ([float.__repr__], or
    [NaN], [Infinity], [-Infinity]). *)
Class PyFloat : Type := {
  float : Type;
  float_of_str : str → float;
  float_nan : float;
  float_inf : float;
  float_neg_inf : float;
  floatstr : float → str
}.

(** What [json.loads] builds: [None], [bool], [int], [float], [str], [list]
    and [dict] (insertion-ordered, keys unique). *)
#[warnings="-register-all"]
Inductive json `{PyFloat} : Type :=
| JNull
| JBool (b : bool)
| JInt (n : Z)
| JFloat (x : float)
| JStr (s : str)
| JList (l : list json)
| JDict (d : list (str * json)).

(** The limits of the interpreter that the decoder can meet:
    [sys.get_int_max_str_digits()], 4300 unless it was set otherwise and 0
    for no limit, and the number of containers, one inside the other, that
    the scanner may enter before the interpreter's recursion limit is
    reached (what is left of that limit when [json.loads] is called). *)
Class PyLimits : Type := {
  max_str_digits : nat;
  recursion_depth : nat
}.

(** The outcome of a decoding function: a value; a [JSONDecodeError] with
    its message and the text that starts at the error position; another
    exception, by its name; or no answer within the fuel given to a loop of
    the model. *)
Inductive result (A : Type) : Type :=
| Ok (a : A)
| Err (msg : str) (rest : str)
| Raise (exc : string)
| Diverge.
Arguments Ok {A} a.
Arguments Err {A} msg rest.
Arguments Raise {A} exc.
Arguments Diverge {A}.

Definition bind {A B} (r : result A) (f : A → result B) : result B :=
  match r with
  | Ok a => f a
  | Err m e => Err m e
  | Raise exc => Raise exc
  | Diverge => Diverge
  end.

Notation "'let*' p := r 'in' k" := (bind r (λ p, k))
  (at level 10, p pattern, r at level 100, k at level 200, only parsing).

(** ** The decoder *)

Definition is_ws (c : N) : bool :=
  (c =? ord " ") || (c =? ord "009") || (c =? ord "010") || (c =? ord "013").

Definition is_digit (c : N) : bool := (ord "0" <=? c) && (c <=? ord "9").

Fixpoint span (p : N → bool) (s : str) : str * str :=
  match s with
  | c :: t => if p c then let '(a, b) := span p t in (c :: a, b) else ([], s)
  | [] => ([], [])
  end.

Definition skip_ws (s : str) : str := (span is_ws s).2.

(** [s.startswith(p)], with the text after the prefix. *)
Fixpoint starts_with (p s : str) : option str :=
  match p, s with
  | [], _ => Some s
  | a :: p', c :: s' => if c =? a then starts_with p' s' else None
  | _ :: _, [] => None
  end.

(** Decimal digits and Python's [int]. *)
Definition digit_of (c : N) (u : Decimal.uint) : Decimal.uint :=
  match c - ord "0" with
  | 0 => Decimal.D0 u | 1 => Decimal.D1 u | 2 => Decimal.D2 u
  | 3 => Decimal.D3 u | 4 => Decimal.D4 u | 5 => Decimal.D5 u
  | 6 => Decimal.D6 u | 7 => Decimal.D7 u | 8 => Decimal.D8 u
  | _ => Decimal.D9 u
  end.

Fixpoint uint_of_str (s : str) : Decimal.uint :=
  match s with
  | [] => Decimal.Nil
  | c :: t => digit_of c (uint_of_str t)
  end.

Fixpoint str_of_uint (u : Decimal.uint) : str :=
  match u with
  | Decimal.Nil => []
  | Decimal.D0 u' => ord "0" :: str_of_uint u'
  | Decimal.D1 u' => ord "1" :: str_of_uint u'
  | Decimal.D2 u' => ord "2" :: str_of_uint u'
  | Decimal.D3 u' => ord "3" :: str_of_uint u'
  | Decimal.D4 u' => ord "4" :: str_of_uint u'
  | Decimal.D5 u' => ord "5" :: str_of_uint u'
  | Decimal.D6 u' => ord "6" :: str_of_uint u'
  | Decimal.D7 u' => ord "7" :: str_of_uint u'
  | Decimal.D8 u' => ord "8" :: str_of_uint u'
  | Decimal.D9 u' => ord "9" :: str_of_uint u'
  end.

(** The value of an integer lexeme. *)
Definition int_of_str (s : str) : Z :=
  match s with
  | c :: t =>
      if c =? ord "-" then Z.of_int (Decimal.Neg (uint_of_str t))
      else Z.of_int (Decimal.Pos (uint_of_str s))
  | [] => 0%Z
  end.

(** [int.__repr__]. *)
Definition intstr (n : Z) : str :=
  match Z.to_int n with
  | Decimal.Pos u => str_of_uint u
  | Decimal.Neg u => ord "-" :: str_of_uint u
  end.

(** The number lexeme at the head of [s], as the scanner splits it: the
    integer part (an optional minus sign, then [0] or a digit run that starts
    with [1-9]), the fraction (a dot and digits), the exponent ([e] or [E],
    an optional sign and digits), and the text after the number. *)
Definition match_frac (r : str) : option str * str :=
  match r with
  | d :: c :: t =>
      if (d =? ord ".") && is_digit c then
        let '(ds, r') := span is_digit t in (Some (d :: c :: ds), r')
      else (None, r)
  | _ => (None, r)
  end.

Definition match_exp (r : str) : option str * str :=
  match r with
  | e :: t =>
      if (e =? ord "e") || (e =? ord "E") then
        let '(sg, t') :=
          match t with
          | c :: t1 =>
              if (c =? ord "-") || (c =? ord "+") then ([c], t1) else ([], t)
          | [] => ([], t)
          end in
        let '(ds, r') := span is_digit t' in
        match ds with
        | [] => (None, r)
        | _ :: _ => (Some (e :: sg ++ ds), r')
        end
      else (None, r)
  | [] => (None, r)
  end.

Definition match_int (s : str) : option (str * str) :=
  match s with
  | c :: t =>
      if (ord "1" <=? c) && (c <=? ord "9") then
        let '(ds, r) := span is_digit t in Some (c :: ds, r)
      else if c =? ord "0" then Some ([c], t)
      else None
  | [] => None
  end.

Definition match_number (s : str) : option (str * option str * option str * str) :=
  let '(sign, s1) :=
    match s with
    | c :: t => if c =? ord "-" then ([c], t) else ([], s)
    | [] => ([], s)
    end in
  match match_int s1 with
  | Some (i, r) =>
      let '(frac, r1) := match_frac r in
      let '(exp, r2) := match_exp r1 in
      Some (sign ++ i, frac, exp, r2)
  | None => None
  end.

(** String escapes. *)
Definition hex_digit (c : N) : option N :=
  if (ord "0" <=? c) && (c <=? ord "9") then Some (c - ord "0")
  else if (ord "a" <=? c) && (c <=? ord "f") then Some (c - ord "a" + 10)
  else if (ord "A" <=? c) && (c <=? ord "F") then Some (c - ord "A" + 10)
  else None.

Definition hex4 (h1 h2 h3 h4 : N) : option N :=
  match hex_digit h1, hex_digit h2, hex_digit h3, hex_digit h4 with
  | Some a, Some b, Some c, Some d =>
      Some (N.lor (N.shiftl (N.lor (N.shiftl (N.lor (N.shiftl a 4) b) 4) c) 4) d)
  | _, _, _, _ => None
  end.

Definition is_high_surrogate (u : N) : bool := (0xd800 <=? u) && (u <=? 0xdbff).
Definition is_low_surrogate (u : N) : bool := (0xdc00 <=? u) && (u <=? 0xdfff).

Definition join_surrogates (u u2 : N) : N :=
  0x10000 + N.lor (N.shiftl (u - 0xd800) 10) (u2 - 0xdc00).

(** The decoder's [BACKSLASH] table. *)
Definition backslash (e : N) : option N :=
  if e =? quote then Some (quote)
  else if e =? ord "\" then Some (ord "\")
  else if e =? ord "/" then Some (ord "/")
  else if e =? ord "b" then Some (ord "008")
  else if e =? ord "f" then Some (ord "012")
  else if e =? ord "n" then Some (ord "010")
  else if e =? ord "r" then Some (ord "013")
  else if e =? ord "t" then Some (ord "009")
  else None.

(** One turn of [scanstring]'s loop at [s], inside a string that opened at
    [begin]: the closing quote, one decoded character (a raw character, a
    backslash escape, or a [\uXXXX] escape, two of them when they are a
    surrogate pair), or an error. *)
Inductive piece : Type :=
| Closing (rest : str)
| Char (c : N) (rest : str)
| Bad (msg : str) (rest : str).

Definition scan_piece (begin s : str) : piece :=
  match s with
  | [] => Bad (py "Unterminated string starting at") begin
  | c :: t =>
      if c =? quote then Closing t
      else if c =? ord "\" then
        match t with
        | [] => Bad (py "Unterminated string starting at") begin
        | e :: t' =>
            if e =? ord "u" then
              match t' with
              | h1 :: h2 :: h3 :: h4 :: ((_ :: _) as r) =>
                  match hex4 h1 h2 h3 h4 with
                  | None => Bad (py "Invalid \uXXXX escape") t
                  | Some u =>
                      match r with
                      | b :: ((e2 :: g1 :: g2 :: g3 :: g4 :: ((_ :: _) as r2)) as t2) =>
                          if is_high_surrogate u && (b =? ord "\") && (e2 =? ord "u")
                          then
                            match hex4 g1 g2 g3 g4 with
                            | None => Bad (py "Invalid \uXXXX escape") t2
                            | Some u2 =>
                                if is_low_surrogate u2
                                then Char (join_surrogates u u2) r2
                                else Char u r
                            end
                          else Char u r
                      | _ => Char u r
                      end
                  end
              | _ => Bad (py "Invalid \uXXXX escape") t
              end
            else
              match backslash e with
              | Some ch => Char ch t'
              | None => Bad (py "Invalid \escape") s
              end
        end
      else if c <=? 31 then Bad (py "Invalid control character at") s
      else Char c t
  end.

(** [scanstring]: [s] is the text after the opening quote, [begin] the text
    from the opening quote on, [acc] the characters decoded so far, latest
    first.  Each turn of the loop takes at least one character, so a fuel of
    the length of [s] and one lets it run to its end. *)
Fixpoint scanstring (fuel : nat) (begin s acc : str) : result (str * str) :=
  match fuel with
  | O => Diverge
  | S fuel' =>
      match scan_piece begin s with
      | Closing r => Ok (rev acc, r)
      | Char c r => scanstring fuel' begin r (c :: acc)
      | Bad msg r => Err msg r
      end
  end.

Section Converter.
Context `{PyFloat} `{PyLimits}.

(** A [dict] assignment [d[k] = v]: a known key keeps its place. *)
Fixpoint str_eqb (a b : str) : bool :=
  match a, b with
  | [], [] => true
  | c :: a', d :: b' => (c =? d) && str_eqb a' b'
  | _, _ => false
  end.

Fixpoint dict_set (k : str) (v : json) (d : list (str * json))
    : list (str * json) :=
  match d with
  | [] => [(k, v)]
  | (k', v') :: d' =>
      if str_eqb k k' then (k', v) :: d' else (k', v') :: dict_set k v d'
  end.

(** The elements of an array, after the opening bracket and the white space
    that follows it; [scan] decodes one value. *)
Fixpoint array_items (scan : str → result (json * str)) (fuel : nat)
    (s : str) (acc : list json) : result (json * str) :=
  match fuel with
  | O => Diverge
  | S fuel' =>
      let* (v, r) := scan s in
      let r1 := skip_ws r in
      match r1 with
      | c :: r2 =>
          if c =? ord "]" then Ok (JList (rev (v :: acc)), r2)
          else if c =? ord "," then
            array_items scan fuel' (skip_ws r2) (v :: acc)
          else Err (py "Expecting ',' delimiter") r1
      | [] => Err (py "Expecting ',' delimiter") r1
      end
  end.

Definition parse_array (scan : str → result (json * str)) (s : str)
    : result (json * str) :=
  let s1 := skip_ws s in
  match s1 with
  | c :: r =>
      if c =? ord "]" then Ok (JList [], r)
      else array_items scan (S (length s1)) s1 []
  | [] => array_items scan (S (length s1)) s1 []
  end.

(** The members of an object, likewise. *)
Fixpoint object_items (scan : str → result (json * str)) (fuel : nat)
    (s : str) (d : list (str * json)) : result (json * str) :=
  match fuel with
  | O => Diverge
  | S fuel' =>
      match s with
      | q :: t =>
          if q =? quote then
            let* (key, r) := scanstring (S (length t)) s t [] in
            let r1 := skip_ws r in
            match r1 with
            | c :: r2 =>
                if c =? ord ":" then
                  let* (v, r3) := scan (skip_ws r2) in
                  let d' := dict_set key v d in
                  let r4 := skip_ws r3 in
                  match r4 with
                  | c' :: r5 =>
                      if c' =? ord "}" then Ok (JDict d', r5)
                      else if c' =? ord "," then
                        object_items scan fuel' (skip_ws r5) d'
                      else Err (py "Expecting ',' delimiter") r4
                  | [] => Err (py "Expecting ',' delimiter") r4
                  end
                else Err (py "Expecting ':' delimiter") r1
            | [] => Err (py "Expecting ':' delimiter") r1
            end
          else Err (py "Expecting property name enclosed in double quotes") s
      | [] => Err (py "Expecting property name enclosed in double quotes") s
      end
  end.

Definition parse_object (scan : str → result (json * str)) (s : str)
    : result (json * str) :=
  let s1 := skip_ws s in
  match s1 with
  | c :: r =>
      if c =? ord "}" then Ok (JDict [], r)
      else object_items scan (S (length s1)) s1 []
  | [] => object_items scan (S (length s1)) s1 []
  end.

(** [int(s)] refuses a lexeme of more digits than the limit allows: it
    raises [ValueError].  A lexeme of up to 640 digits is never refused, and
    a limit of 0 refuses nothing. *)
Definition count_digits (s : str) : nat := length (List.filter is_digit s).

Definition exceeds_digit_limit (s : str) : bool :=
  (640 <? count_digits s)%nat && (0 <? max_str_digits)%nat
  && (max_str_digits <? count_digits s)%nat.

Definition py_int (s : str) : option Z :=
  if exceeds_digit_limit s then None else Some (int_of_str s).

Definition parse_number (s : str) : result (json * str) :=
  match match_number s with
  | Some (integer, frac, exp, r) =>
      match frac, exp with
      | None, None =>
          match py_int integer with
          | Some n => Ok (JInt n, r)
          | None => Raise "ValueError"
          end
      | _, _ =>
          Ok (JFloat (float_of_str (integer ++ default [] frac ++ default [] exp)), r)
      end
  | None => Err (py "Expecting value") s
  end.

(** [scan_once]: one JSON value at the head of [s].  [depth] is the number
    of containers, one inside the other, that may still be entered: the
    scanner checks the recursion limit each time it meets an opening brace
    or bracket, and raises [RecursionError] when nothing is left of it. *)
Fixpoint scan_once (depth : nat) (s : str) : result (json * str) :=
  match s with
  | [] => Err (py "Expecting value") s
  | c :: t =>
      if c =? quote then
        let* (x, r) := scanstring (S (length t)) s t [] in Ok (JStr x, r)
      else if c =? ord "{" then
        match depth with
        | O => Raise "RecursionError"
        | S depth' => parse_object (scan_once depth') t
        end
      else if c =? ord "[" then
        match depth with
        | O => Raise "RecursionError"
        | S depth' => parse_array (scan_once depth') t
        end
      else
        match starts_with (py "null") s, starts_with (py "true") s,
              starts_with (py "false") s, starts_with (py "NaN") s,
              starts_with (py "Infinity") s, starts_with (py "-Infinity") s
        with
        | Some r, _, _, _, _, _ => Ok (JNull, r)
        | _, Some r, _, _, _, _ => Ok (JBool true, r)
        | _, _, Some r, _, _, _ => Ok (JBool false, r)
        | _, _, _, Some r, _, _ => Ok (JFloat float_nan, r)
        | _, _, _, _, Some r, _ => Ok (JFloat float_inf, r)
        | _, _, _, _, _, Some r => Ok (JFloat float_neg_inf, r)
        | None, None, None, None, None, None => parse_number s
        end
  end.

(** [json.loads(s)]. *)
Definition json_loads (s : str) : result json :=
  match starts_with [0xfeff] s with
  | Some _ => Err (py "Unexpected UTF-8 BOM (decode using utf-8-sig)") s
  | None =>
      let* (obj, r) := scan_once recursion_depth (skip_ws s) in
      match skip_ws r with
      | [] => Ok obj
      | (_ :: _) as r' => Err (py "Extra data") r'
      end
  end.

(** ** The encoder, with [indent=4] *)

Definition hex_char (d : N) : N :=
  if d <? 10 then ord "0" + d else ord "a" + (d - 10).

(** ['\\u{0:04x}'.format(n)]. *)
Definition u_escape (n : N) : str :=
  [ord "\"; ord "u";
   hex_char (N.land (N.shiftr n 12) 15); hex_char (N.land (N.shiftr n 8) 15);
   hex_char (N.land (N.shiftr n 4) 15); hex_char (N.land n 15)].

Definition escape_char (c : N) : str :=
  if c =? ord "\" then py "\\"
  else if c =? quote then [ord "\"; quote]
  else if c =? ord "008" then py "\b"
  else if c =? ord "012" then py "\f"
  else if c =? ord "010" then py "\n"
  else if c =? ord "013" then py "\r"
  else if c =? ord "009" then py "\t"
  else if (ord " " <=? c) && (c <=? ord "~") then [c]
  else if c <? 0x10000 then u_escape c
  else
    let n := c - 0x10000 in
    u_escape (N.lor 0xd800 (N.land (N.shiftr n 10) 0x3ff))
      ++ u_escape (N.lor 0xdc00 (N.land n 0x3ff)).

(** [encode_basestring_ascii]. *)
Definition encode_basestring_ascii (s : str) : str :=
  quote :: flat_map escape_char s ++ [quote].

Definition newline_indent (level : nat) : str :=
  ord "010" :: replicate (4 * level) (ord " ").

(** The text [json.dump(o, f, indent=4)] writes for [o] at nesting depth
    [level]: items are separated by [,] and a line break, keys from values by
    [": "]. *)
Fixpoint encode (level : nat) (o : json) : str :=
  match o with
  | JNull => py "null"
  | JBool true => py "true"
  | JBool false => py "false"
  | JInt n => intstr n
  | JFloat x => floatstr x
  | JStr s => encode_basestring_ascii s
  | JList [] => py "[]"
  | JList (v :: l) =>
      ord "[" :: newline_indent (S level) ++ encode (S level) v
        ++ flat_map (λ v', ord "," :: newline_indent (S level)
                             ++ encode (S level) v') l
        ++ newline_indent level ++ [ord "]"]
  | JDict [] => py "{}"
  | JDict ((k, v) :: d) =>
      ord "{" :: newline_indent (S level)
        ++ encode_basestring_ascii k ++ py ": " ++ encode (S level) v
        ++ flat_map (λ kv, ord "," :: newline_indent (S level)
                             ++ encode_basestring_ascii kv.1 ++ py ": "
                             ++ encode (S level) kv.2) d
        ++ newline_indent level ++ [ord "}"]
  end.

Definition json_dumps (o : json) : str := encode 0 o.

(** ** The script *)

(** [str(e)] for a [JSONDecodeError] raised on [doc] where [rest] begins. *)
Definition str_of_nat (n : nat) : str := str_of_uint (Nat.to_uint n).

Fixpoint count_char (c : N) (s : str) : nat :=
  match s with
  | [] => O
  | d :: t => ((if (d =? c)%N then 1 else 0) + count_char c t)%nat
  end.

Definition str_of_error (doc msg rest : str) : str :=
  let pos := (length doc - length rest)%nat in
  let before := take pos doc in
  let lineno := S (count_char (ord "010") before) in
  let colno :=
    match rpartition (ord "010") before with
    | Some (_, line) => S (length line)
    | None => S pos
    end in
  msg ++ py ": line " ++ str_of_nat lineno ++ py " column " ++ str_of_nat colno
      ++ py " (char " ++ str_of_nat pos ++ py ")".

(** How the interpreter ends: it runs off the end of the script,
    [sys.exit(code)] is called, or an exception is not caught. *)
Inductive ending : Type :=
| Finished
| SysExit (code : nat)
| Uncaught (exc : string).

Definition exit_status (e : ending) : nat :=
  match e with
  | Finished => 0
  | SysExit code => code
  | Uncaught _ => 1
  end.

(** What a run leaves behind: the lines printed, the files, and how it
    ended.  A file is identified by its path and holds text. *)
Record outcome : Type := {
  stdout : list str;
  files : gmap str str;
  ended : ending
}.

(** [convert_jsonc_to_json(input_path)].  The handler catches
    [json.JSONDecodeError] only: any other exception of [json.loads] leaves
    the function uncaught, before anything is printed or opened for writing.
    ([Diverge] is no outcome of [json_loads]; see [json_loads_total].) *)
Definition convert_jsonc_to_json (input_path : str) (fs : gmap str str)
    : outcome :=
  let output_path := output_path_of input_path in
  match fs !! input_path with
  | None => {| stdout := []; files := fs; ended := Uncaught "FileNotFoundError" |}
  | Some content =>
      let content := remove_block_comments content in
      let content := remove_line_comments content in
      let content := remove_trailing_commas content in
      match json_loads content with
      | Ok data =>
          {| stdout := [py "Successfully created: " ++ output_path];
             files := <[output_path := json_dumps data]> fs;
             ended := Finished |}
      | Err msg rest =>
          {| stdout := [py "Error parsing JSON after cleaning: "
                          ++ str_of_error content msg rest];
             files := fs;
             ended := SysExit 1 |}
      | Raise exc =>
          {| stdout := []; files := fs; ended := Uncaught exc |}
      | Diverge =>
          {| stdout := []; files := fs; ended := Uncaught "RecursionError" |}
      end
  end.

(** The [if __name__ == "__main__"] block; [argv] is [sys.argv]. *)
Definition main (argv : list str) (fs : gmap str str) : outcome :=
  if (length argv <? 2)%nat then
    {| stdout := [py "Usage: python jsonc_to_json.py <filename.jsonc>"];
       files := fs;
       ended := Finished |}
  else convert_jsonc_to_json (nth 1 argv []) fs.

End Converter.

(** ** Vocabulary of the specification *)

(** [s.find(pat)]: the index of the first occurrence of [pat] in [s]. *)
Fixpoint find (pat s : str) : option nat :=
  match starts_with pat s with
  | Some _ => Some O
  | None =>
      match s with
      | [] => None
      | _ :: t => S <$> find pat t
      end
  end.

(** [s.split(sep)] and [sep.join(ls)] for a one-character separator. *)
Fixpoint split_on (sep : N) (s : str) : list str :=
  match s with
  | [] => [[]]
  | c :: t =>
      if c =? sep then [] :: split_on sep t
      else
        match split_on sep t with
        | l :: ls => (c :: l) :: ls
        | [] => [[c]]
        end
  end.

Fixpoint join (sep : N) (ls : list str) : str :=
  match ls with
  | [] => []
  | l :: ls' =>
      match ls' with
      | [] => l
      | _ :: _ => l ++ sep :: join sep ls'
      end
  end.

(** A line without its line comment: the text before the first [//]. *)
Definition cut_comment (line : str) : str :=
  match find (py "//") line with
  | Some i => take i line
  | None => line
  end.

(** The closer that follows [t]'s leading white space, with the text after
    it. *)
Definition closer_after_space (t : str) : option (N * str) :=
  match (span isspace t).2 with
  | c :: r => if mem c [ord "]"; ord "}"] then Some (c, r) else None
  | [] => None
  end.

(** Some comma of [s] is followed only by white space and then a closer. *)
Fixpoint trailing_comma (s : str) : bool :=
  match s with
  | [] => false
  | c :: t =>
      ((c =? ord ",") && bool_decide (is_Some (closer_after_space t)))
      || trailing_comma t
  end.

(** Some comma of [s] is followed only by white space and then another
    comma. *)
Fixpoint comma_pair (s : str) : bool :=
  match s with
  | [] => false
  | c :: t =>
      ((c =? ord ",")
       && match (span isspace t).2 with
          | d :: _ => d =? ord ","
          | [] => false
          end)
      || comma_pair t
  end.

(** ** A small model of [PyFloat] *)

(** Floats that hold whole numbers only: a lexeme is read up to its fraction
    or exponent, and a float is written with [.0] after its digits.  It is
    used where a statement needs a concrete [float] to run. *)
Definition int_part (s : str) : str :=
  (span (λ c, is_digit c || (c =? ord "-")) s).1.

Definition whole_floats : PyFloat :=
  {| float := Z;
     float_of_str s := int_of_str (int_part s);
     float_nan := 0%Z;
     float_inf := 0%Z;
     float_neg_inf := 0%Z;
     floatstr z := intstr z ++ py ".0" |}.

(** ** Sample files *)

(** A file system with a JSONC file, a file with a syntax error, a JSON
    file whose string holds a URL, a JSON file with escaped slashes, and two
    plain JSON files. *)
Definition sample_fs : gmap str str :=
  <[py "a.b.jsonc" := pyq "{'a': /* c */ 1, // x
  'b': [1, 2,],}"]>
  (<[py "bad.jsonc" := pyq "{'a': 1 'b': 2}"]>
  (<[py "url.jsonc" := pyq "{'a': 'http://x'}"]>
  (<[py "esc.jsonc" := pyq "{'a': 'http:\/\/x'}"]>
  (<[py "plain.jsonc" := pyq "{'b': 1, 'a': [true, null, 'x']}"]>
  (<[py "out.json" := py "[1, 2]"]> ∅))))).

(** A pattern whose matches are never empty. *)
Definition consuming (r : regex) : Prop :=
  ∀ s t g, match_at r false s = Some (t, g) → (length t < length s)%nat.

Definition not_newline (c : N) : bool := negb (c =? ord "010").

(** ** Well-formed texts and values *)

(** A Unicode scalar value: a code point that is no surrogate.  The text of
    a decoded file holds nothing else. *)
Definition scalar (c : N) : bool :=
  (c <? 0x110000) && negb ((0xd800 <=? c) && (c <=? 0xdfff)).

(** No high surrogate stands right before a low surrogate. *)
Fixpoint no_pairs (s : str) : bool :=
  match s with
  | [] => true
  | c :: t =>
      match t with
      | d :: _ => negb (is_high_surrogate c && is_low_surrogate d)
      | [] => true
      end && no_pairs t
  end.

(** A [str] the decoder can build from such a text. *)
Definition wf_str (s : str) : bool :=
  forallb (λ c, c <? 0x110000) s && no_pairs s.

(** The text from [s] on does not start with an escape [\uXXXX] that the
    string scanner would read as a low surrogate. *)
Definition no_low_escape (s : str) : bool :=
  match s with
  | b :: e :: g1 :: g2 :: g3 :: g4 :: _ :: _ =>
      if (b =? ord "\") && (e =? ord "u") then
        match hex4 g1 g2 g3 g4 with
        | Some u => negb (is_low_surrogate u)
        | None => false
        end
      else true
  | _ => true
  end.

(** The text after a value starts with white space, a comma or a closer, or
    is empty. *)
Definition delimited (r : str) : bool :=
  match r with
  | [] => true
  | c :: _ => is_ws c || (c =? ord ",") || (c =? ord "]") || (c =? ord "}")
  end.

(** Every number from [b * 2^k] up to [(b + 1) * 2^k - 1] passes [p]. *)
Fixpoint all_bits (k : nat) (b : N) (p : N → bool) : bool :=
  match k with
  | O => p b
  | S k' => all_bits k' (2 * b) p && all_bits k' (2 * b + 1) p
  end.

Section WellFormed.
Context `{PyFloat} `{PyLimits}.

(** The strings of a value are well formed and the keys of each [dict]
    differ. *)
Fixpoint wf_json (o : json) : Prop :=
  match o with
  | JStr s => wf_str s = true
  | JList l =>
      (fix all (l : list json) : Prop :=
         match l with
         | [] => True
         | v :: l' => wf_json v ∧ all l'
         end) l
  | JDict d =>
      NoDup (map fst d)
      ∧ (fix all (d : list (str * json)) : Prop :=
           match d with
           | [] => True
           | (k, v) :: d' => wf_str k = true ∧ wf_json v ∧ all d'
           end) d
  | _ => True
  end.

(** What the model asks of [float]: the decoder reads the text the encoder
    writes for a float back as that float. *)
Definition float_law : Prop :=
  ∀ (x : float) (r : str) (fuel : nat),
    delimited r = true →
    scan_once (S fuel) (floatstr x ++ r) = Ok (JFloat x, r).

End WellFormed.

(** The text after a number does not go on as a number. *)
Definition number_end (r : str) : bool :=
  match r with
  | [] => true
  | c :: _ =>
      negb (is_digit c || (c =? ord ".") || (c =? ord "e") || (c =? ord "E"))
  end.

(** The check behind the [\uXXXX] escape, run over every code point below
    [0x10000]: the escape decodes to the code point. *)
Definition u_escape_ok (c : N) : bool :=
  match u_escape c with
  | [b; u; h1; h2; h3; h4] =>
      (b =? ord "\") && (u =? ord "u")
      && match hex4 h1 h2 h3 h4 with
         | Some x => x =? c
         | None => false
         end
  | _ => false
  end.


(** The characters a JSON value can start with. *)
Definition value_start (c : N) : bool :=
  (c =? quote) || (c =? ord "{") || (c =? ord "[") || (c =? ord "n")
  || (c =? ord "t") || (c =? ord "f") || (c =? ord "N") || (c =? ord "I")
  || (c =? ord "-") || is_digit c.

Section Decoders.
Context `{PyFloat}.

(** A decoding function that, on a text of scalar values, builds only
    well-formed values and leaves a part of the text it was given. *)
Definition good_scan (scan : str → result (json * str)) : Prop :=
  ∀ s v r,
    Forall (λ c, scalar c = true) s → scan s = Ok (v, r) →
    wf_json v ∧ r `suffix_of` s.

End Decoders.

(** A text of Unicode scalar values. *)
Definition scalar_text (s : str) : bool := forallb scalar s.

Section Progress.
Context `{PyFloat}.

(** A decoding function that answers on every text shorter than [bound],
    and leaves less text than it was given. *)
Definition sound_scan (bound : nat) (scan : str → result (json * str)) : Prop :=
  ∀ s, (length s < bound)%nat →
    scan s ≠ Diverge
    ∧ ∀ v r, scan s = Ok (v, r) → (length r < length s)%nat.

End Progress.

(** ** Values within the limits of the interpreter *)

Section Limits.
Context `{PyFloat} `{PyLimits}.

(** The value nests no more than [depth] containers, and the text of each
    of its integers passes the digit limit. *)
Fixpoint fits (o : json) (depth : nat) : Prop :=
  match o with
  | JInt n => exceeds_digit_limit (intstr n) = false
  | JList l =>
      match depth with
      | O => False
      | S depth' =>
          (fix all (l : list json) : Prop :=
             match l with
             | [] => True
             | v :: l' => fits v depth' ∧ all l'
             end) l
      end
  | JDict d =>
      match depth with
      | O => False
      | S depth' =>
          (fix all (d : list (str * json)) : Prop :=
             match d with
             | [] => True
             | (_, v) :: d' => fits v depth' ∧ all d'
             end) d
      end
  | _ => True
  end.

(** A decoding function that builds only values within the limits. *)
Definition fitting_scan (depth : nat) (scan : str → result (json * str))
    : Prop :=
  ∀ s v r, scan s = Ok (v, r) → fits v depth.

End Limits.

(** Limits to run the samples with: the digit limit of an interpreter that
    was started without options, and a depth of the order of what its
    recursion limit of 1000 leaves to the scanner (the exact number depends
    on the version of the interpreter and on the frames in use). *)
Definition default_limits : PyLimits :=
  {| max_str_digits := 4300; recursion_depth := 995 |}.

(** A text that opens an array and goes on with an integer of 4301 digits,
    and the same text with the array closed. *)
Definition long_integer : str := replicate 4301 (ord "1").
Definition open_long_integer : str := ord "[" :: long_integer.
Definition closed_long_integer : str := ord "[" :: long_integer ++ [ord "]"].

(** ** Further vocabulary *)

(** A text of the ASCII range. *)
Definition ascii_text (s : str) : bool := forallb (λ c, c <? 128) s.

(** A text of JSON white space only. *)
Definition blank (s : str) : bool := forallb is_ws s.

(** What the trailing-comma step can delete: a comma or white space. *)
Definition filler (c : N) : bool := (c =? ord ",") || isspace c.

(** The text without its commas and white space. *)
Definition without_filler (s : str) : str :=
  List.filter (λ c, negb (filler c)) s.

(** The first character of a text is a slash. *)
Definition starts_with_slash (s : str) : bool :=
  match s with
  | c :: _ => c =? ord "/"
  | [] => false
  end.

(** * Properties *)

Local Open Scope nat_scope.

(** Replace every character literal by its code point. *)
Ltac ords :=
  unfold quote in *;
  repeat match goal with
  | |- context [ord ?a] =>
      let v := eval vm_compute in (ord a) in change (ord a) with v
  | H : context [ord ?a] |- _ =>
      let v := eval vm_compute in (ord a) in change (ord a) with v in H
  end.

(** Spell out every text literal, character by character. *)
Ltac pys :=
  repeat match goal with
  | |- context [py ?s] =>
      let v := eval vm_compute in (py s) in change (py s) with v
  | H : context [py ?s] |- _ =>
      let v := eval vm_compute in (py s) in change (py s) with v in H
  end.

(** ** The matcher only moves forward *)

Lemma star_loop_suffix {A} greedy cs s (k : str → option A) x :
  star_loop greedy cs s k = Some x →
  ∃ t, length t ≤ length s ∧ k t = Some x.
Proof.
  revert x. induction s as [|c s IH]; intros x; destruct greedy; simpl.
  - intros Hk. exists []. eauto.
  - destruct (k []) eqn:E; [|done]. intros [= <-]. exists []. eauto.
  - destruct (cs_match cs c).
    + destruct (star_loop true cs s k) eqn:E.
      * intros [= <-]. destruct (IH _ eq_refl) as (t & ? & ?).
        exists t. split; [simpl; lia | done].
      * intros Hk. exists (c :: s). eauto.
    + intros Hk. exists (c :: s). eauto.
  - destruct (k (c :: s)) eqn:E.
    + intros [= <-]. exists (c :: s). eauto.
    + destruct (cs_match cs c); [|done].
      intros Hs. destruct (IH _ Hs) as (t & ? & ?).
      exists t. split; [simpl; lia | done].
Qed.

Lemma rmatch_suffix {A} r s g (k : str → groups → option A) x :
  rmatch r s g k = Some x →
  ∃ t g', length t ≤ length s ∧ k t g' = Some x.
Proof.
  revert s g k x. induction r as [cs|greedy cs|r1 IH1 r2 IH2|n r IH];
    intros s g k x; simpl.
  - destruct s as [|c t]; [done|]. destruct (cs_match cs c); [|done].
    intros Hk. exists t, g. split; [simpl; lia | done].
  - intros Hs. destruct (star_loop_suffix _ _ _ _ _ Hs) as (t & ? & ?). eauto.
  - intros Hs. destruct (IH1 _ _ _ _ Hs) as (t & g' & ? & H2).
    destruct (IH2 _ _ _ _ H2) as (t' & g'' & ? & ?).
    exists t', g''. split; [lia | done].
  - intros Hs. destruct (IH _ _ _ _ Hs) as (t & g' & ? & ?). eauto.
Qed.

Lemma match_at_length r ma s t g :
  match_at r ma s = Some (t, g) →
  length t ≤ length s ∧ (ma = true → length t < length s).
Proof.
  unfold match_at. intros Hm.
  destruct (rmatch_suffix _ _ _ _ _ Hm) as (t' & g' & Hle & Hk).
  destruct ma; simpl in Hk.
  - destruct (length t' =? length s)%nat eqn:E; [done|].
    simplify_eq. apply Nat.eqb_neq in E. split; [done | lia].
  - simplify_eq. split; [done | done].
Qed.

(** ** [re.sub] does not depend on its fuel *)

Lemma sub_from_fuel r repl n m (ma : bool) (s : str) :
  2 * length s + (if ma then 0 else 1) < n →
  2 * length s + (if ma then 0 else 1) < m →
  sub_from r repl n ma s = sub_from r repl m ma s.
Proof.
  revert m ma s. induction n as [|n IH]; intros m ma s Hn Hm; [lia|].
  destruct m as [|m]; [lia|]. simpl.
  destruct (match_at r ma s) as [[t g]|] eqn:E.
  - destruct (match_at_length _ _ _ _ _ E) as [Hle Hlt]. f_equal.
    destruct (length t =? length s)%nat eqn:El.
    + apply Nat.eqb_eq in El. destruct ma; [specialize (Hlt eq_refl); lia|].
      apply IH; lia.
    + apply Nat.eqb_neq in El. apply IH; lia.
  - destruct s as [|c s']; [done|]. f_equal. simpl in *. apply IH; lia.
Qed.

Lemma re_sub_unfold r repl s :
  consuming r →
  re_sub r repl s =
    match match_at r false s with
    | Some (t, g) => expand repl g ++ re_sub r repl t
    | None =>
        match s with
        | [] => []
        | c :: s' => c :: re_sub r repl s'
        end
    end.
Proof.
  intros Hr. unfold re_sub at 1.
  replace (2 * length s + 2) with (S (2 * length s + 1)) by lia.
  cbn [sub_from].
  destruct (match_at r false s) as [[t g]|] eqn:E.
  - specialize (Hr _ _ _ E).
    replace (length t =? length s)%nat with false
      by (symmetry; apply Nat.eqb_neq; lia).
    f_equal. apply sub_from_fuel; lia.
  - destruct s as [|c s']; [done|]. f_equal.
    apply sub_from_fuel; simpl; lia.
Qed.

(** ** Text helpers *)

Lemma starts_with_drop p s r :
  starts_with p s = Some r → r = drop (length p) s.
Proof.
  revert s. induction p as [|a p IH]; intros [|c s]; simpl; try done.
  - by intros [= <-].
  - by intros [= <-].
  - destruct (c =? a)%N; [apply IH | done].
Qed.

Lemma find_tail p c t : find p (c :: t) = None → find p t = None.
Proof.
  simpl. destruct (starts_with p (c :: t)); [done|].
  by destruct (find p t).
Qed.

Lemma find_drop p n s : find p s = None → find p (drop n s) = None.
Proof.
  revert s. induction n as [|n IH]; intros [|c t] Hf; simpl; try done.
  apply IH. by eapply find_tail.
Qed.

Lemma span_length p s : length (span p s).2 ≤ length s.
Proof.
  induction s as [|c t IH]; simpl; [done|].
  destruct (p c); [|done]. destruct (span p t). simpl in *. lia.
Qed.

Lemma span_app p s : (span p s).1 ++ (span p s).2 = s.
Proof.
  induction s as [|c t IH]; simpl; [done|].
  destruct (p c); [|done]. destruct (span p t). simpl in *. by f_equal.
Qed.

(** ** What each pattern matches *)

Lemma star_loop_ext {A} greedy cs s (k k' : str → option A) :
  (∀ t, k t = k' t) → star_loop greedy cs s k = star_loop greedy cs s k'.
Proof.
  intros Hk. induction s as [|c t IH]; destruct greedy; simpl;
    rewrite ?IH, ?Hk; done.
Qed.

(** A lazy [.*?] before [\*/] stops at the first [*/]. *)
Lemma lazy_dot_find u (k : str → option (str * groups)) :
  (∀ t, k t = (λ r, (r, [])) <$> starts_with (py "*/") t) →
  star_loop false (CDot true) u k
  = (λ j, (drop (j + 2) u, [])) <$> find (py "*/") u.
Proof.
  intros Hk. induction u as [|c t IH].
  - simpl. by rewrite Hk.
  - cbn [star_loop find]. rewrite Hk.
    destruct (starts_with (py "*/") (c :: t)) as [r|] eqn:E.
    + apply starts_with_drop in E. by subst r.
    + cbn [fmap option_fmap option_map cs_match orb]. rewrite IH.
      by destruct (find (py "*/") t).
Qed.

Lemma block_match s :
  match_at block_comment_re false s =
    match s with
    | a :: b :: u =>
        if (a =? ord "/")%N && (b =? ord "*")%N
        then (λ j, (drop (j + 2) u, [])) <$> find (py "*/") u
        else None
    | _ => None
    end.
Proof.
  destruct s as [|a [|b u]]; unfold match_at; simpl; ords.
  - done.
  - by destruct (a =? 47)%N.
  - destruct (a =? 47)%N; [|done]. destruct (b =? 42)%N; [|done]. simpl.
    apply lazy_dot_find. intros [|x [|y t]]; simpl; ords; try done.
    + by destruct (x =? 42)%N.
    + by destruct (x =? 42)%N, (y =? 47)%N.
Qed.

(** A greedy star whose continuation cannot fail takes the longest run. *)
Lemma greedy_total {A} cs s (k : str → option A) :
  (∀ t, is_Some (k t)) →
  star_loop true cs s k = k (span (cs_match cs) s).2.
Proof.
  intros Hk. induction s as [|c t IH]; simpl; [done|].
  destruct (cs_match cs c); [|done]. rewrite IH.
  destruct (span (cs_match cs) t) as [a b]. simpl.
  by destruct (Hk b) as [x ->].
Qed.

Lemma line_match s :
  match_at line_comment_re false s =
    match s with
    | a :: b :: u =>
        if (a =? ord "/")%N && (b =? ord "/")%N
        then Some ((span (cs_match (CDot false)) u).2, [])
        else None
    | _ => None
    end.
Proof.
  destruct s as [|a [|b u]]; unfold match_at; simpl; ords.
  - done.
  - by destruct (a =? 47)%N.
  - destruct (a =? 47)%N; [|done]. destruct (b =? 47)%N; [|done]. simpl.
    by rewrite greedy_total by eauto.
Qed.

(** A greedy [\s*] before a closer: a shorter run would leave white space
    where the closer must stand, so only the longest run can match. *)
Lemma greedy_space {A} s (k : str → option A) :
  (∀ c t, isspace c = true → k (c :: t) = None) →
  star_loop true CSpace s k = k (span isspace s).2.
Proof.
  intros Hk. induction s as [|c t IH]; simpl; [done|].
  destruct (isspace c) eqn:Ec; [|done]. rewrite IH.
  destruct (span isspace t) as [a b]. simpl.
  destruct (k b); [done|]. by apply Hk.
Qed.

Lemma closer_not_space c :
  mem c [ord "]"; ord "}"] = true → isspace c = false.
Proof.
  simpl. ords. intros Hc.
  destruct (N.eqb_spec c 93%N) as [E|E]; [by subst c|].
  destruct (N.eqb_spec c 125%N) as [E'|E']; [by subst c | done].
Qed.

Lemma comma_match s :
  match_at trailing_comma_re false s =
    match s with
    | c :: t =>
        if (c =? ord ",")%N
        then (λ '(cl, r), (r, [(1, [cl])])) <$> closer_after_space t
        else None
    | [] => None
    end.
Proof.
  destruct s as [|c t]; unfold match_at; simpl; ords; [done|].
  destruct (c =? 44)%N; [|done].
  rewrite greedy_space.
  - unfold closer_after_space. destruct (span isspace t).2 as [|cl r]; [done|].
    simpl. ords. destruct ((cl =? 93)%N || ((cl =? 125)%N || false)); [|done].
    simpl. do 4 f_equal. replace (S (length r) - length r) with 1 by lia. done.
  - intros d t' Hd. simpl. ords.
    destruct ((d =? 93)%N || ((d =? 125)%N || false)) eqn:E; [|done].
    apply closer_not_space in E. congruence.
Qed.

Lemma block_consuming : consuming block_comment_re.
Proof.
  intros s t g. rewrite block_match. destruct s as [|a [|b u]]; try done.
  destruct (_ && _); [|done]. destruct (find _ u) as [j|]; [|done].
  simpl. intros [= <- <-]. rewrite length_drop. lia.
Qed.

Lemma line_consuming : consuming line_comment_re.
Proof.
  intros s t g. rewrite line_match. destruct s as [|a [|b u]]; try done.
  destruct (_ && _); [|done]. intros [= <- <-].
  pose proof (span_length (cs_match (CDot false)) u). simpl. lia.
Qed.

Lemma comma_consuming : consuming trailing_comma_re.
Proof.
  intros s t g. rewrite comma_match. destruct s as [|c u]; [done|].
  destruct (c =? _)%N; [|done]. unfold closer_after_space.
  pose proof (span_length isspace u).
  destruct (span isspace u).2 as [|cl r]; [done|].
  destruct (mem cl _); [|done]. simpl in *. intros [= <- <-]. lia.
Qed.

(** ** Step 1: block comments *)

Lemma block_unfold s :
  remove_block_comments s =
    match match_at block_comment_re false s with
    | Some (t, _) => remove_block_comments t
    | None =>
        match s with
        | [] => []
        | c :: s' => c :: remove_block_comments s'
        end
    end.
Proof.
  unfold remove_block_comments.
  rewrite (re_sub_unfold _ _ s block_consuming) at 1.
  by destruct (match_at _ _ s) as [[t g]|].
Qed.

(** Text without a later [*/] is left as it is. *)
Lemma block_unclosed s :
  find (py "*/") (drop 2 s) = None → remove_block_comments s = s.
Proof.
  induction s as [|c s IH]; intros Hf; rewrite block_unfold, block_match.
  - done.
  - assert (find (py "*/") (drop 2 s) = None) as Hs.
    { destruct s as [|b u]; [done|]. change (drop 2 (c :: b :: u)) with u in Hf.
      destruct u as [|x u']; [done|]. by eapply find_tail. }
    destruct s as [|b u]; [done|].
    change (drop 2 (c :: b :: u)) with u in Hf.
    destruct (_ && _).
    + rewrite Hf. simpl. f_equal. by apply IH.
    + f_equal. by apply IH.
Qed.

Lemma block_no_opener s :
  find (py "/*") s = None → remove_block_comments s = s.
Proof.
  induction s as [|c s IH]; intros Hf; rewrite block_unfold, block_match.
  - done.
  - pose proof (find_tail _ _ _ Hf) as Hs.
    destruct s as [|b u]; [done|].
    simpl in Hf. ords.
    destruct (c =? 47)%N, (b =? 42)%N; simpl in *; try done;
      f_equal; by apply IH.
Qed.

Lemma block_before_opener s i :
  find (py "/*") s = Some i →
  remove_block_comments s = take i s ++ remove_block_comments (drop i s)
  ∧ ∃ u, drop i s = ord "/" :: ord "*" :: u.
Proof.
  revert i. induction s as [|c s IH]; intros i Hf; [done|].
  cbn [find] in Hf.
  destruct (starts_with (py "/*") (c :: s)) as [r|] eqn:E.
  - injection Hf as <-. split; [done|]. simpl in E. ords.
    destruct (N.eqb_spec c 47%N) as [->|]; [|done].
    destruct s as [|b u]; [done|].
    destruct (N.eqb_spec b 42%N) as [->|]; [|done]. eauto.
  - destruct (find (py "/*") s) as [j|] eqn:Ej; [|done].
    injection Hf as <-. destruct (IH _ eq_refl) as [IH1 IH2].
    split; [|done]. cbn [take drop app].
    rewrite block_unfold, block_match. rewrite <- IH1.
    simpl in E. ords.
    destruct s as [|b u]; [by destruct (c =? 47)%N|].
    by destruct (c =? 47)%N, (b =? 42)%N.
Qed.

(** C3.  Block-comment removal finds the leftmost [/*], then the nearest
    [*/] after it, deletes the span between them with both delimiters, line
    breaks included, and goes on in the same way with the text after the
    span; an opener without a later [*/] is kept, with the rest of the text. *)
Theorem block_comments_removed (s : str) :
  remove_block_comments s =
    match find (py "/*") s with
    | None => s
    | Some i =>
        match find (py "*/") (drop (i + 2) s) with
        | None => s
        | Some j => take i s ++ remove_block_comments (drop (i + 2 + j + 2) s)
        end
    end.
Proof.
  destruct (find (py "/*") s) as [i|] eqn:Ei; [|by apply block_no_opener].
  destruct (block_before_opener _ _ Ei) as [Hs [u Hu]].
  assert (drop (i + 2) s = u) as Hd.
  { rewrite <- drop_drop, Hu. done. }
  rewrite Hd, Hs.
  destruct (find (py "*/") u) as [j|] eqn:Ej.
  - rewrite (block_unfold (drop i s)), block_match, Hu.
    ords. simpl. rewrite Ej. simpl.
    rewrite <- Hd, drop_drop. do 3 f_equal. lia.
  - rewrite block_unclosed; [by rewrite take_drop|].
    by rewrite Hu.
Qed.

(** ** Step 2: line comments *)

Lemma line_unfold s :
  remove_line_comments s =
    match match_at line_comment_re false s with
    | Some (t, _) => remove_line_comments t
    | None =>
        match s with
        | [] => []
        | c :: s' => c :: remove_line_comments s'
        end
    end.
Proof.
  unfold remove_line_comments.
  rewrite (re_sub_unfold _ _ s line_consuming) at 1.
  by destruct (match_at _ _ s) as [[t g]|].
Qed.

Lemma split_on_cons sep s : ∃ l ls, split_on sep s = l :: ls.
Proof.
  destruct s as [|c t]; simpl; [eauto|].
  destruct (c =? sep)%N; [eauto|]. destruct (split_on sep t); eauto.
Qed.

(** The first line of a text and what follows its line break. *)
Lemma split_on_span s :
  split_on (ord "010") s =
    (span not_newline s).1 ::
      match (span not_newline s).2 with
      | [] => []
      | _ :: rest => split_on (ord "010") rest
      end.
Proof.
  induction s as [|c t IH]; simpl; [done|]. unfold not_newline at 1 3.
  destruct (c =? ord "010")%N eqn:E; simpl; [done|].
  rewrite IH. by destruct (span not_newline t).
Qed.

Lemma span_stop p s c r : (span p s).2 = c :: r → p c = false.
Proof.
  induction s as [|d t IH]; simpl; [done|].
  destruct (p d) eqn:E.
  - destruct (span p t). simpl in *. done.
  - simpl. by intros [= <- <-].
Qed.

Lemma join_cons sep l l' ls :
  join sep (l :: l' :: ls) = l ++ sep :: join sep (l' :: ls).
Proof. done. Qed.

Lemma join_head sep a l ls :
  join sep ((a :: l) :: ls) = a :: join sep (l :: ls).
Proof. by destruct ls. Qed.

Lemma cut_cons a l :
  starts_with (py "//") (a :: l) = None →
  cut_comment (a :: l) = a :: cut_comment l.
Proof.
  intros E. unfold cut_comment. cbn [find]. rewrite E.
  by destruct (find (py "//") l).
Qed.

Lemma first_line_head s l ls x l' :
  split_on (ord "010") s = l :: ls → l = x :: l' → ∃ r, s = x :: r.
Proof.
  destruct s as [|c t]; simpl; [by intros [= <- <-]|].
  destruct (c =? ord "010")%N; [by intros [= <- <-]|].
  destruct (split_on (ord "010") t); intros [= <- <-] [= <- <-]; eauto.
Qed.

Lemma line_step c s :
  match_at line_comment_re false (c :: s) = None →
  remove_line_comments (c :: s) = c :: remove_line_comments s.
Proof. intros E. by rewrite line_unfold, E. Qed.

Lemma span_comment u :
  span not_newline (47%N :: 47%N :: u)
  = (47%N :: 47%N :: (span not_newline u).1, (span not_newline u).2).
Proof.
  cbn [span]. change (not_newline 47%N) with true. cbn iota.
  by destruct (span not_newline u).
Qed.

Lemma lines_strong n : ∀ s, length s < n →
  remove_line_comments s
  = join (ord "010") (map cut_comment (split_on (ord "010") s)).
Proof.
  ords. induction n as [|n IH]; intros s Hn; [lia|].
  destruct s as [|a s']; [by rewrite line_unfold|].
  simpl in Hn.
  destruct (match_at line_comment_re false (a :: s')) as [[t g]|] eqn:E.
  - (* a comment starts here *)
    rewrite line_unfold, E. rewrite line_match in E.
    destruct s' as [|b u]; [done|]. ords.
    destruct (N.eqb_spec a 47%N) as [->|]; [|done].
    destruct (N.eqb_spec b 47%N) as [->|]; [|done].
    injection E as <- <-.
    change (cs_match (CDot false)) with not_newline.
    pose proof (split_on_span (47%N :: 47%N :: u)) as Hs. ords.
    rewrite Hs, span_comment. cbn [fst snd map].
    change (cut_comment (47%N :: 47%N :: (span not_newline u).1)) with (@nil N).
    pose proof (span_length not_newline u) as Hl.
    destruct (span not_newline u).2 as [|c rest] eqn:Eu.
    + by rewrite line_unfold.
    + assert (not_newline c = false) as Hc by (by eapply span_stop).
      unfold not_newline in Hc. apply negb_false_iff, N.eqb_eq in Hc.
      ords. subst c. simpl in Hl, Hn.
      rewrite line_step by (by rewrite line_match; destruct rest).
      rewrite IH by lia.
      by destruct (split_on_cons 10%N rest) as (l & ls & ->).
  - (* this character is kept *)
    rewrite line_step by done. rewrite IH by lia.
    destruct (split_on_cons 10%N s') as (l & ls & El).
    cbn [split_on]. rewrite El.
    destruct (N.eqb_spec a 10%N) as [->|Ha]; [done|].
    cbn [map]. rewrite cut_cons, join_head; [done|].
    rewrite line_match in E. pys. simpl. ords.
    destruct (N.eqb_spec a 47%N) as [->|]; [|done].
    destruct l as [|x l']; [done|].
    destruct (first_line_head _ _ _ _ _ El eq_refl) as [r ->].
    simpl in E. by destruct (x =? 47)%N.
Qed.

(** C4.  Line-comment removal works on every line on its own, a line being
    the text between two line breaks: the line loses the text from its first
    [//] to its end and keeps the text before it; the line breaks stay, and
    no other line is touched. *)
Theorem line_comments_removed (s : str) :
  remove_line_comments s
  = join (ord "010") (map cut_comment (split_on (ord "010") s)).
Proof. apply (lines_strong (S (length s))). lia. Qed.

(** ** Step 3: trailing commas *)

Lemma comma_unfold s :
  remove_trailing_commas s =
    match s with
    | [] => []
    | c :: t =>
        match (if (c =? ord ",")%N then closer_after_space t else None) with
        | Some (closer, rest) => closer :: remove_trailing_commas rest
        | None => c :: remove_trailing_commas t
        end
    end.
Proof.
  unfold remove_trailing_commas.
  rewrite (re_sub_unfold _ _ s comma_consuming) at 1. rewrite comma_match.
  destruct s as [|c t]; [done|].
  destruct (c =? ord ",")%N; [|done].
  by destruct (closer_after_space t) as [[cl r]|].
Qed.

Lemma span_all p s : Forall (λ c, p c = true) (span p s).1.
Proof.
  induction s as [|c t IH]; simpl; [done|].
  destruct (p c) eqn:E; [|done]. destruct (span p t). simpl in *. by constructor.
Qed.

Lemma span_prefix p w x :
  Forall (λ c, p c = true) w → (span p (w ++ x)).2 = (span p x).2.
Proof.
  induction 1 as [|c w Hc _ IH]; simpl; [done|].
  rewrite Hc. by destruct (span p (w ++ x)).
Qed.

Lemma comma_pair_tail c t : comma_pair (c :: t) = false → comma_pair t = false.
Proof. simpl. by intros [_ ?]%orb_false_iff. Qed.

Lemma comma_pair_suffix a b : comma_pair (a ++ b) = false → comma_pair b = false.
Proof.
  induction a as [|c a IH]; [done|]. intros Hp. apply IH.
  by eapply comma_pair_tail.
Qed.

(** Leading white space is copied. *)
Lemma commas_after_space s :
  remove_trailing_commas s
  = (span isspace s).1 ++ remove_trailing_commas (span isspace s).2.
Proof.
  induction s as [|c t IH]; [done|]. cbn [span].
  destruct (isspace c) eqn:Ec; [|done].
  rewrite comma_unfold. ords.
  destruct (N.eqb_spec c 44%N) as [->|]; [done|].
  rewrite IH. by destruct (span isspace t).
Qed.

Lemma closer_is_not_comma c :
  mem c [ord "]"; ord "}"] = true → (c =? ord ",")%N = false.
Proof.
  simpl. ords. intros Hc.
  destruct (N.eqb_spec c 93%N) as [E|E]; [by subst c|].
  destruct (N.eqb_spec c 125%N) as [E'|E']; [by subst c | done].
Qed.

(** A comma that the step keeps is not followed by a closer afterwards,
    unless a second comma stood between them. *)
Lemma kept_comma_stays t :
  closer_after_space t = None →
  match (span isspace t).2 with
  | d :: _ => (d =? ord ",")%N
  | [] => false
  end = false →
  closer_after_space (remove_trailing_commas t) = None.
Proof.
  intros Hc Hd. rewrite commas_after_space.
  unfold closer_after_space in *.
  rewrite span_prefix by apply span_all.
  destruct (span isspace t).2 as [|d r] eqn:E.
  - by rewrite comma_unfold.
  - rewrite comma_unfold, Hd.
    apply span_stop in E. cbn [span]. rewrite E. cbn [snd].
    by destruct (mem d _).
Qed.

Lemma commas_strong n : ∀ s, length s < n →
  comma_pair s = false → trailing_comma (remove_trailing_commas s) = false.
Proof.
  induction n as [|n IH]; intros s Hn Hp; [lia|].
  destruct s as [|c t]; [by rewrite comma_unfold|].
  simpl in Hn. pose proof (comma_pair_tail _ _ Hp) as Ht.
  rewrite comma_unfold.
  destruct (c =? ord ",")%N eqn:Ec.
  - destruct (closer_after_space t) as [[cl rest]|] eqn:E.
    + unfold closer_after_space in E.
      pose proof (span_length isspace t) as Hl.
      pose proof (span_app isspace t) as Ha.
      destruct (span isspace t).2 as [|cl' rest'] eqn:Es; [done|].
      destruct (mem cl' _) eqn:Em; [|done]. injection E as -> ->.
      cbn [trailing_comma]. rewrite (closer_is_not_comma _ Em). simpl in Hl |- *.
      apply IH; [lia|]. rewrite <- Ha in Ht.
      apply comma_pair_suffix in Ht. by eapply comma_pair_tail.
    + cbn [trailing_comma]. rewrite Ec. cbn [andb].
      simpl in Hp. rewrite Ec in Hp. apply orb_false_iff in Hp as [Hp _].
      rewrite kept_comma_stays by done.
      rewrite bool_decide_eq_false_2 by (by intros [? ?]).
      apply IH; [lia | done].
  - cbn [trailing_comma]. rewrite Ec. apply IH; [lia | done].
Qed.

(** C5.  Trailing-comma removal deletes every comma that is followed only
    by white space and then [\]] or [}], together with that white space, and
    keeps the closer; every other character is kept.  When no comma of the
    input is followed, after white space only, by another comma, no comma of
    the result is followed by white space only and then a closer. *)
Theorem trailing_commas_removed (s : str) :
  remove_trailing_commas s =
    match s with
    | [] => []
    | c :: t =>
        match (if (c =? ord ",")%N then closer_after_space t else None) with
        | Some (closer, rest) => closer :: remove_trailing_commas rest
        | None => c :: remove_trailing_commas t
        end
    end
  ∧ (comma_pair s = false →
     trailing_comma (remove_trailing_commas s) = false).
Proof.
  split; [apply comma_unfold|]. apply (commas_strong (S (length s))). lia.
Qed.

Lemma trailing_commas_removed_nested :
  comma_pair (pyq "{'a': [1, 2,], 'b': {'c': 3,},}") = false
  ∧ trailing_comma
      (remove_trailing_commas (pyq "{'a': [1, 2,], 'b': {'c': 3,},}"))
    = false.
Proof.
  split; [reflexivity|].
  apply (proj2 (trailing_commas_removed _)). reflexivity.
Defined.

(** The nested example of the specification. *)
Example nested_trailing_commas :
  remove_trailing_commas (pyq "{'a': [1, 2,], 'b': {'c': 3,},}")
  = pyq "{'a': [1, 2], 'b': {'c': 3}}".
Proof. reflexivity. Qed.

(** One pass over a doubled comma leaves a comma before the closer. *)
Lemma doubled_comma_left_dangling :
  remove_trailing_commas (pyq "{'a': [1,,], 'b': 2,}")
  = pyq "{'a': [1,], 'b': 2}"
  ∧ trailing_comma (remove_trailing_commas (pyq "{'a': [1,,], 'b': 2,}"))
    = true.
Proof. split; reflexivity. Qed.

(** ** The output path *)

Lemma rpartition_none sep s : mem sep s = false → rpartition sep s = None.
Proof.
  induction s as [|c t IH]; simpl; [done|].
  rewrite N.eqb_sym. intros [Hc Ht]%orb_false_iff.
  by rewrite IH, Hc.
Qed.

Lemma rpartition_last sep base ext :
  mem sep ext = false → rpartition sep (base ++ sep :: ext) = Some (base, ext).
Proof.
  intros He. induction base as [|c b IH]; simpl.
  - by rewrite rpartition_none, N.eqb_refl.
  - by rewrite IH.
Qed.

(** C2.  The output path is the input path up to its rightmost [.], with
    [.json] appended; a path without [.] is taken whole. *)
Theorem output_path_derivation (p base : str) :
  (p = base ∧ mem (ord ".") p = false)
  ∨ (∃ ext, p = base ++ ord "." :: ext ∧ mem (ord ".") ext = false) →
  output_path_of p = base ++ py ".json".
Proof.
  unfold output_path_of, rsplit1. intros [[-> Hp]|(ext & -> & He)].
  - by rewrite rpartition_none.
  - by rewrite rpartition_last.
Qed.

Lemma output_path_derivation_examples :
  ((py "a.b.jsonc" = py "a.b" ∧ mem (ord ".") (py "a.b.jsonc") = false)
   ∨ (∃ ext, py "a.b.jsonc" = py "a.b" ++ ord "." :: ext
             ∧ mem (ord ".") ext = false))
  ∧ output_path_of (py "a.b.jsonc") = py "a.b.json".
Proof.
  assert ((py "a.b.jsonc" = py "a.b" ∧ mem (ord ".") (py "a.b.jsonc") = false)
   ∨ (∃ ext, py "a.b.jsonc" = py "a.b" ++ ord "." :: ext
             ∧ mem (ord ".") ext = false)) as Hyp.
  { right. exists (py "jsonc"). split; reflexivity. }
  split; [exact Hyp|]. exact (output_path_derivation _ _ Hyp).
Defined.

Example output_path_config :
  output_path_of (py "config.jsonc") = py "config.json".
Proof. reflexivity. Qed.

Example output_path_no_extension :
  output_path_of (py "config") = py "config.json".
Proof. reflexivity. Qed.

(** ** The script *)

Section Script.
Context `{PyFloat} `{PyLimits}.

Lemma convert_clean path fs content :
  fs !! path = Some content →
  convert_jsonc_to_json path fs =
    match json_loads (clean content) with
    | Ok data =>
        {| stdout := [py "Successfully created: " ++ output_path_of path];
           files := <[output_path_of path := json_dumps data]> fs;
           ended := Finished |}
    | Err msg rest =>
        {| stdout := [py "Error parsing JSON after cleaning: "
                        ++ str_of_error (clean content) msg rest];
           files := fs;
           ended := SysExit 1 |}
    | Raise exc =>
        {| stdout := []; files := fs; ended := Uncaught exc |}
    | Diverge =>
        {| stdout := []; files := fs; ended := Uncaught "RecursionError" |}
    end.
Proof. intros Hf. unfold convert_jsonc_to_json, clean. by rewrite Hf. Qed.

(** C8.  Without an input path the script prints the usage line, converts
    nothing and ends normally, with status 0. *)
Theorem usage_without_argument (argv : list str) (fs : gmap str str) :
  length argv < 2 →
  stdout (main argv fs) = [py "Usage: python jsonc_to_json.py <filename.jsonc>"]
  ∧ files (main argv fs) = fs
  ∧ exit_status (ended (main argv fs)) = 0.
Proof.
  intros Hl. unfold main.
  by replace (length argv <? 2) with true by (symmetry; by apply Nat.ltb_lt).
Qed.

End Script.
Section Samples.
#[local] Existing Instance whole_floats.
#[local] Existing Instance default_limits.

Lemma usage_without_argument_sample :
  length [py "remove-json-comments.py"] < 2
  ∧ stdout (main [py "remove-json-comments.py"] sample_fs)
    = [py "Usage: python jsonc_to_json.py <filename.jsonc>"]
  ∧ files (main [py "remove-json-comments.py"] sample_fs) = sample_fs
  ∧ exit_status (ended (main [py "remove-json-comments.py"] sample_fs)) = 0.
Proof.
  assert (length [py "remove-json-comments.py"] < 2) as H1 by (simpl; lia).
  split; [exact H1|]. exact (usage_without_argument _ _ H1).
Defined.

End Samples.

Section Frame.
Context `{PyFloat} `{PyLimits}.

Lemma output_is_input path :
  output_path_of path = path ↔ ∃ base, path = base ++ py ".json".
Proof.
  split.
  - intros Hp. exists (item0 (rsplit1 (ord ".") path)). by rewrite <- Hp at 1.
  - intros [base ->]. unfold output_path_of, rsplit1.
    change (py ".json") with (ord "." :: py "json").
    by rewrite (rpartition_last (ord ".") base (py "json")).
Qed.

Lemma convert_files path fs :
  files (convert_jsonc_to_json path fs) = fs
  ∨ ∃ text, files (convert_jsonc_to_json path fs)
            = <[output_path_of path := text]> fs.
Proof.
  unfold convert_jsonc_to_json. destruct (fs !! path); [|by left].
  destruct (json_loads _); simpl; eauto.
Qed.

(** C9.  The converter reads the input file and writes only the output
    path: the input file keeps its content unless the two paths are the
    same, which is the case exactly when the input path ends in [.json];
    then a successful conversion replaces the input file by the serialized
    value. *)
Theorem input_file_preserved (path : str) (fs : gmap str str) :
  (output_path_of path ≠ path →
   files (convert_jsonc_to_json path fs) !! path = fs !! path)
  ∧ (output_path_of path = path ↔ ∃ base, path = base ++ py ".json")
  ∧ (output_path_of path = path →
     ∀ content data,
       fs !! path = Some content →
       json_loads (clean content) = Ok data →
       files (convert_jsonc_to_json path fs) !! path = Some (json_dumps data)).
Proof.
  split; [|split].
  - intros Hne. destruct (convert_files path fs) as [->|[text ->]]; [done|].
    by rewrite lookup_insert_ne.
  - apply output_is_input.
  - intros Heq content data Hf Hd.
    rewrite (convert_clean _ _ _ Hf), Hd. simpl.
    by rewrite Heq, lookup_insert_eq.
Qed.

(** C10.  A run is a function of the input path and of the text found
    there: two runs that find the same text print the same lines, end the
    same way and write the same text, or nothing, to the output path; the
    other files play no part. *)
Theorem conversion_deterministic (path : str) (fs1 fs2 : gmap str str) :
  fs1 !! path = fs2 !! path →
  stdout (convert_jsonc_to_json path fs1) = stdout (convert_jsonc_to_json path fs2)
  ∧ ended (convert_jsonc_to_json path fs1) = ended (convert_jsonc_to_json path fs2)
  ∧ ((files (convert_jsonc_to_json path fs1) = fs1
      ∧ files (convert_jsonc_to_json path fs2) = fs2)
     ∨ ∃ text,
         files (convert_jsonc_to_json path fs1)
         = <[output_path_of path := text]> fs1
         ∧ files (convert_jsonc_to_json path fs2)
           = <[output_path_of path := text]> fs2).
Proof.
  intros Hf. unfold convert_jsonc_to_json. rewrite <- Hf.
  destruct (fs1 !! path) as [content|]; [|by auto].
  destruct (json_loads _); simpl; eauto 6.
Qed.

End Frame.

Section FrameSamples.
#[local] Existing Instance whole_floats.
#[local] Existing Instance default_limits.

Lemma input_file_preserved_sample :
  (output_path_of (py "a.b.jsonc") ≠ py "a.b.jsonc"
   ∧ files (convert_jsonc_to_json (py "a.b.jsonc") sample_fs) !! py "a.b.jsonc"
     = sample_fs !! py "a.b.jsonc")
  ∧ (output_path_of (py "out.json") = py "out.json"
     ∧ sample_fs !! py "out.json" = Some (py "[1, 2]")
     ∧ json_loads (clean (py "[1, 2]")) = Ok (JList [JInt 1; JInt 2])
     ∧ files (convert_jsonc_to_json (py "out.json") sample_fs) !! py "out.json"
       = Some (json_dumps (JList [JInt 1; JInt 2]))).
Proof.
  assert (output_path_of (py "a.b.jsonc") ≠ py "a.b.jsonc") as H1
    by (vm_compute; discriminate).
  assert (output_path_of (py "out.json") = py "out.json") as H2
    by (vm_compute; reflexivity).
  assert (sample_fs !! py "out.json" = Some (py "[1, 2]")) as H3
    by (vm_compute; reflexivity).
  assert (json_loads (clean (py "[1, 2]")) = Ok (JList [JInt 1; JInt 2])) as H4
    by (vm_compute; reflexivity).
  split.
  - split; [exact H1|].
    exact (proj1 (input_file_preserved (py "a.b.jsonc") sample_fs) H1).
  - split; [exact H2|]. split; [exact H3|]. split; [exact H4|].
    exact (proj2 (proj2 (input_file_preserved (py "out.json") sample_fs))
             H2 _ _ H3 H4).
Defined.

(** The text that replaces [out.json]. *)
Example overwritten_in_place :
  files (convert_jsonc_to_json (py "out.json") sample_fs) !! py "out.json"
  = Some (py "[
    1,
    2
]").
Proof. vm_compute. reflexivity. Qed.

Lemma conversion_deterministic_sample :
  sample_fs !! py "a.b.jsonc" = delete (py "bad.jsonc") sample_fs !! py "a.b.jsonc"
  ∧ stdout (convert_jsonc_to_json (py "a.b.jsonc") sample_fs)
    = stdout (convert_jsonc_to_json (py "a.b.jsonc")
                (delete (py "bad.jsonc") sample_fs)).
Proof.
  assert (sample_fs !! py "a.b.jsonc"
          = delete (py "bad.jsonc") sample_fs !! py "a.b.jsonc") as H1
    by (vm_compute; reflexivity).
  split; [exact H1|].
  exact (proj1 (conversion_deterministic _ _ _ H1)).
Defined.

End FrameSamples.

(** ** Integers: [int(repr(n)) = n] *)

Lemma str_of_uint_digits u : Forall (λ c, is_digit c = true) (str_of_uint u).
Proof. induction u; simpl; constructor; done. Qed.

Lemma uint_of_str_of_uint u : uint_of_str (str_of_uint u) = u.
Proof. induction u; simpl; [done|..]; unfold digit_of; ords; simpl; by f_equal. Qed.

Lemma span_run p ds r :
  Forall (λ c, p c = true) ds →
  match r with [] => True | c :: _ => p c = false end →
  span p (ds ++ r) = (ds, r).
Proof.
  intros Hd Hr. induction Hd as [|c ds Hc _ IH]; simpl.
  - destruct r as [|c r']; simpl; [done|]. by rewrite Hr.
  - by rewrite Hc, IH.
Qed.

Lemma to_uint_no_leading_zero p u : Pos.to_uint p ≠ Decimal.D0 u.
Proof.
  intros E.
  assert (Decimal.unorm (Pos.to_uint p) = Pos.to_uint p) as Hn.
  { rewrite <- (DecimalPos.Unsigned.to_of (Pos.to_uint p)).
    by rewrite DecimalPos.Unsigned.of_to. }
  destruct (Decimal.nzhead (Pos.to_uint p)) eqn:Ez;
    [ apply DecimalFacts.unorm_0 in Ez; rewrite Hn in Ez;
      by apply (DecimalPos.Unsigned.to_uint_nonzero p) | .. ];
    (rewrite DecimalFacts.unorm_nzhead in Hn by (by rewrite Ez);
     rewrite E in Hn; by apply DecimalFacts.nzhead_nonzero in Hn).
Qed.

(** The digits of a positive number start with a digit from 1 to 9. *)
Lemma to_uint_head p :
  ∃ c ds, str_of_uint (Pos.to_uint p) = c :: ds
          ∧ ((ord "1" <=? c) && (c <=? ord "9"))%N = true
          ∧ Forall (λ c, is_digit c = true) ds.
Proof.
  pose proof (to_uint_no_leading_zero p) as Hz.
  pose proof (DecimalPos.Unsigned.to_uint_nonnil p) as Hn.
  destruct (Pos.to_uint p) as [|u|u|u|u|u|u|u|u|u|u]; [done|by destruct (Hz u)|..];
    eexists _, _; (split; [reflexivity|]); (split; [done|]);
    apply str_of_uint_digits.
Qed.

Lemma number_end_digit r :
  number_end r = true → match r with [] => True | c :: _ => is_digit c = false end.
Proof.
  destruct r as [|c r']; [done|]. simpl.
  intros Hc%negb_true_iff. by repeat apply orb_false_iff in Hc as [Hc _].
Qed.

Lemma match_frac_end r : number_end r = true → match_frac r = (None, r).
Proof.
  destruct r as [|c [|d r']]; simpl; try done.
  intros Hc%negb_true_iff. apply orb_false_iff in Hc as [Hc _].
  apply orb_false_iff in Hc as [Hc _]. apply orb_false_iff in Hc as [_ Hc].
  by rewrite Hc.
Qed.

Lemma match_exp_end r : number_end r = true → match_exp r = (None, r).
Proof.
  destruct r as [|c r']; simpl; [done|].
  intros Hc%negb_true_iff. apply orb_false_iff in Hc as [Hc HE].
  apply orb_false_iff in Hc as [_ He]. by rewrite He, HE.
Qed.

Lemma match_int_pos p r :
  number_end r = true →
  match_int (str_of_uint (Pos.to_uint p) ++ r)
  = Some (str_of_uint (Pos.to_uint p), r).
Proof.
  intros Hr. pose proof (number_end_digit _ Hr) as Hd.
  destruct (to_uint_head p) as (c & ds & -> & Hc & Hds).
  cbn [app match_int]. rewrite Hc. by rewrite (span_run _ _ _ Hds Hd).
Qed.

(** The scanner takes the digits of an integer as one lexeme. *)
Lemma match_number_int n r :
  number_end r = true →
  match_number (intstr n ++ r) = Some (intstr n, None, None, r).
Proof.
  intros Hr. unfold match_number, intstr.
  destruct n as [|p|p]; cbn [Z.to_int].
  - cbn [str_of_uint app match_int]. ords. simpl.
    by rewrite match_frac_end, match_exp_end.
  - destruct (to_uint_head p) as (c & ds & E & Hc & Hds).
    rewrite E. cbn [app].
    replace (c =? ord "-")%N with false
      by (symmetry; apply N.eqb_neq; ords;
          apply andb_true_iff in Hc as [?%N.leb_le ?%N.leb_le]; lia).
    change (c :: ds ++ r) with ((c :: ds) ++ r).
    rewrite <- E, match_int_pos by done.
    by rewrite match_frac_end, match_exp_end.
  - cbn [app]. rewrite N.eqb_refl, match_int_pos by done.
    by rewrite match_frac_end, match_exp_end.
Qed.

Lemma int_of_intstr n : int_of_str (intstr n) = n.
Proof.
  rewrite <- (DecimalZ.of_to n) at 2. unfold int_of_str, intstr.
  destruct (Z.to_int n) as [u|u] eqn:E.
  - destruct (str_of_uint u) as [|c t] eqn:Eu.
    + by destruct u.
    + replace (c =? ord "-")%N with false.
      * by rewrite <- Eu, uint_of_str_of_uint.
      * symmetry. apply N.eqb_neq. intros ->.
        pose proof (str_of_uint_digits u) as Hd. rewrite Eu in Hd.
        by apply Forall_cons_1 in Hd as [Hd _].
  - rewrite N.eqb_refl. by rewrite uint_of_str_of_uint.
Qed.

(** ** Exhaustive checks *)

Lemma all_bits_spec k b p :
  all_bits k b p = true →
  ∀ c, (b * 2 ^ N.of_nat k ≤ c < (b + 1) * 2 ^ N.of_nat k)%N → p c = true.
Proof.
  revert b. induction k as [|k IH]; intros b Hk c Hc.
  - simpl in *. replace c with b by lia. done.
  - cbn [all_bits] in Hk. apply andb_true_iff in Hk as [H1 H2].
    rewrite Nat2N.inj_succ, N.pow_succ_r' in Hc.
    set (t := (2 ^ N.of_nat k)%N) in *.
    destruct (N.lt_ge_cases c ((2 * b + 1) * t)).
    + apply (IH _ H1). fold t. nia.
    + apply (IH _ H2). fold t. nia.
Qed.

Lemma below_pow k p c :
  all_bits k 0 p = true → (c < 2 ^ N.of_nat k)%N → p c = true.
Proof. intros Hk Hc. apply (all_bits_spec _ _ _ Hk). lia. Qed.

Lemma u_escape_decodes c : (c < 0x10000)%N → u_escape_ok c = true.
Proof. apply (below_pow 16). vm_compute. reflexivity. Qed.

Lemma lor_shift_add a b k :
  (b < 2 ^ k)%N → N.lor (N.shiftl a k) b = (a * 2 ^ k + b)%N.
Proof.
  intros Hb. rewrite N.shiftl_mul_pow2.
  assert (N.land (a * 2 ^ k) b = 0%N) as Hland.
  { apply N.bits_inj_0. intros n. rewrite N.land_spec.
    destruct (N.lt_ge_cases n k) as [Hn|Hn].
    - by rewrite N.mul_pow2_bits_low.
    - destruct (N.eq_0_gt_0_cases b) as [->|Hpos].
      + by rewrite N.bits_0, andb_false_r.
      + rewrite (N.bits_above_log2 b n), andb_false_r; [done|].
        apply N.log2_lt_pow2 in Hb; [lia | done]. }
  by rewrite <- N.lxor_lor, <- N.add_nocarry_lxor.
Qed.

Lemma nibbles_bound a b c d :
  (a < 16)%N → (b < 16)%N → (c < 16)%N → (d < 16)%N →
  (N.lor (N.shiftl (N.lor (N.shiftl (N.lor (N.shiftl a 4) b) 4) c) 4) d
   < 0x10000)%N.
Proof.
  intros Ha Hb Hc Hd.
  rewrite !(lor_shift_add _ _ 4) by done. change (2 ^ 4)%N with 16%N. lia.
Qed.

Lemma join_bound a b :
  (a < 1024)%N → (b < 1024)%N →
  (0x10000 ≤ join_surrogates (0xd800 + a) (0xdc00 + b) < 0x110000)%N.
Proof.
  intros Ha Hb. unfold join_surrogates.
  replace (0xd800 + a - 0xd800)%N with a by lia.
  replace (0xdc00 + b - 0xdc00)%N with b by lia.
  rewrite (lor_shift_add _ _ 10) by done. change (2 ^ 10)%N with 1024%N. lia.
Qed.

(** ** Strings: the scanner reads back what the encoder escapes *)

Lemma piece_u_single begin h1 h2 h3 h4 X c :
  X ≠ [] →
  hex4 h1 h2 h3 h4 = Some c →
  (is_high_surrogate c = true → no_low_escape X = true) →
  scan_piece begin (ord "\" :: ord "u" :: h1 :: h2 :: h3 :: h4 :: X)
  = Char c X.
Proof.
  intros HX Hh Hc. destruct X as [|b X]; [done|].
  unfold scan_piece. ords.
  change (92 =? 34)%N with false. change (92 =? 92)%N with true.
  change (117 =? 117)%N with true. cbn iota. rewrite Hh.
  destruct X as [|e2 [|g1 [|g2 [|g3 [|g4 [|x X]]]]]]; try reflexivity.
  destruct (is_high_surrogate c); [|done]. specialize (Hc eq_refl).
  unfold no_low_escape in Hc. ords. cbn [andb].
  destruct ((b =? 92)%N && (e2 =? 117)%N); [|done].
  destruct (hex4 g1 g2 g3 g4) as [u2|]; [|done].
  by destruct (is_low_surrogate u2).
Qed.

Lemma piece_u_pair begin h1 h2 h3 h4 g1 g2 g3 g4 X hi lo :
  X ≠ [] →
  hex4 h1 h2 h3 h4 = Some hi → hex4 g1 g2 g3 g4 = Some lo →
  is_high_surrogate hi = true → is_low_surrogate lo = true →
  scan_piece begin
    (ord "\" :: ord "u" :: h1 :: h2 :: h3 :: h4
       :: ord "\" :: ord "u" :: g1 :: g2 :: g3 :: g4 :: X)
  = Char (join_surrogates hi lo) X.
Proof.
  intros HX Hh Hg Hhi Hlo. destruct X as [|x X]; [done|].
  unfold scan_piece. ords.
  change (92 =? 34)%N with false. change (92 =? 92)%N with true.
  change (117 =? 117)%N with true. cbn iota.
  by rewrite Hh, Hhi, Hg, Hlo.
Qed.

Lemma u_escape_shape c :
  (c < 0x10000)%N →
  ∃ h1 h2 h3 h4,
    u_escape c = [ord "\"; ord "u"; h1; h2; h3; h4]
    ∧ hex4 h1 h2 h3 h4 = Some c.
Proof.
  intros Hc. pose proof (u_escape_decodes c Hc) as Hok.
  unfold u_escape_ok, u_escape in *.
  eexists _, _, _, _. split; [reflexivity|].
  rewrite N.eqb_refl, N.eqb_refl in Hok. cbn [andb] in Hok.
  destruct (hex4 _ _ _ _) as [x|]; [|done]. by apply N.eqb_eq in Hok as ->.
Qed.

(** The two halves of a code point from [0x10000] on. *)
Lemma surrogate_halves c :
  (0x10000 ≤ c < 0x110000)%N →
  let n := (c - 0x10000)%N in
  let hi := N.lor 0xd800 (N.land (N.shiftr n 10) 0x3ff) in
  let lo := N.lor 0xdc00 (N.land n 0x3ff) in
  is_high_surrogate hi = true ∧ is_low_surrogate lo = true
  ∧ join_surrogates hi lo = c.
Proof.
  intros Hc n hi lo.
  assert (n < 0x100000)%N as Hn by (unfold n; lia).
  assert (N.land (N.shiftr n 10) 0x3ff = n / 1024)%N as Ex.
  { change 0x3ff%N with (N.ones 10). rewrite N.land_ones, N.shiftr_div_pow2.
    change (2 ^ 10)%N with 1024%N. apply N.mod_small.
    apply N.Div0.div_lt_upper_bound. lia. }
  assert (N.land n 0x3ff = n mod 1024)%N as Ey.
  { change 0x3ff%N with (N.ones 10). by rewrite N.land_ones. }
  assert (n / 1024 < 1024)%N as Hx by (apply N.Div0.div_lt_upper_bound; lia).
  assert (n mod 1024 < 1024)%N as Hy by (by apply N.mod_lt).
  assert (hi = 0xd800 + n / 1024)%N as Ehi.
  { unfold hi. rewrite Ex. change 0xd800%N with (N.shiftl 54 10).
    rewrite (lor_shift_add _ _ 10) by done. done. }
  assert (lo = 0xdc00 + n mod 1024)%N as Elo.
  { unfold lo. rewrite Ey. change 0xdc00%N with (N.shiftl 55 10).
    rewrite (lor_shift_add _ _ 10) by done. done. }
  rewrite Ehi, Elo. unfold is_high_surrogate, is_low_surrogate, join_surrogates.
  replace (0xd800 + n / 1024 - 0xd800)%N with (n / 1024)%N by lia.
  replace (0xdc00 + n mod 1024 - 0xdc00)%N with (n mod 1024)%N by lia.
  rewrite (lor_shift_add _ _ 10) by done. change (2 ^ 10)%N with 1024%N.
  split; [|split].
  - apply andb_true_iff. split; apply N.leb_le; lia.
  - apply andb_true_iff. split; apply N.leb_le; lia.
  - pose proof (N.div_mod n 1024 ltac:(done)). unfold n in *. lia.
Qed.

Lemma high_below u : is_high_surrogate u = true → (u < 0x10000)%N.
Proof. unfold is_high_surrogate. intros [_ ?%N.leb_le]%andb_true_iff. lia. Qed.

Lemma low_below u : is_low_surrogate u = true → (u < 0x10000)%N.
Proof. unfold is_low_surrogate. intros [_ ?%N.leb_le]%andb_true_iff. lia. Qed.

Lemma high_not_low u : is_high_surrogate u = true → is_low_surrogate u = false.
Proof.
  unfold is_high_surrogate, is_low_surrogate.
  intros [_ ?%N.leb_le]%andb_true_iff.
  apply andb_false_iff. left. apply N.leb_gt. lia.
Qed.

(** The shapes of [escape_char c]. *)
Inductive escape_shape (c : N) : str → Prop :=
| shape_short e :
    e ≠ ord "u" → backslash e = Some c →
    is_high_surrogate c = false → is_low_surrogate c = false →
    escape_shape c [ord "\"; e]
| shape_raw :
    c ≠ quote → c ≠ ord "\" → (31 < c)%N →
    is_high_surrogate c = false → is_low_surrogate c = false →
    escape_shape c [c]
| shape_u h1 h2 h3 h4 :
    hex4 h1 h2 h3 h4 = Some c →
    escape_shape c [ord "\"; ord "u"; h1; h2; h3; h4]
| shape_pair h1 h2 h3 h4 g1 g2 g3 g4 hi lo :
    hex4 h1 h2 h3 h4 = Some hi → hex4 g1 g2 g3 g4 = Some lo →
    is_high_surrogate hi = true → is_low_surrogate lo = true →
    join_surrogates hi lo = c →
    is_high_surrogate c = false →
    escape_shape c [ord "\"; ord "u"; h1; h2; h3; h4;
                    ord "\"; ord "u"; g1; g2; g3; g4].

Lemma escape_char_shape c :
  (c < 0x110000)%N → escape_shape c (escape_char c).
Proof.
  intros Hc. unfold escape_char. ords.
  destruct (N.eqb_spec c 92%N) as [->|]; [by apply (shape_short _ 92%N)|].
  destruct (N.eqb_spec c 34%N) as [->|]; [by apply (shape_short _ 34%N)|].
  destruct (N.eqb_spec c 8%N) as [->|]; [by apply (shape_short _ 98%N)|].
  destruct (N.eqb_spec c 12%N) as [->|]; [by apply (shape_short _ 102%N)|].
  destruct (N.eqb_spec c 10%N) as [->|]; [by apply (shape_short _ 110%N)|].
  destruct (N.eqb_spec c 13%N) as [->|]; [by apply (shape_short _ 114%N)|].
  destruct (N.eqb_spec c 9%N) as [->|]; [by apply (shape_short _ 116%N)|].
  destruct ((32 <=? c)%N && (c <=? 126)%N) eqn:Ep.
  - apply andb_true_iff in Ep as [?%N.leb_le ?%N.leb_le].
    apply shape_raw; try done; try lia.
    + unfold is_high_surrogate. apply andb_false_iff. left. apply N.leb_gt. lia.
    + unfold is_low_surrogate. apply andb_false_iff. left. apply N.leb_gt. lia.
  - destruct (N.ltb_spec c 0x10000%N) as [Hlt|Hge].
    + destruct (u_escape_shape c Hlt) as (h1 & h2 & h3 & h4 & -> & Hh).
      by apply shape_u.
    + destruct (surrogate_halves c (conj Hge Hc)) as (Hhi & Hlo & Hj).
      cbv zeta in Hhi, Hlo, Hj.
      destruct (u_escape_shape _ (high_below _ Hhi)) as (h1 & h2 & h3 & h4 & -> & Hh).
      destruct (u_escape_shape _ (low_below _ Hlo)) as (g1 & g2 & g3 & g4 & -> & Hg).
      eapply shape_pair; try done.
      unfold is_high_surrogate. apply andb_false_iff. right. apply N.leb_gt. lia.
Qed.

Lemma piece_escape begin c X :
  (c < 0x110000)%N → X ≠ [] →
  (is_high_surrogate c = true → no_low_escape X = true) →
  scan_piece begin (escape_char c ++ X) = Char c X.
Proof.
  intros Hc HX Hhigh.
  destruct (escape_char_shape c Hc)
    as [e He Hb _ _|Hq Hs Hl _ _|h1 h2 h3 h4 Hh
       |h1 h2 h3 h4 g1 g2 g3 g4 hi lo Hh Hg Hhi Hlo Hj _].
  - cbn [app]. unfold scan_piece. ords.
    change (92 =? 34)%N with false. change (92 =? 92)%N with true. cbn iota.
    replace (e =? 117)%N with false by (symmetry; by apply N.eqb_neq).
    by rewrite Hb.
  - cbn [app]. unfold scan_piece. ords.
    replace (c =? 34)%N with false by (symmetry; by apply N.eqb_neq).
    replace (c =? 92)%N with false by (symmetry; by apply N.eqb_neq).
    replace (c <=? 31)%N with false by (symmetry; apply N.leb_gt; lia).
    done.
  - cbn [app]. by apply piece_u_single.
  - cbn [app]. rewrite <- Hj. by apply piece_u_pair.
Qed.

Lemma escape_not_low c Y :
  (c < 0x110000)%N → is_low_surrogate c = false →
  no_low_escape (escape_char c ++ Y) = true.
Proof.
  intros Hc Hlow.
  destruct (escape_char_shape c Hc)
    as [e He Hb _ _|Hq Hs Hl _ _|h1 h2 h3 h4 Hh
       |h1 h2 h3 h4 g1 g2 g3 g4 hi lo Hh Hg Hhi Hlo Hj _];
    cbn [app]; unfold no_low_escape; ords.
  - destruct Y as [|? [|? [|? [|? [|? ?]]]]]; try done.
    rewrite N.eqb_refl. cbn [andb].
    by replace (e =? 117)%N with false by (symmetry; by apply N.eqb_neq).
  - destruct Y as [|? [|? [|? [|? [|? [|? ?]]]]]]; try done.
    by replace (c =? 92)%N with false by (symmetry; by apply N.eqb_neq).
  - destruct Y as [|? ?]; [done|]. simpl. by rewrite Hh, Hlow.
  - simpl. by rewrite Hh, (high_not_low _ Hhi).
Qed.

Lemma wf_str_cons c s :
  wf_str (c :: s) = true →
  (c < 0x110000)%N ∧ wf_str s = true
  ∧ (is_high_surrogate c = true →
     match s with d :: _ => is_low_surrogate d = false | [] => True end).
Proof.
  unfold wf_str. cbn [forallb no_pairs].
  intros [[Hc Hall]%andb_true_iff [Hp Hn]%andb_true_iff]%andb_true_iff.
  apply N.ltb_lt in Hc. split; [done|]. split; [by rewrite Hall, Hn|].
  intros Hh. destruct s as [|d s']; [done|].
  rewrite Hh in Hp. by destruct (is_low_surrogate d).
Qed.

Lemma quote_not_low r : no_low_escape (quote :: r) = true.
Proof. by destruct r as [|? [|? [|? [|? [|? [|? ?]]]]]]. Qed.

Lemma flat_map_cons_escape c s :
  flat_map escape_char (c :: s) = escape_char c ++ flat_map escape_char s.
Proof. done. Qed.

(** The scanner reads an encoded string back, closing quote included. *)
Lemma scanstring_encoded s : ∀ fuel begin acc r,
  wf_str s = true → length s < fuel →
  scanstring fuel begin (flat_map escape_char s ++ quote :: r) acc
  = Ok (rev acc ++ s, r).
Proof.
  induction s as [|c s IH]; intros fuel begin acc r Hwf Hf.
  - destruct fuel as [|fuel]; [simpl in Hf; lia|].
    cbn. by rewrite app_nil_r.
  - destruct fuel as [|fuel]; [simpl in Hf; lia|]. simpl in Hf.
    destruct (wf_str_cons _ _ Hwf) as (Hc & Hs & Hnext).
    rewrite flat_map_cons_escape, <- app_assoc. cbn [scanstring].
    rewrite piece_escape; [| done | by destruct (flat_map escape_char s) |].
    + rewrite IH by (done || lia). cbn [rev]. by rewrite <- app_assoc.
    + intros Hh. specialize (Hnext Hh).
      destruct s as [|d s']; [apply quote_not_low|].
      rewrite flat_map_cons_escape, <- app_assoc.
      apply wf_str_cons in Hs as (Hd & _ & _). by apply escape_not_low.
Qed.

(** ** Values: the decoder reads back what the encoder writes *)

Lemma skip_ws_indent n s : skip_ws (newline_indent n ++ s) = skip_ws s.
Proof.
  unfold skip_ws. apply span_prefix. unfold newline_indent.
  constructor; [done|]. by apply Forall_replicate.
Qed.

Lemma skip_ws_start c t : is_ws c = false → skip_ws (c :: t) = c :: t.
Proof. intros Hc. unfold skip_ws. simpl. by rewrite Hc. Qed.

Lemma value_start_facts c :
  value_start c = true →
  is_ws c = false ∧ c ≠ ord "]" ∧ c ≠ ord "}" ∧ c ≠ ord "," ∧ c ≠ 0xfeff%N.
Proof.
  unfold value_start, is_ws, is_digit. ords. intros Hc.
  repeat split; try (intros ->; done).
  repeat match goal with
  | |- context [(c =? ?k)%N] =>
      destruct (N.eqb_spec c k) as [->|]; [done|]
  end. done.
Qed.

Lemma intstr_start n :
  ∃ c t, intstr n = c :: t ∧ value_start c = true
         ∧ (is_digit c = true
            ∨ c = ord "-" ∧ ∃ d t', t = d :: t' ∧ is_digit d = true).
Proof.
  assert (∀ p, ∃ d t', str_of_uint (Pos.to_uint p) = d :: t'
                       ∧ is_digit d = true) as Hp.
  { intros p. destruct (to_uint_head p) as (d & ds & E & Hd & _).
    exists d, ds. split; [done|]. unfold is_digit. ords.
    apply andb_true_iff in Hd as [?%N.leb_le ?%N.leb_le].
    apply andb_true_iff. split; apply N.leb_le; lia. }
  unfold intstr. destruct n as [|p|p]; cbn [Z.to_int].
  - eexists _, _. split; [reflexivity|]. split; [done|]. by left.
  - destruct (Hp p) as (d & t' & -> & Hd). eexists _, _.
    split; [reflexivity|]. split; [|by left].
    unfold value_start. rewrite Hd. by rewrite !orb_true_r.
  - destruct (Hp p) as (d & t' & E & Hd). eexists _, _.
    split; [reflexivity|]. split; [done|]. right. eauto.
Qed.

Section RoundTrip.
Context `{PyFloat} `{PyLimits}.

(** A value that does not start with a brace or a bracket is read in the
    same way at every depth. *)
Lemma scan_once_any depth depth' c t :
  (c =? ord "{")%N = false → (c =? ord "[")%N = false →
  scan_once depth (c :: t) = scan_once depth' (c :: t).
Proof.
  intros H1 H2. destruct depth, depth'; cbn [scan_once]; by rewrite H1, H2.
Qed.

Lemma value_start_scalar c :
  is_digit c = true ∨ c = ord "-" →
  (c =? ord "{")%N = false ∧ (c =? ord "[")%N = false.
Proof.
  unfold is_digit. ords. intros [Hc| ->]; [|done].
  apply andb_true_iff in Hc as [?%N.leb_le ?%N.leb_le].
  split; apply N.eqb_neq; lia.
Qed.

Lemma scan_once_number depth c t :
  is_digit c = true
  ∨ c = ord "-" ∧ (∃ d t', t = d :: t' ∧ is_digit d = true) →
  scan_once depth (c :: t) = parse_number (c :: t).
Proof.
  intros Hc.
  assert ((c =? ord "{")%N = false ∧ (c =? ord "[")%N = false) as [H1 H2]
    by (apply value_start_scalar; destruct Hc as [?|[? _]]; eauto).
  rewrite (scan_once_any depth 0 c t H1 H2).
  cbn [scan_once]. pys. cbn [starts_with]. ords.
  destruct Hc as [Hc|[-> (d & t' & -> & Hd)]].
  - unfold is_digit in Hc. ords.
    apply andb_true_iff in Hc as [?%N.leb_le ?%N.leb_le].
    repeat match goal with
    | |- context [(c =? ?k)%N] =>
        destruct (N.eqb_spec c k) as [?|?]; [lia|]
    end. done.
  - unfold is_digit in Hd. ords.
    apply andb_true_iff in Hd as [?%N.leb_le ?%N.leb_le].
    cbn. destruct (N.eqb_spec d 73%N); [lia|]. done.
Qed.

Lemma delimited_number_end r : delimited r = true → number_end r = true.
Proof.
  destruct r as [|c r']; [done|]. unfold delimited, number_end, is_ws, is_digit.
  ords. intros Hc.
  repeat match goal with
  | H : context [(c =? ?k)%N] |- _ =>
      destruct (N.eqb_spec c k) as [->|]; [done|]
  end. done.
Qed.

Lemma scan_int depth n r :
  exceeds_digit_limit (intstr n) = false →
  delimited r = true → scan_once depth (intstr n ++ r) = Ok (JInt n, r).
Proof.
  intros Hlim Hr. destruct (intstr_start n) as (c & t & E & _ & Hc).
  pose proof (match_number_int n r (delimited_number_end _ Hr)) as Hm.
  rewrite E in Hm |- *. cbn [app] in *.
  rewrite scan_once_number.
  - unfold parse_number. rewrite Hm. unfold py_int.
    by rewrite <- E, Hlim, int_of_intstr.
  - destruct Hc as [Hc|[-> (d & t' & -> & Hd)]]; [by left|].
    right. split; [done|]. by exists d, (t' ++ r).
Qed.

Lemma scan_null depth r : scan_once depth (py "null" ++ r) = Ok (JNull, r).
Proof. by destruct depth. Qed.

Lemma scan_true depth r :
  scan_once depth (py "true" ++ r) = Ok (JBool true, r).
Proof. by destruct depth. Qed.

Lemma scan_false depth r :
  scan_once depth (py "false" ++ r) = Ok (JBool false, r).
Proof. by destruct depth. Qed.

Lemma scan_str depth s r :
  wf_str s = true →
  scan_once depth (encode_basestring_ascii s ++ r) = Ok (JStr s, r).
Proof.
  intros Hs. unfold encode_basestring_ascii. cbn [app].
  rewrite (scan_once_any depth 0) by (by vm_compute). cbn [scan_once].
  rewrite N.eqb_refl. rewrite <- app_assoc. cbn [app].
  rewrite scanstring_encoded; [done | done |].
  rewrite length_app. simpl. 
  assert (length s ≤ length (flat_map escape_char s)); [|lia].
  clear Hs. induction s as [|c s IH]; [done|].
  rewrite flat_map_cons_escape, length_app. simpl.
  assert (0 < length (escape_char c)); [|lia].
  unfold escape_char, u_escape.
  repeat (destruct (_ =? _)%N; [simpl; lia|]).
  destruct (_ && _); [simpl; lia|]. destruct (_ <? _)%N; simpl; lia.
Qed.

End RoundTrip.

Section Values.
Context `{PyFloat} `{PyLimits}.

(** Induction over values, with the elements of lists and dicts. *)
Lemma json_induction (P : json → Prop) :
  P JNull → (∀ b, P (JBool b)) → (∀ n, P (JInt n)) → (∀ x, P (JFloat x)) →
  (∀ s, P (JStr s)) →
  (∀ l, Forall P l → P (JList l)) →
  (∀ d, Forall (λ kv, P kv.2) d → P (JDict d)) →
  ∀ o, P o.
Proof.
  intros HN HB HI HF HS HL HD.
  fix IH 1. intros [|b|n|x|s|l|d].
  - exact HN.
  - exact (HB b).
  - exact (HI n).
  - exact (HF x).
  - exact (HS s).
  - apply HL. revert l. fix IHl 1. intros [|v l].
    + constructor.
    + constructor; [exact (IH v) | exact (IHl l)].
  - apply HD. revert d. fix IHd 1. intros [|[k v] d].
    + constructor.
    + constructor; [exact (IH v) | exact (IHd d)].
Qed.

Lemma wf_list l : wf_json (JList l) ↔ Forall wf_json l.
Proof.
  cbn [wf_json]. induction l as [|v l IH].
  - split; [by constructor | done].
  - rewrite Forall_cons. by rewrite IH.
Qed.

Lemma wf_dict d :
  wf_json (JDict d)
  ↔ NoDup (map fst d) ∧ Forall (λ kv, wf_str kv.1 = true ∧ wf_json kv.2) d.
Proof.
  cbn [wf_json]. apply and_iff_compat_l. induction d as [|[k v] d IH].
  - split; [by constructor | done].
  - rewrite Forall_cons. cbn [fst snd]. rewrite IH. tauto.
Qed.

Lemma escape_length s : length s ≤ length (flat_map escape_char s).
Proof.
  induction s as [|c s IH]; [done|].
  rewrite flat_map_cons_escape, length_app. simpl.
  assert (0 < length (escape_char c)); [|lia].
  unfold escape_char, u_escape.
  repeat (destruct (_ =? _)%N; [simpl; lia|]).
  destruct (_ && _); [simpl; lia|]. destruct (_ <? _)%N; simpl; lia.
Qed.

(** A value the decoder accepts starts with one of the value characters. *)
Lemma scan_once_start depth c t y :
  scan_once depth (c :: t) = Ok y → value_start c = true.
Proof.
  intros Hok. destruct (value_start c) eqn:E; [done|exfalso].
  unfold value_start in E. ords.
  repeat (apply orb_false_iff in E as [E ?]).
  rewrite (scan_once_any depth 0) in Hok by (by ords).
  cbn [scan_once] in Hok. pys. cbn [starts_with] in Hok.
  unfold parse_number, match_number, match_int in Hok. ords.
  repeat match goal with
  | Hc : (c =? ?k)%N = false |- _ => rewrite Hc in Hok; clear Hc
  end.
  unfold is_digit in *. ords.
  destruct (N.leb_spec 49 c), (N.leb_spec c 57), (N.leb_spec 48 c),
    (N.eqb_spec c 48%N); simpl in *; try done; lia.
Qed.

End Values.

Section Encoded.
Context `{PyFloat} `{PyLimits}.
Hypothesis Hfloat : float_law.

Lemma encode_head lvl v :
  ∃ c t, encode lvl v = c :: t ∧ value_start c = true.
Proof.
  destruct v as [|[|]|n|x|s|[|v l]|[|[k v] d]];
    try (eexists _, _; split; [reflexivity | done]).
  - destruct (intstr_start n) as (c & t & E & Hc & _). by exists c, t.
  - cbn [encode]. pose proof (Hfloat x [] 0 eq_refl) as Hx.
    rewrite app_nil_r in Hx. destruct (floatstr x) as [|c t]; [done|].
    exists c, t. split; [done|]. by eapply scan_once_start.
Qed.

Lemma skip_ws_encode lvl v r :
  skip_ws (encode lvl v ++ r) = encode lvl v ++ r.
Proof.
  destruct (encode_head lvl v) as (c & t & -> & Hc).
  apply skip_ws_start. by apply value_start_facts.
Qed.

Lemma str_eqb_eq a b : str_eqb a b = true ↔ a = b.
Proof.
  revert b. induction a as [|c a IH]; intros [|d b]; simpl; try done.
  rewrite andb_true_iff, IH, N.eqb_eq. split; [by intros [-> ->] | by intros [= -> ->]].
Qed.

Lemma dict_set_fresh k v (d : list (str * json)) :
  k ∉ map fst d → dict_set k v d = d ++ [(k, v)].
Proof.
  induction d as [|[k' v'] d IH]; [done|]. cbn [map fst dict_set app].
  intros [Hk Hd]%not_elem_of_cons.
  destruct (str_eqb k k') eqn:E; [by apply str_eqb_eq in E|].
  by rewrite IH.
Qed.

Lemma array_items_encoded scan lvl : ∀ l v acc n r,
  Forall (λ v, ∀ r, delimited r = true →
                    scan (encode (S lvl) v ++ r) = Ok (v, r)) (v :: l) →
  length l < n →
  array_items scan n
    (encode (S lvl) v
       ++ flat_map (λ v', ord "," :: newline_indent (S lvl)
                            ++ encode (S lvl) v') l
       ++ newline_indent lvl ++ ord "]" :: r) acc
  = Ok (JList (rev acc ++ v :: l), r).
Proof.
  induction l as [|v' l IH]; intros v acc n r Hall Hn;
    (destruct n as [|n]; [simpl in Hn; lia|]);
    apply Forall_cons in Hall as [Hv Hall]; cbn [array_items flat_map app].
  - rewrite Hv by done. cbn [bind].
    rewrite skip_ws_indent, skip_ws_start by done. ords.
    cbn [N.eqb Pos.eqb rev]. done.
  - rewrite <- app_assoc. cbn [app]. rewrite Hv by done. cbn [bind].
    rewrite skip_ws_start by done. ords.
    change (44 =? 93)%N with false. change (44 =? 44)%N with true. cbn iota.
    rewrite <- app_assoc, skip_ws_indent, skip_ws_encode.
    simpl in Hn. rewrite IH by (done || lia).
    cbn [rev]. by rewrite <- app_assoc.
Qed.

End Encoded.

Section EncodedObjects.
Context `{PyFloat} `{PyLimits}.
Hypothesis Hfloat : float_law.

Lemma skip_ws_space s : skip_ws (ord " " :: s) = skip_ws s.
Proof. apply (span_prefix is_ws [ord " "] s). by constructor. Qed.

Lemma scan_key n k r :
  wf_str k = true → length (flat_map escape_char k ++ quote :: r) < n →
  scanstring n (encode_basestring_ascii k ++ r)
    (flat_map escape_char k ++ quote :: r) []
  = Ok (k, r).
Proof.
  intros Hk Hn. rewrite scanstring_encoded; [done | done |].
  rewrite length_app in Hn. pose proof (escape_length k). lia.
Qed.

Lemma key_text k r :
  encode_basestring_ascii k ++ r
  = quote :: flat_map escape_char k ++ quote :: r.
Proof.
  unfold encode_basestring_ascii. cbn [app]. by rewrite <- app_assoc.
Qed.

Lemma nodup_middle (acc : list (str * json)) k v d :
  NoDup (map fst (acc ++ (k, v) :: d)) →
  (k ∉ map fst acc) ∧ NoDup (map fst ((acc ++ [(k, v)]) ++ d)).
Proof.
  intros Hn. split.
  - rewrite map_app in Hn. apply NoDup_app in Hn as (_ & Hn & _).
    intros Hk. apply (Hn _ Hk). cbn. left.
  - by rewrite <- app_assoc.
Qed.

Lemma object_items_encoded scan lvl : ∀ d k v acc n r,
  Forall (λ kv, wf_str kv.1 = true
                ∧ ∀ r, delimited r = true →
                       scan (encode (S lvl) kv.2 ++ r) = Ok (kv.2, r))
         ((k, v) :: d) →
  NoDup (map fst (acc ++ (k, v) :: d)) →
  length d < n →
  object_items scan n
    (encode_basestring_ascii k ++ py ": " ++ encode (S lvl) v
       ++ flat_map (λ kv, ord "," :: newline_indent (S lvl)
                            ++ encode_basestring_ascii kv.1 ++ py ": "
                            ++ encode (S lvl) kv.2) d
       ++ newline_indent lvl ++ ord "}" :: r) acc
  = Ok (JDict (acc ++ (k, v) :: d), r).
Proof.
  induction d as [|[k' v'] d IH]; intros k v acc n r Hall Hnd Hn;
    (destruct n as [|n]; [simpl in Hn; lia|]);
    apply Forall_cons in Hall as [[Hk Hv] Hall]; cbn [fst snd] in Hk, Hv;
    destruct (nodup_middle _ _ _ _ Hnd) as [Hfresh Hnd'];
    rewrite key_text; cbn [object_items]; rewrite N.eqb_refl;
    rewrite <- key_text, scan_key by (done || lia); cbn [bind];
    pys; cbn [app flat_map]; rewrite skip_ws_start by done; ords;
    change (58 =? 58)%N with true; cbn iota;
    change 32%N with (ord " "); rewrite skip_ws_space, skip_ws_encode by done.
  - rewrite Hv by done. cbn [bind].
    rewrite skip_ws_indent, skip_ws_start by done. ords.
    change (125 =? 125)%N with true. cbn iota.
    by rewrite dict_set_fresh.
  - rewrite <- app_assoc. cbn [app]. rewrite Hv by done. cbn [bind].
    rewrite skip_ws_start by done. ords.
    change (44 =? 125)%N with false. change (44 =? 44)%N with true. cbn iota.
    rewrite dict_set_fresh by done.
    rewrite <- !app_assoc. cbn [app fst snd].
    rewrite skip_ws_indent, key_text, skip_ws_start by done.
    rewrite <- key_text. simpl in Hn.
    assert (length d < n) as Hn' by lia.
    etrans; [exact (IH k' v' (acc ++ [(k, v)]) n r Hall Hnd' Hn')|].
    by rewrite <- app_assoc.
Qed.

End EncodedObjects.

Section Decoded.
Context `{PyFloat} `{PyLimits}.
Hypothesis Hfloat : float_law.

Lemma scan_once_list depth t :
  scan_once (S depth) (ord "[" :: t) = parse_array (scan_once depth) t.
Proof. reflexivity. Qed.

Lemma scan_once_dict depth t :
  scan_once (S depth) (ord "{" :: t) = parse_object (scan_once depth) t.
Proof. reflexivity. Qed.

Lemma flat_map_elem_length {A} (f : A → str) x l :
  x ∈ l → length (f x) ≤ length (flat_map f l).
Proof.
  induction 1 as [x l|x y l _ IH]; cbn [flat_map]; rewrite length_app; lia.
Qed.

Lemma flat_map_count {A} (f : A → str) l :
  (∀ x, 0 < length (f x)) → length l ≤ length (flat_map f l).
Proof.
  intros Hf. induction l as [|x l IH]; [done|].
  cbn [flat_map]. rewrite length_app. specialize (Hf x). simpl. lia.
Qed.

(** What the two loops build. *)
Lemma array_items_list scan n : ∀ s acc v r,
  array_items scan n s acc = Ok (v, r) → ∃ l, v = JList l.
Proof.
  induction n as [|n IH]; intros s acc v r; [done|]. cbn [array_items].
  destruct (scan s) as [[v0 r0]| | |]; [|done..]. cbn [bind].
  destruct (skip_ws r0) as [|c r2]; [done|].
  destruct (c =? ord "]")%N; [intros [= <- <-]; eauto|].
  destruct (c =? ord ",")%N; [apply IH | done].
Qed.

Lemma object_items_dict scan n : ∀ s d v r,
  object_items scan n s d = Ok (v, r) → ∃ d', v = JDict d'.
Proof.
  induction n as [|n IH]; intros s d v r; [done|]. cbn [object_items].
  destruct s as [|q t]; [done|]. destruct (q =? quote)%N; [|done].
  destruct (scanstring _ _ t []) as [[key r0]| | |]; [|done..]. cbn [bind].
  destruct (skip_ws r0) as [|c r2]; [done|].
  destruct (c =? ord ":")%N; [|done].
  destruct (scan (skip_ws r2)) as [[v0 r3]| | |]; [|done..]. cbn [bind].
  destruct (skip_ws r3) as [|c' r5]; [done|].
  destruct (c' =? ord "}")%N; [intros [= <- <-]; eauto|].
  destruct (c' =? ord ",")%N; [apply IH | done].
Qed.

(** The text of a float is read as that float at every depth. *)
Lemma scan_float depth x r :
  delimited r = true → scan_once depth (floatstr x ++ r) = Ok (JFloat x, r).
Proof.
  intros Hr. pose proof (Hfloat x r 0 Hr) as H1.
  destruct (floatstr x ++ r) as [|c t]; [done|].
  destruct (c =? ord "{")%N eqn:E1.
  { exfalso. apply N.eqb_eq in E1 as ->. cbn [scan_once] in H1.
    change (ord "{" =? quote)%N with false in H1.
    rewrite N.eqb_refl in H1. cbn iota in H1. unfold parse_object in H1.
    destruct (skip_ws t) as [|c' r'].
    - by apply object_items_dict in H1 as [? ?].
    - destruct (c' =? ord "}")%N; [done|].
      by apply object_items_dict in H1 as [? ?]. }
  destruct (c =? ord "[")%N eqn:E2.
  { exfalso. apply N.eqb_eq in E2 as ->. cbn [scan_once] in H1.
    change (ord "[" =? quote)%N with false in H1.
    change (ord "[" =? ord "{")%N with false in H1.
    rewrite N.eqb_refl in H1. cbn iota in H1. unfold parse_array in H1.
    destruct (skip_ws t) as [|c' r'].
    - by apply array_items_list in H1 as [? ?].
    - destruct (c' =? ord "]")%N; [done|].
      by apply array_items_list in H1 as [? ?]. }
  by rewrite (scan_once_any depth 1 c t E1 E2).
Qed.

Lemma fits_list l depth :
  fits (JList l) (S depth) ↔ Forall (λ v, fits v depth) l.
Proof.
  cbn [fits]. induction l as [|v l IH]; [by split; [constructor|]|].
  rewrite Forall_cons, <- IH. done.
Qed.

Lemma fits_dict d depth :
  fits (JDict d) (S depth) ↔ Forall (λ kv, fits kv.2 depth) d.
Proof.
  cbn [fits]. induction d as [|[k v] d IH]; [by split; [constructor|]|].
  rewrite Forall_cons, <- IH. done.
Qed.

(** The decoder reads the text of a well-formed value back as that value,
    whatever follows it, when the value is within the limits. *)
Lemma scan_encoded v :
  wf_json v → ∀ lvl depth r,
  fits v depth → delimited r = true →
  scan_once depth (encode lvl v ++ r) = Ok (v, r).
Proof.
  induction v as [|b|n|x|s|l IH|d IH] using json_induction;
    intros Hwf lvl depth r Hfit Hr.
  - apply scan_null.
  - destruct b; [apply scan_true | apply scan_false].
  - by apply scan_int.
  - by apply scan_float.
  - by apply scan_str.
  - destruct depth as [|f]; [done|]. apply fits_list in Hfit.
    destruct l as [|v l]; [reflexivity|].
    apply wf_list in Hwf. cbn [encode].
    cbn [app]. rewrite <- !app_assoc. cbn [app]. rewrite scan_once_list.
    unfold parse_array. rewrite skip_ws_indent, skip_ws_encode by done.
    assert (Forall (λ v, ∀ r, delimited r = true →
              scan_once f (encode (S lvl) v ++ r) = Ok (v, r)) (v :: l)) as Hall.
    { apply Forall_forall. intros x Hx r' Hr'.
      rewrite Forall_forall in IH, Hwf, Hfit.
      apply IH; [done | by apply Hwf | by apply Hfit | done]. }
    assert (length l
            < S (length (encode (S lvl) v
                 ++ flat_map (λ v', ord "," :: newline_indent (S lvl)
                                      ++ encode (S lvl) v') l
                 ++ newline_indent lvl ++ ord "]" :: r))) as Hn.
    { rewrite !length_app.
      pose proof (flat_map_count
        (λ v', ord "," :: newline_indent (S lvl) ++ encode (S lvl) v') l
        ltac:(intros; simpl; lia)). lia. }
    pose proof (array_items_encoded Hfloat _ lvl l v [] _ r Hall Hn) as Hitems.
    destruct (encode_head Hfloat (S lvl) v) as (c & t & E & Hc).
    rewrite E in Hitems |- *. cbn [app] in Hitems |- *.
    destruct (value_start_facts _ Hc) as (_ & Hne & _).
    replace (c =? ord "]")%N with false by (symmetry; by apply N.eqb_neq).
    exact Hitems.
  - destruct depth as [|f]; [done|]. apply fits_dict in Hfit.
    destruct d as [|[k v] d]; [reflexivity|].
    apply wf_dict in Hwf as [Hnd Hwf]. cbn [encode].
    cbn [app]. rewrite <- !app_assoc. cbn [app]. rewrite scan_once_dict.
    unfold parse_object. rewrite skip_ws_indent, key_text, skip_ws_start by done.
    assert (Forall (λ kv, wf_str kv.1 = true
              ∧ ∀ r, delimited r = true →
                     scan_once f (encode (S lvl) kv.2 ++ r) = Ok (kv.2, r))
              ((k, v) :: d)) as Hall.
    { apply Forall_forall. intros kv Hx.
      rewrite Forall_forall in IH, Hwf, Hfit. destruct (Hwf _ Hx) as [Hk Hv].
      split; [done|]. intros r' Hr'.
      apply IH; [done | done | by apply Hfit | done]. }
    rewrite <- key_text.
    set (text := encode_basestring_ascii k ++ py ": " ++ encode (S lvl) v
           ++ flat_map (λ kv, ord "," :: newline_indent (S lvl)
                            ++ encode_basestring_ascii kv.1 ++ py ": "
                            ++ encode (S lvl) kv.2) d
           ++ newline_indent lvl ++ ord "}" :: r).
    assert (length d < S (length text)) as Hn.
    { unfold text. rewrite !length_app.
      pose proof (flat_map_count
        (λ kv, ord "," :: newline_indent (S lvl) ++ encode_basestring_ascii kv.1
                 ++ py ": " ++ encode (S lvl) kv.2) d
        ltac:(intros; simpl; lia)). lia. }
    pose proof (object_items_encoded Hfloat _ lvl d k v [] _ r Hall Hnd Hn)
      as Hitems. fold text in Hitems.
    assert (∃ t, text = quote :: t) as [t Et] by (unfold text; rewrite key_text; eauto).
    rewrite Et in Hitems |- *. exact Hitems.
Qed.

(** [json.loads(json.dumps(o, indent=4))] gives [o] back, when [o] is
    within the limits. *)
Lemma loads_dumps v :
  wf_json v → fits v recursion_depth → json_loads (json_dumps v) = Ok v.
Proof.
  intros Hwf Hfit. unfold json_loads, json_dumps.
  pose proof (scan_encoded v Hwf 0 recursion_depth [] Hfit eq_refl) as Hs.
  rewrite app_nil_r in Hs.
  pose proof (skip_ws_encode Hfloat 0 v []) as Hw. rewrite app_nil_r in Hw.
  destruct (encode_head Hfloat 0 v) as (c & t & E & Hc).
  destruct (value_start_facts _ Hc) as (_ & _ & _ & _ & Hbom).
  rewrite Hw, Hs. rewrite E. cbn [starts_with].
  by replace (c =? 65279)%N with false by (symmetry; by apply N.eqb_neq).
Qed.

End Decoded.

(** ** What the decoder builds is well formed *)

Lemma scalar_facts c :
  scalar c = true →
  (c < 0x110000)%N ∧ is_high_surrogate c = false ∧ is_low_surrogate c = false.
Proof.
  unfold scalar, is_high_surrogate, is_low_surrogate.
  intros [Hc Hs]%andb_true_iff. apply N.ltb_lt in Hc.
  apply negb_true_iff, andb_false_iff in Hs.
  split; [done|]. split; apply andb_false_iff.
  - destruct Hs as [?%N.leb_gt|?%N.leb_gt]; [left|right]; apply N.leb_gt; lia.
  - destruct Hs as [?%N.leb_gt|?%N.leb_gt]; [left|right]; apply N.leb_gt; lia.
Qed.

Lemma backslash_facts e ch :
  backslash e = Some ch →
  (ch < 0x110000)%N ∧ is_high_surrogate ch = false
  ∧ is_low_surrogate ch = false.
Proof.
  unfold backslash. ords.
  repeat (destruct (e =? _)%N; [by intros [= <-]|]). done.
Qed.

Lemma hex_digit_bound c d : hex_digit c = Some d → (d < 16)%N.
Proof.
  unfold hex_digit. ords.
  destruct (N.leb_spec 48 c), (N.leb_spec c 57); cbn [andb];
    try (intros [= <-]; lia);
  destruct (N.leb_spec 97 c), (N.leb_spec c 102); cbn [andb];
    try (intros [= <-]; lia);
  destruct (N.leb_spec 65 c), (N.leb_spec c 70); cbn [andb];
    try (intros [= <-]; lia); done.
Qed.

Lemma hex4_bound h1 h2 h3 h4 u :
  hex4 h1 h2 h3 h4 = Some u → (u < 0x10000)%N.
Proof.
  unfold hex4.
  destruct (hex_digit h1) as [a|] eqn:Ea; [|done].
  destruct (hex_digit h2) as [b|] eqn:Eb; [|done].
  destruct (hex_digit h3) as [c|] eqn:Ec; [|done].
  destruct (hex_digit h4) as [d|] eqn:Ed; [|done].
  intros [= <-]. apply nibbles_bound; by eapply hex_digit_bound.
Qed.

Lemma join_facts u u2 :
  is_high_surrogate u = true → is_low_surrogate u2 = true →
  (join_surrogates u u2 < 0x110000)%N
  ∧ is_high_surrogate (join_surrogates u u2) = false
  ∧ is_low_surrogate (join_surrogates u u2) = false.
Proof.
  unfold is_high_surrogate, is_low_surrogate at 1.
  intros [?%N.leb_le ?%N.leb_le]%andb_true_iff
         [?%N.leb_le ?%N.leb_le]%andb_true_iff.
  pose proof (join_bound (u - 0xd800) (u2 - 0xdc00) ltac:(lia) ltac:(lia))
    as Hj.
  replace (0xd800 + (u - 0xd800))%N with u in Hj by lia.
  replace (0xdc00 + (u2 - 0xdc00))%N with u2 in Hj by lia.
  split; [lia|]. unfold is_high_surrogate, is_low_surrogate.
  split; apply andb_false_iff; right; apply N.leb_gt; lia.
Qed.

(** One turn of the string loop: what it decodes and where it goes on. *)
Lemma scan_piece_char begin s c r :
  Forall (λ c, scalar c = true) s →
  scan_piece begin s = Char c r →
  (∃ p, s = p ++ r ∧ p ≠ [])
  ∧ (c < 0x110000)%N
  ∧ (is_low_surrogate c = true → no_low_escape s = false)
  ∧ (is_high_surrogate c = true → no_low_escape r = true).
Proof.
  intros Hs. unfold scan_piece.
  destruct s as [|c0 t]; [done|].
  apply Forall_cons in Hs as [Hc0 Ht].
  destruct (scalar_facts _ Hc0) as (Hb0 & Hh0 & Hl0).
  destruct (c0 =? quote)%N; [done|].
  destruct (N.eqb_spec c0 (ord "\")) as [->|Hnb].
  - destruct t as [|e t']; [done|].
    destruct (N.eqb_spec e (ord "u")) as [->|Hnu].
    + destruct t' as [|h1 [|h2 [|h3 [|h4 [|x r0]]]]]; try done.
      destruct (hex4 h1 h2 h3 h4) as [u|] eqn:Eu; [|done].
      pose proof (hex4_bound _ _ _ _ _ Eu) as Hu.
      assert (∀ c' r', Char u (x :: r0) = Char c' r' →
        (∃ p, ord "\" :: ord "u" :: h1 :: h2 :: h3 :: h4 :: x :: r0 = p ++ r'
              ∧ p ≠ [])
        ∧ (c' < 0x110000)%N
        ∧ (is_low_surrogate c' = true →
           no_low_escape (ord "\" :: ord "u" :: h1 :: h2 :: h3 :: h4 :: x :: r0)
           = false)) as Hsingle.
      { intros c' r' [= <- <-]. split; [|split].
        - by exists [ord "\"; ord "u"; h1; h2; h3; h4].
        - lia.
        - intros Hlow. unfold no_low_escape. rewrite !N.eqb_refl. cbn [andb].
          by rewrite Eu, Hlow. }
      destruct r0 as [|e2 [|g1 [|g2 [|g3 [|g4 [|y r2]]]]]];
        try (intros Hc; destruct (Hsingle _ _ Hc) as (? & ? & ?);
             injection Hc as <- <-; done).
      destruct (is_high_surrogate u) eqn:Ehigh; cbn [andb].
      * destruct ((x =? ord "\")%N && (e2 =? ord "u")%N) eqn:Ebu.
        -- destruct (hex4 g1 g2 g3 g4) as [u2|] eqn:Eu2; [|done].
           destruct (is_low_surrogate u2) eqn:Elow.
           ++ intros [= <- <-].
              destruct (join_facts _ _ Ehigh Elow) as (Hj & Hjh & Hjl).
              split; [|split; [done|split; congruence]].
              by exists [ord "\"; ord "u"; h1; h2; h3; h4;
                         x; e2; g1; g2; g3; g4].
           ++ intros Hc. destruct (Hsingle _ _ Hc) as (? & ? & ?).
              injection Hc as <- <-. repeat split; try done.
              intros _. unfold no_low_escape. by rewrite Ebu, Eu2, Elow.
        -- intros Hc. destruct (Hsingle _ _ Hc) as (? & ? & ?).
           injection Hc as <- <-. repeat split; try done.
           intros _. unfold no_low_escape. by rewrite Ebu.
      * intros Hc. destruct (Hsingle _ _ Hc) as (? & ? & ?).
        injection Hc as <- <-. repeat split; try done. congruence.
    + destruct (backslash e) as [ch|] eqn:Ech; [|done].
      intros [= <- <-]. destruct (backslash_facts _ _ Ech) as (? & ? & ?).
      split; [by exists [ord "\"; e]|]. repeat split; try done; congruence.
  - destruct (c0 <=? 31)%N; [done|]. intros [= <- <-].
    split; [by exists [c0]|]. repeat split; try done; congruence.
Qed.

Lemma scan_piece_closing begin s r :
  scan_piece begin s = Closing r → s = quote :: r.
Proof.
  unfold scan_piece. destruct s as [|c t]; [done|].
  destruct (N.eqb_spec c quote) as [->|]; [by intros [= ->]|].
  destruct (c =? ord "\")%N.
  - destruct t as [|e t']; [done|]. destruct (e =? ord "u")%N.
    + destruct t' as [|h1 [|h2 [|h3 [|h4 [|x r0]]]]]; try done.
      destruct (hex4 h1 h2 h3 h4); [|done].
      destruct r0 as [|e2 [|g1 [|g2 [|g3 [|g4 [|y r2]]]]]]; try done.
      destruct (_ && _); [|done]. destruct (hex4 g1 g2 g3 g4); [|done].
      by destruct (is_low_surrogate _).
    + by destruct (backslash e).
  - by destruct (c <=? 31)%N.
Qed.

Lemma no_pairs_snoc l c :
  no_pairs l = true →
  (∀ h, last l = Some h → is_high_surrogate h && is_low_surrogate c = false) →
  no_pairs (l ++ [c]) = true.
Proof.
  induction l as [|a l IH]; [done|]. cbn [app no_pairs].
  intros [Ha Hl]%andb_true_iff Hlast. apply andb_true_iff. split.
  - destruct l as [|b l']; cbn [app]; [|done].
    rewrite (Hlast a); done.
  - apply IH; [done|]. intros h Hh. apply Hlast.
    destruct l; [done|]. done.
Qed.

Lemma wf_str_snoc l c :
  wf_str l = true → (c < 0x110000)%N →
  (∀ h, last l = Some h → is_high_surrogate h && is_low_surrogate c = false) →
  wf_str (l ++ [c]) = true.
Proof.
  unfold wf_str. intros [Hall Hp]%andb_true_iff Hc Hlast.
  apply andb_true_iff. split.
  - rewrite forallb_app, Hall. cbn. by rewrite (proj2 (N.ltb_lt _ _) Hc).
  - by apply no_pairs_snoc.
Qed.

Lemma last_rev_cons (h : N) acc : last (rev (h :: acc)) = Some h.
Proof. cbn [rev]. by rewrite last_snoc. Qed.

(** The string loop keeps the decoded text well formed. *)
Lemma scanstring_wf fuel : ∀ begin s acc x r,
  Forall (λ c, scalar c = true) s →
  wf_str (rev acc) = true →
  match acc with
  | h :: _ => is_high_surrogate h = true → no_low_escape s = true
  | [] => True
  end →
  scanstring fuel begin s acc = Ok (x, r) →
  wf_str x = true ∧ ∃ p, s = p ++ r ∧ p ≠ [].
Proof.
  induction fuel as [|fuel IH]; intros begin s acc x r Hs Hacc Hguard; [done|].
  cbn [scanstring]. destruct (scan_piece begin s) as [r0|c r0|m r0] eqn:E.
  - intros [= <- <-]. apply scan_piece_closing in E as ->.
    split; [done|]. by exists [quote].
  - destruct (scan_piece_char _ _ _ _ Hs E) as ((p & -> & Hp) & Hc & Hlow & Hhigh).
    intros Hok. apply Forall_app in Hs as [_ Hr0].
    destruct (IH begin r0 (c :: acc) x r Hr0) as (Hx & q & -> & Hq); try done.
    + cbn [rev]. apply wf_str_snoc; [done | done |].
      intros h Hh. destruct acc as [|h' acc']; [done|].
      rewrite last_rev_cons in Hh. injection Hh as ->.
      destruct (is_high_surrogate h) eqn:Eh; [|done].
      destruct (is_low_surrogate c) eqn:El; [|done].
      rewrite (Hguard eq_refl) in Hlow. by specialize (Hlow eq_refl).
    + split; [done|]. exists (p ++ q). rewrite <- app_assoc.
      split; [done|]. by destruct p.
  - done.
Qed.

(** ** The decoder goes forward in the text *)

Lemma span_suffix p s : (span p s).2 `suffix_of` s.
Proof. exists (span p s).1. by rewrite span_app. Qed.

Lemma skip_ws_suffix s : skip_ws s `suffix_of` s.
Proof. apply span_suffix. Qed.

Lemma starts_with_suffix p s r : starts_with p s = Some r → r `suffix_of` s.
Proof.
  intros ->%starts_with_drop. exists (take (length p) s).
  by rewrite take_drop.
Qed.

Lemma suffix_scalar (r s : str) :
  r `suffix_of` s → Forall (λ c, scalar c = true) s →
  Forall (λ c, scalar c = true) r.
Proof. intros [p ->] Hs. by apply Forall_app in Hs as [_ ?]. Qed.

Lemma match_frac_suffix r fr r' : match_frac r = (fr, r') → r' `suffix_of` r.
Proof.
  unfold match_frac. destruct r as [|d [|c t]]; try (by intros [= <- <-]).
  destruct (_ && _); [|by intros [= <- <-]].
  pose proof (span_suffix is_digit t) as Hs.
  destruct (span is_digit t) as [ds r0]. intros [= <- <-].
  by do 2 apply suffix_cons_r.
Qed.

Lemma match_exp_suffix r ex r' : match_exp r = (ex, r') → r' `suffix_of` r.
Proof.
  unfold match_exp. destruct r as [|e t]; [by intros [= <- <-]|].
  destruct (_ || _); [|by intros [= <- <-]].
  destruct t as [|c t1].
  - cbn. by intros [= <- <-].
  - destruct (_ || _).
    + pose proof (span_suffix is_digit t1) as Hs.
      destruct (span is_digit t1) as [[|x ds] r0]; intros [= <- <-]; [done|].
      by do 2 apply suffix_cons_r.
    + pose proof (span_suffix is_digit (c :: t1)) as Hs.
      destruct (span is_digit (c :: t1)) as [[|x ds] r0]; intros [= <- <-];
        [done|]. by apply suffix_cons_r.
Qed.

Lemma match_int_suffix s i r :
  match_int s = Some (i, r) → r `suffix_of` s ∧ length r < length s.
Proof.
  unfold match_int. destruct s as [|c t]; [done|].
  destruct (_ && _).
  - pose proof (span_suffix is_digit t) as Hs.
    pose proof (span_length is_digit t) as Hl.
    destruct (span is_digit t) as [ds r0]. intros [= <- <-].
    split; [by apply suffix_cons_r | simpl in *; lia].
  - destruct (c =? _)%N; [|done]. intros [= <- <-].
    split; [by apply suffix_cons_r | simpl; lia].
Qed.

Lemma match_number_suffix s i fr ex r :
  match_number s = Some (i, fr, ex, r) →
  r `suffix_of` s ∧ length r < length s.
Proof.
  unfold match_number.
  set (split := match s with
                | [] => ([], s)
                | c :: t => if (c =? ord "-")%N then ([c], t) else ([], s)
                end).
  assert (split.2 `suffix_of` s) as Hsign.
  { unfold split. destruct s as [|c t]; [done|].
    destruct (c =? _)%N; [by apply suffix_cons_r | done]. }
  destruct split as [sign s1]. cbn [snd] in Hsign.
  destruct (match_int s1) as [[i0 r0]|] eqn:Ei; [|done].
  destruct (match_frac r0) as [fr0 r1] eqn:Ef.
  destruct (match_exp r1) as [ex0 r2] eqn:Ee.
  intros [= <- <- <- <-].
  apply match_int_suffix in Ei as [Hi Hl].
  apply match_frac_suffix in Ef. apply match_exp_suffix in Ee.
  assert (r2 `suffix_of` r0) as H20 by (by etrans).
  split; [by repeat (etrans; [eassumption|])|].
  apply suffix_length in H20, Hsign. lia.
Qed.

Section DecodedWellFormed.
Context `{PyFloat} `{PyLimits}.

Lemma after_skip_ws r0 c r2 (s : str) :
  skip_ws r0 = c :: r2 → r0 `suffix_of` s → r2 `suffix_of` s.
Proof.
  intros Hw Hs. etrans; [|exact Hs]. etrans; [|apply skip_ws_suffix].
  rewrite Hw. by apply suffix_cons_r.
Qed.

Lemma array_items_wf scan n :
  good_scan scan → ∀ s acc v r,
  Forall (λ c, scalar c = true) s → Forall wf_json acc →
  array_items scan n s acc = Ok (v, r) →
  wf_json v ∧ r `suffix_of` s.
Proof.
  intros Hscan. induction n as [|n IH]; intros s acc v r Hs Hacc; [done|].
  cbn [array_items]. destruct (scan s) as [[v0 r0]| | |] eqn:E; [|done..].
  cbn [bind]. destruct (Hscan _ _ _ Hs E) as [Hv0 Hr0].
  destruct (skip_ws r0) as [|c r2] eqn:Ew; [done|].
  pose proof (after_skip_ws _ _ _ _ Ew Hr0) as Hr2.
  destruct (c =? ord "]")%N.
  - intros [= <- <-]. split; [|done].
    apply wf_list. cbn [rev]. apply Forall_app.
    split; [by apply Forall_rev | by repeat constructor].
  - destruct (c =? ord ",")%N; [|done]. intros Hok.
    assert (skip_ws r2 `suffix_of` s) as Hr3
      by (etrans; [apply skip_ws_suffix | done]).
    destruct (IH (skip_ws r2) (v0 :: acc) v r) as [Hv Hr]; try done.
    + by eapply suffix_scalar.
    + by constructor.
    + split; [done | by etrans].
Qed.

Lemma dict_set_keys k v (d : list (str * json)) :
  map fst (dict_set k v d) = map fst d
  ∨ (k ∉ map fst d) ∧ map fst (dict_set k v d) = map fst d ++ [k].
Proof.
  induction d as [|[k' v'] d IH]; cbn [dict_set].
  - right. split; [apply not_elem_of_nil | done].
  - destruct (str_eqb k k') eqn:E; [by left|]. cbn [map fst app].
    destruct IH as [->|[Hk ->]]; [by left|]. right. split; [|done].
    apply not_elem_of_cons. split; [|done].
    intros ->. by rewrite (proj2 (str_eqb_eq k' k') eq_refl) in E.
Qed.

Lemma dict_set_wf k v d :
  wf_str k = true → wf_json v → wf_json (JDict d) →
  wf_json (JDict (dict_set k v d)).
Proof.
  rewrite !wf_dict. intros Hk Hv [Hnd Hall]. split.
  - destruct (dict_set_keys k v d) as [->|[Hfresh ->]]; [done|].
    apply NoDup_app. split; [done|]. split; [|apply NoDup_singleton].
    intros x Hx ->%list_elem_of_singleton. done.
  - clear Hnd. induction d as [|[k' v'] d IH]; cbn [dict_set].
    + by repeat constructor.
    + apply Forall_cons in Hall as [[Hk' Hv'] Hall].
      destruct (str_eqb k k'); constructor; try done. by apply IH.
Qed.

Lemma object_items_wf scan n :
  good_scan scan → ∀ s d v r,
  Forall (λ c, scalar c = true) s → wf_json (JDict d) →
  object_items scan n s d = Ok (v, r) →
  wf_json v ∧ r `suffix_of` s.
Proof.
  intros Hscan. induction n as [|n IH]; intros s d v r Hs Hd; [done|].
  cbn [object_items]. destruct s as [|q t]; [done|].
  destruct (q =? quote)%N; [|done].
  destruct (scanstring (S (length t)) (q :: t) t []) as [[key r0]| | |] eqn:Ek;
    [|done..].
  cbn [bind]. pose proof Hs as Ht. apply Forall_cons in Ht as [_ Ht].
  destruct (scanstring_wf _ _ _ [] _ _ Ht eq_refl I Ek) as (Hkey & p & Hp & _).
  assert (r0 `suffix_of` q :: t) as Hr0
    by (apply suffix_cons_r; by exists p).
  destruct (skip_ws r0) as [|c r2] eqn:Ew; [done|].
  pose proof (after_skip_ws _ _ _ _ Ew Hr0) as Hr2.
  destruct (c =? ord ":")%N; [|done].
  assert (skip_ws r2 `suffix_of` q :: t) as Hr2'
    by (etrans; [apply skip_ws_suffix | done]).
  destruct (scan (skip_ws r2)) as [[v0 r3]| | |] eqn:E; [|done..].
  cbn [bind].
  destruct (Hscan _ _ _ (suffix_scalar _ _ Hr2' Hs) E) as [Hv0 Hr3].
  assert (r3 `suffix_of` q :: t) as Hr3' by (by etrans).
  pose proof (dict_set_wf _ _ _ Hkey Hv0 Hd) as Hd'.
  destruct (skip_ws r3) as [|c' r5] eqn:Ew'; [done|].
  pose proof (after_skip_ws _ _ _ _ Ew' Hr3') as Hr5.
  destruct (c' =? ord "}")%N; [by intros [= <- <-]|].
  destruct (c' =? ord ",")%N; [|done]. intros Hok.
  assert (skip_ws r5 `suffix_of` q :: t) as Hr6
    by (etrans; [apply skip_ws_suffix | done]).
  destruct (IH (skip_ws r5) _ v r (suffix_scalar _ _ Hr6 Hs) Hd' Hok)
    as [Hv Hr].
  split; [done | by etrans].
Qed.

Lemma parse_number_wf s v r :
  parse_number s = Ok (v, r) → wf_json v ∧ r `suffix_of` s.
Proof.
  unfold parse_number.
  destruct (match_number s) as [[[[i fr] ex] r0]|] eqn:E; [|done].
  apply match_number_suffix in E as [Hs _].
  destruct fr, ex; try (intros [= <- <-]; done).
  destruct (py_int i); [|done]. by intros [= <- <-].
Qed.

(** Every value the decoder builds from a text of scalar values is well
    formed. *)
Lemma scan_once_flat_wf depth c t v r :
  Forall (λ c, scalar c = true) (c :: t) →
  (c =? ord "{")%N = false → (c =? ord "[")%N = false →
  scan_once depth (c :: t) = Ok (v, r) →
  wf_json v ∧ r `suffix_of` c :: t.
Proof.
  intros Hs H1 H2. rewrite (scan_once_any depth 0 c t H1 H2).
  cbn [scan_once]. rewrite H1, H2.
  pose proof Hs as Ht. apply Forall_cons in Ht as [_ Ht].
  destruct (c =? quote)%N.
  { destruct (scanstring (S (length t)) (c :: t) t []) as [[x r0]| | |] eqn:Ek;
      [|done..].
    cbn [bind]. intros [= <- <-].
    destruct (scanstring_wf _ _ _ [] _ _ Ht eq_refl I Ek) as (Hx & p & Hp & _).
    split; [done|]. apply suffix_cons_r. by exists p. }
  destruct (starts_with (py "null") (c :: t)) as [r0|] eqn:E1.
  { intros [= <- <-]. split; [done | by eapply starts_with_suffix]. }
  destruct (starts_with (py "true") (c :: t)) as [r0|] eqn:E2.
  { intros [= <- <-]. split; [done | by eapply starts_with_suffix]. }
  destruct (starts_with (py "false") (c :: t)) as [r0|] eqn:E3.
  { intros [= <- <-]. split; [done | by eapply starts_with_suffix]. }
  destruct (starts_with (py "NaN") (c :: t)) as [r0|] eqn:E4.
  { intros [= <- <-]. split; [done | by eapply starts_with_suffix]. }
  destruct (starts_with (py "Infinity") (c :: t)) as [r0|] eqn:E5.
  { intros [= <- <-]. split; [done | by eapply starts_with_suffix]. }
  destruct (starts_with (py "-Infinity") (c :: t)) as [r0|] eqn:E6.
  { intros [= <- <-]. split; [done | by eapply starts_with_suffix]. }
  apply parse_number_wf.
Qed.

Lemma scan_once_wf depth : good_scan (scan_once depth).
Proof.
  induction depth as [|depth IH]; intros s v r Hs;
    (destruct s as [|c t]; [done|]);
    destruct (c =? ord "{")%N eqn:E1;
    try (apply N.eqb_eq in E1 as ->; done);
    destruct (c =? ord "[")%N eqn:E2;
    try (apply N.eqb_eq in E2 as ->; done);
    try (by apply scan_once_flat_wf).
  - apply N.eqb_eq in E1 as ->. rewrite scan_once_dict.
    pose proof Hs as Ht. apply Forall_cons in Ht as [_ Ht].
    unfold parse_object.
    assert (skip_ws t `suffix_of` ord "{" :: t) as Hw
      by (apply suffix_cons_r, skip_ws_suffix).
    assert (wf_json (JDict [])) as Hnil by (split; [constructor | done]).
    intros Hok.
    assert (object_items (scan_once depth) (S (length (skip_ws t)))
              (skip_ws t) [] = Ok (v, r) →
            wf_json v ∧ r `suffix_of` ord "{" :: t)
      as Hitems.
    { intros Hi.
      destruct (object_items_wf _ _ IH _ _ _ _ (suffix_scalar _ _ Hw Hs) Hnil Hi).
      split; [done | by etrans]. }
    destruct (skip_ws t) as [|c' r'] eqn:Ew; [by apply Hitems|].
    destruct (c' =? ord "}")%N; [|by apply Hitems].
    injection Hok as <- <-. split; [done|].
    etrans; [|exact Hw]. by apply suffix_cons_r.
  - apply N.eqb_eq in E2 as ->. rewrite scan_once_list.
    pose proof Hs as Ht. apply Forall_cons in Ht as [_ Ht].
    unfold parse_array.
    assert (skip_ws t `suffix_of` ord "[" :: t) as Hw
      by (apply suffix_cons_r, skip_ws_suffix).
    intros Hok.
    assert (array_items (scan_once depth) (S (length (skip_ws t)))
              (skip_ws t) [] = Ok (v, r) →
            wf_json v ∧ r `suffix_of` ord "[" :: t)
      as Hitems.
    { intros Hi.
      destruct (array_items_wf _ _ IH _ _ _ _ (suffix_scalar _ _ Hw Hs)
                  (Forall_nil_2 _) Hi).
      split; [done | by etrans]. }
    destruct (skip_ws t) as [|c' r'] eqn:Ew; [by apply Hitems|].
    destruct (c' =? ord "]")%N; [|by apply Hitems].
    injection Hok as <- <-. split; [done|].
    etrans; [|exact Hw]. by apply suffix_cons_r.
Qed.

Lemma json_loads_wf s v :
  Forall (λ c, scalar c = true) s → json_loads s = Ok v → wf_json v.
Proof.
  intros Hs. unfold json_loads. destruct (starts_with _ s); [done|].
  destruct (scan_once _ _) as [[obj r]| | |] eqn:E; [|done..]. cbn [bind].
  destruct (scan_once_wf _ _ _ _
    (suffix_scalar _ _ (skip_ws_suffix s) Hs) E) as [Hv _].
  destruct (skip_ws r); [|done]. by intros [= <-].
Qed.

End DecodedWellFormed.

(** ** Cleaning a text that has nothing to clean *)

Lemma line_no_opener s :
  find (py "//") s = None → remove_line_comments s = s.
Proof.
  induction s as [|c s IH]; intros Hf; rewrite line_unfold, line_match.
  - done.
  - pose proof (find_tail _ _ _ Hf) as Hs.
    destruct s as [|b u]; [done|].
    simpl in Hf. pys. simpl in Hf. ords.
    destruct (c =? 47)%N, (b =? 47)%N; simpl in *; try done;
      f_equal; by apply IH.
Qed.

Lemma comma_none s :
  trailing_comma s = false → remove_trailing_commas s = s.
Proof.
  induction s as [|c s IH]; intros Hf; rewrite comma_unfold; [done|].
  cbn [trailing_comma] in Hf. apply orb_false_iff in Hf as [Hc Hs].
  destruct (c =? ord ",")%N; [|by rewrite IH].
  cbn [andb] in Hc. apply bool_decide_eq_false in Hc.
  destruct (closer_after_space s) as [[cl r]|]; [|by rewrite IH].
  destruct Hc. eauto.
Qed.

Lemma clean_nothing s :
  find (py "/*") s = None → find (py "//") s = None →
  trailing_comma s = false → clean s = s.
Proof.
  intros H1 H2 H3. unfold clean.
  by rewrite block_no_opener, line_no_opener, comma_none.
Qed.

(** ** Cleaning keeps the characters of the text *)

Section Kept.
Variable P : N → Prop.

Lemma block_kept n : ∀ s,
  length s < n → Forall P s → Forall P (remove_block_comments s).
Proof.
  induction n as [|n IH]; intros s Hn Hs; [lia|].
  rewrite block_unfold.
  destruct (match_at block_comment_re false s) as [[t g]|] eqn:E.
  - pose proof (block_consuming _ _ _ E) as Hl.
    rewrite block_match in E. destruct s as [|a [|b u]]; try done.
    destruct (_ && _); [|done].
    destruct (find _ u) as [j|]; [|done]. injection E as <- <-.
    apply IH; [lia|]. apply Forall_drop.
    by do 2 apply Forall_cons in Hs as [_ Hs].
  - destruct s as [|c s']; [done|]. apply Forall_cons in Hs as [Hc Hs].
    constructor; [done|]. apply IH; [simpl in Hn; lia | done].
Qed.

Lemma line_kept n : ∀ s,
  length s < n → Forall P s → Forall P (remove_line_comments s).
Proof.
  induction n as [|n IH]; intros s Hn Hs; [lia|].
  rewrite line_unfold.
  destruct (match_at line_comment_re false s) as [[t g]|] eqn:E.
  - pose proof (line_consuming _ _ _ E) as Hl.
    rewrite line_match in E. destruct s as [|a [|b u]]; try done.
    destruct (_ && _); [|done]. injection E as <- <-.
    apply IH; [lia|]. do 2 apply Forall_cons in Hs as [_ Hs].
    destruct (span_suffix (cs_match (CDot false)) u) as [p Hp].
    rewrite Hp in Hs. by apply Forall_app in Hs as [_ ?].
  - destruct s as [|c s']; [done|]. apply Forall_cons in Hs as [Hc Hs].
    constructor; [done|]. apply IH; [simpl in Hn; lia | done].
Qed.

Lemma comma_kept n : ∀ s,
  length s < n → Forall P s → Forall P (remove_trailing_commas s).
Proof.
  induction n as [|n IH]; intros s Hn Hs; [lia|].
  rewrite comma_unfold. destruct s as [|c t]; [done|].
  apply Forall_cons in Hs as [Hc Ht]. simpl in Hn.
  assert (Forall P (c :: remove_trailing_commas t)) as Hkeep
    by (constructor; [done | apply IH; [lia | done]]).
  destruct (c =? ord ",")%N; [|done].
  destruct (closer_after_space t) as [[cl r]|] eqn:E; [|done].
  unfold closer_after_space in E.
  pose proof (span_length isspace t) as Hl.
  destruct (span_suffix isspace t) as [p Hp].
  destruct (span isspace t).2 as [|cl' r'] eqn:Es; [done|].
  destruct (mem cl' _); [|done]. injection E as <- <-.
  rewrite Hp in Ht. apply Forall_app in Ht as [_ Ht].
  apply Forall_cons in Ht as [Hcl Hr].
  constructor; [done|]. apply IH; [simpl in Hl; lia | done].
Qed.

Lemma clean_kept s : Forall P s → Forall P (clean s).
Proof.
  intros Hs. unfold clean.
  eapply comma_kept; [apply Nat.lt_succ_diag_r|].
  eapply line_kept; [apply Nat.lt_succ_diag_r|].
  eapply block_kept; [apply Nat.lt_succ_diag_r | done].
Qed.

End Kept.

Lemma scalar_text_forall s :
  scalar_text s = true ↔ Forall (λ c, scalar c = true) s.
Proof.
  unfold scalar_text. induction s as [|c s IH]; cbn [forallb].
  - split; [by constructor | done].
  - rewrite andb_true_iff, Forall_cons, IH. done.
Qed.

(** ** The small model of floats keeps the law *)

Lemma match_int_digits p r :
  match r with [] => True | c :: _ => is_digit c = false end →
  match_int (str_of_uint (Pos.to_uint p) ++ r)
  = Some (str_of_uint (Pos.to_uint p), r).
Proof.
  intros Hd. destruct (to_uint_head p) as (c & ds & -> & Hc & Hds).
  cbn [app match_int]. rewrite Hc. by rewrite (span_run _ _ _ Hds Hd).
Qed.

Lemma match_number_whole z r :
  delimited r = true →
  match_number (intstr z ++ py ".0" ++ r)
  = Some (intstr z, Some (py ".0"), None, r).
Proof.
  intros Hr. pose proof (delimited_number_end _ Hr) as He.
  pose proof (number_end_digit _ He) as Hd.
  assert (match_frac (py ".0" ++ r) = (Some (py ".0"), r)) as Hfrac.
  { pose proof (span_run is_digit [] r (Forall_nil_2 _) Hd) as Hsp.
    cbn [app] in Hsp. pys. cbn [app match_frac]. ords. cbn.
    by rewrite Hsp. }
  unfold match_number, intstr.
  destruct z as [|p|p]; cbn [Z.to_int].
  - cbn [str_of_uint app]. ords.
    change (48 =? 45)%N with false. cbn iota. unfold match_int. ords.
    change (49 <=? 48)%N with false.
    change (48 =? 48)%N with true. cbn [andb]. cbn iota.
    by rewrite Hfrac, match_exp_end.
  - destruct (to_uint_head p) as (c & ds & E & Hc & Hds).
    rewrite E. cbn [app].
    replace (c =? ord "-")%N with false
      by (symmetry; apply N.eqb_neq; ords;
          apply andb_true_iff in Hc as [?%N.leb_le ?%N.leb_le]; lia).
    change (c :: ds ++ py ".0" ++ r) with ((c :: ds) ++ py ".0" ++ r).
    rewrite <- E, match_int_digits by done.
    by rewrite Hfrac, match_exp_end.
  - cbn [app]. rewrite N.eqb_refl, match_int_digits by done.
    by rewrite Hfrac, match_exp_end.
Qed.

Lemma int_part_whole z : int_part (intstr z ++ py ".0" ++ []) = intstr z.
Proof.
  unfold int_part.
  assert (Forall (λ c, (is_digit c || (c =? ord "-")%N) = true) (intstr z))
    as Hall.
  { unfold intstr. destruct (Z.to_int z) as [u|u].
    - eapply Forall_impl; [apply str_of_uint_digits|].
      by intros c ->.
    - constructor; [done|]. eapply Forall_impl; [apply str_of_uint_digits|].
      by intros c ->. }
  by rewrite (span_run _ _ (py ".0" ++ []) Hall).
Qed.

Lemma whole_floats_law `{PyLimits} : @float_law whole_floats _.
Proof.
  intros x r fuel Hr. cbn [floatstr whole_floats]. rewrite <- app_assoc.
  assert (scan_once (S fuel) (intstr x ++ py ".0" ++ r)
          = parse_number (intstr x ++ py ".0" ++ r)) as ->.
  { destruct (intstr_start x) as (c & t & -> & _ & Hc). cbn [app].
    apply scan_once_number.
    destruct Hc as [Hc|[-> (d & t' & -> & Hd)]]; [by left|].
    right. split; [done|]. by eexists d, _. }
  unfold parse_number. rewrite match_number_whole by done.
  do 3 f_equal. etrans; [|apply int_of_intstr].
  apply (f_equal int_of_str). exact (int_part_whole x).
Qed.


(** ** What the decoder builds is within the limits *)

Lemma count_digits_app a b :
  count_digits (a ++ b) = count_digits a + count_digits b.
Proof. unfold count_digits. by rewrite List.filter_app, length_app. Qed.

Lemma count_digits_all ds :
  Forall (λ c, is_digit c = true) ds → count_digits ds = length ds.
Proof.
  induction 1 as [|c ds Hc _ IH]; [done|]. unfold count_digits in *.
  cbn [List.filter]. rewrite Hc. cbn [length]. by rewrite IH.
Qed.

Lemma length_str_of_uint u : length (str_of_uint u) = Decimal.nb_digits u.
Proof. induction u; simpl; by rewrite ?IHu. Qed.

Lemma count_digits_uint u : count_digits (str_of_uint u) = Decimal.nb_digits u.
Proof.
  by rewrite (count_digits_all _ (str_of_uint_digits u)), length_str_of_uint.
Qed.

Lemma nb_digits_uint_of_str s : Decimal.nb_digits (uint_of_str s) = length s.
Proof.
  induction s as [|c s IH]; [done|]. cbn [uint_of_str length].
  unfold digit_of. repeat case_match; simpl; by rewrite IH.
Qed.

(** The text of an integer has no more digits than a lexeme it was read
    from. *)
Lemma intstr_digits d u :
  d = Decimal.Pos u ∨ d = Decimal.Neg u → u ≠ Decimal.Nil →
  count_digits (intstr (Z.of_int d)) ≤ Decimal.nb_digits u.
Proof.
  intros Hd Hu. unfold intstr. rewrite DecimalZ.to_of.
  destruct Hd as [-> | ->]; cbn [Decimal.norm].
  - rewrite count_digits_uint. by apply DecimalFacts.nb_digits_unorm.
  - pose proof (DecimalFacts.nb_digits_nzhead u) as Hn.
    destruct (Decimal.nzhead u) as [|w|w|w|w|w|w|w|w|w|w] eqn:E; cbn iota;
      try (change (count_digits (ord "-" :: ?x)) with (count_digits x);
           by rewrite count_digits_uint).
    rewrite count_digits_uint. destruct u; [done|..]; simpl; lia.
Qed.

Lemma match_int_shape s i r :
  match_int s = Some (i, r) → Forall (λ c, is_digit c = true) i ∧ i ≠ [].
Proof.
  unfold match_int. destruct s as [|c t]; [done|].
  destruct ((ord "1" <=? c)%N && (c <=? ord "9")%N) eqn:E.
  - pose proof (span_all is_digit t) as Hall.
    destruct (span is_digit t) as [ds r']. intros [= <- <-].
    split; [|done]. constructor; [|done]. unfold is_digit. revert E. ords.
    intros [?%N.leb_le ?%N.leb_le]%andb_true_iff.
    apply andb_true_iff. split; apply N.leb_le; lia.
  - destruct (N.eqb_spec c (ord "0")) as [->|]; [|done].
    intros [= <- <-]. split; [|done]. by repeat constructor.
Qed.

Lemma match_number_shape s i fr ex r :
  match_number s = Some (i, fr, ex, r) →
  ∃ sign ds,
    i = sign ++ ds ∧ (sign = [] ∨ sign = [ord "-"])
    ∧ Forall (λ c, is_digit c = true) ds ∧ ds ≠ [].
Proof.
  unfold match_number.
  set (split := match s with
                | [] => ([], s)
                | c :: t => if (c =? ord "-")%N then ([c], t) else ([], s)
                end).
  assert (split.1 = [] ∨ split.1 = [ord "-"]) as Hsign.
  { unfold split. destruct s as [|c t]; [by left|].
    destruct (N.eqb_spec c (ord "-")) as [->|]; [by right | by left]. }
  destruct split as [sign s1]. cbn [fst] in Hsign.
  destruct (match_int s1) as [[ds r0]|] eqn:E; [|done].
  destruct (match_frac r0) as [fr' r1]. destruct (match_exp r1) as [ex' r2].
  intros [= <- <- <- <-]. apply match_int_shape in E as [Hds Hne].
  by exists sign, ds.
Qed.

Lemma lexeme_digits sign ds :
  sign = [] ∨ sign = [ord "-"] →
  Forall (λ c, is_digit c = true) ds → ds ≠ [] →
  count_digits (intstr (int_of_str (sign ++ ds))) ≤ count_digits (sign ++ ds).
Proof.
  intros Hsign Hds Hne.
  assert (uint_of_str ds ≠ Decimal.Nil) as Hu.
  { intros Hu. apply (f_equal Decimal.nb_digits) in Hu.
    rewrite nb_digits_uint_of_str in Hu. by destruct ds. }
  rewrite count_digits_app, (count_digits_all ds Hds).
  rewrite <- (nb_digits_uint_of_str ds).
  destruct Hsign as [-> | ->]; cbn [app].
  - destruct ds as [|c ds']; [done|]. unfold int_of_str.
    replace (c =? ord "-")%N with false.
    + etrans; [by eapply intstr_digits; [left|]|]. done.
    + symmetry. apply N.eqb_neq. intros ->.
      by apply Forall_cons_1 in Hds as [Hd _].
  - unfold int_of_str. rewrite N.eqb_refl.
    etrans; [by eapply intstr_digits; [right|]|]. lia.
Qed.

Section DecodedWithinLimits.
Context `{PyFloat} `{PyLimits}.

Lemma exceeds_mono a b :
  count_digits a ≤ count_digits b →
  exceeds_digit_limit b = false → exceeds_digit_limit a = false.
Proof.
  unfold exceeds_digit_limit. intros Hab.
  destruct (Nat.ltb_spec 640 (count_digits a)),
    (Nat.ltb_spec 640 (count_digits b)),
    (Nat.ltb_spec 0 max_str_digits),
    (Nat.ltb_spec max_str_digits (count_digits a)),
    (Nat.ltb_spec max_str_digits (count_digits b)); simpl; try done; lia.
Qed.

Lemma parse_number_fits s v r depth :
  parse_number s = Ok (v, r) → fits v depth.
Proof.
  unfold parse_number.
  destruct (match_number s) as [[[[i fr] ex] r0]|] eqn:E; [|done].
  apply match_number_shape in E as (sign & ds & -> & Hsign & Hds & Hne).
  destruct fr, ex; try (by intros [= <- <-]).
  unfold py_int. destruct (exceeds_digit_limit (sign ++ ds)) eqn:El; [done|].
  intros [= <- <-]. cbn [fits].
  eapply exceeds_mono; [|exact El]. by apply lexeme_digits.
Qed.

Lemma array_items_fits scan n depth :
  fitting_scan depth scan → ∀ s acc v r,
  Forall (λ v, fits v depth) acc →
  array_items scan n s acc = Ok (v, r) → fits v (S depth).
Proof.
  intros Hscan. induction n as [|n IH]; intros s acc v r Hacc; [done|].
  cbn [array_items]. destruct (scan s) as [[v0 r0]| | |] eqn:E; [|done..].
  cbn [bind]. pose proof (Hscan _ _ _ E) as Hv0.
  destruct (skip_ws r0) as [|c r2]; [done|].
  destruct (c =? ord "]")%N.
  - intros [= <- <-]. apply fits_list. cbn [rev]. apply Forall_app.
    split; [by apply Forall_rev | by repeat constructor].
  - destruct (c =? ord ",")%N; [|done]. apply IH. by constructor.
Qed.

Lemma dict_set_fits k v (d : list (str * json)) depth :
  fits v depth → Forall (λ kv, fits kv.2 depth) d →
  Forall (λ kv, fits kv.2 depth) (dict_set k v d).
Proof.
  intros Hv. induction 1 as [|[k' v'] d Hv' Hd IH]; cbn [dict_set].
  - by repeat constructor.
  - destruct (str_eqb k k'); by constructor.
Qed.

Lemma object_items_fits scan n depth :
  fitting_scan depth scan → ∀ s d v r,
  Forall (λ kv, fits kv.2 depth) d →
  object_items scan n s d = Ok (v, r) → fits v (S depth).
Proof.
  intros Hscan. induction n as [|n IH]; intros s d v r Hd; [done|].
  cbn [object_items]. destruct s as [|q t]; [done|].
  destruct (q =? quote)%N; [|done].
  destruct (scanstring _ _ t []) as [[key r0]| | |]; [|done..]. cbn [bind].
  destruct (skip_ws r0) as [|c r2]; [done|].
  destruct (c =? ord ":")%N; [|done].
  destruct (scan (skip_ws r2)) as [[v0 r3]| | |] eqn:E; [|done..]. cbn [bind].
  pose proof (dict_set_fits key _ _ _ (Hscan _ _ _ E) Hd) as Hd'.
  destruct (skip_ws r3) as [|c' r5]; [done|].
  destruct (c' =? ord "}")%N; [intros [= <- <-]; by apply fits_dict|].
  destruct (c' =? ord ",")%N; [by apply IH | done].
Qed.

Lemma scan_once_flat_fits depth depth' c t v r :
  (c =? ord "{")%N = false → (c =? ord "[")%N = false →
  scan_once depth (c :: t) = Ok (v, r) → fits v depth'.
Proof.
  intros H1 H2. rewrite (scan_once_any depth 0 c t H1 H2).
  cbn [scan_once]. rewrite H1, H2.
  destruct (c =? quote)%N.
  { destruct (scanstring _ _ t []) as [[x r0]| | |]; [|done..].
    by intros [= <- <-]. }
  destruct (starts_with (py "null") (c :: t)); [by intros [= <- <-]|].
  destruct (starts_with (py "true") (c :: t)); [by intros [= <- <-]|].
  destruct (starts_with (py "false") (c :: t)); [by intros [= <- <-]|].
  destruct (starts_with (py "NaN") (c :: t)); [by intros [= <- <-]|].
  destruct (starts_with (py "Infinity") (c :: t)); [by intros [= <- <-]|].
  destruct (starts_with (py "-Infinity") (c :: t)); [by intros [= <- <-]|].
  apply parse_number_fits.
Qed.

(** Every value the decoder builds nests no deeper than the depth it was
    given, and its integers pass the digit limit. *)
Lemma scan_once_fits depth : fitting_scan depth (scan_once depth).
Proof.
  induction depth as [|depth IH]; intros s v r;
    (destruct s as [|c t]; [done|]);
    destruct (c =? ord "{")%N eqn:E1;
    try (apply N.eqb_eq in E1 as ->; done);
    destruct (c =? ord "[")%N eqn:E2;
    try (apply N.eqb_eq in E2 as ->; done);
    try (by apply scan_once_flat_fits).
  - apply N.eqb_eq in E1 as ->. rewrite scan_once_dict. unfold parse_object.
    assert (∀ s, object_items (scan_once depth) (S (length s)) s [] = Ok (v, r)
                 → fits v (S depth)) as Hitems
      by (intros s; by apply object_items_fits).
    destruct (skip_ws t) as [|c' r'] eqn:Ew; [apply Hitems|].
    destruct (c' =? ord "}")%N; [by intros [= <- <-] | apply Hitems].
  - apply N.eqb_eq in E2 as ->. rewrite scan_once_list. unfold parse_array.
    assert (∀ s, array_items (scan_once depth) (S (length s)) s [] = Ok (v, r)
                 → fits v (S depth)) as Hitems
      by (intros s; by apply array_items_fits).
    destruct (skip_ws t) as [|c' r'] eqn:Ew; [apply Hitems|].
    destruct (c' =? ord "]")%N; [by intros [= <- <-] | apply Hitems].
Qed.

Lemma json_loads_fits s v : json_loads s = Ok v → fits v recursion_depth.
Proof.
  unfold json_loads. destruct (starts_with _ s); [done|].
  destruct (scan_once _ _) as [[obj r]| | |] eqn:E; [|done..]. cbn [bind].
  apply scan_once_fits in E. destruct (skip_ws r); [|done]. by intros [= <-].
Qed.

End DecodedWithinLimits.

(** ** Plain JSON and a second run *)

Section Reserialize.
Context `{PyFloat} `{PyLimits}.

(** C6.  When the content is valid JSON and holds no [/*], no [//] and no
    comma followed only by white space and a closer, in its strings as
    elsewhere, the conversion succeeds and writes the parsed value of the
    input, serialized with an indentation of four spaces and the keys of each
    object in the order the decoder met them; parsing the output gives that
    value again. *)
Theorem plain_json_reserialized (path : str) (fs : gmap str str)
    (content : str) (data : json) :
  float_law →
  scalar_text content = true →
  fs !! path = Some content →
  json_loads content = Ok data →
  find (py "/*") content = None →
  find (py "//") content = None →
  trailing_comma content = false →
  convert_jsonc_to_json path fs
  = {| stdout := [py "Successfully created: " ++ output_path_of path];
       files := <[output_path_of path := json_dumps data]> fs;
       ended := Finished |}
  ∧ json_loads (json_dumps data) = Ok data.
Proof.
  intros Hfloat Hs Hf Hd H1 H2 H3. split.
  - rewrite (convert_clean _ _ _ Hf), clean_nothing by done. by rewrite Hd.
  - apply loads_dumps; [done| |by eapply json_loads_fits].
    eapply json_loads_wf; [|done]. by apply scalar_text_forall.
Qed.

(** C7.  When a conversion has succeeded and its output holds no [/*], no
    [//] and no comma followed only by white space and a closer (in the
    strings of the value, the only place where the encoder can write them),
    a second run on that output leaves the text to the cleaning steps
    unchanged, parses the same value and writes the same text again. *)
Theorem reconversion_stable (path path' : str) (fs fs' : gmap str str)
    (content : str) (data : json) :
  float_law →
  scalar_text content = true →
  fs !! path = Some content →
  json_loads (clean content) = Ok data →
  find (py "/*") (json_dumps data) = None →
  find (py "//") (json_dumps data) = None →
  trailing_comma (json_dumps data) = false →
  fs' !! path' = files (convert_jsonc_to_json path fs) !! output_path_of path →
  clean (json_dumps data) = json_dumps data
  ∧ json_loads (clean (json_dumps data)) = Ok data
  ∧ convert_jsonc_to_json path' fs'
    = {| stdout := [py "Successfully created: " ++ output_path_of path'];
         files := <[output_path_of path' := json_dumps data]> fs';
         ended := Finished |}.
Proof.
  intros Hfloat Hs Hf Hd H1 H2 H3 Hf'.
  rewrite (convert_clean _ _ _ Hf), Hd in Hf'. cbn [files] in Hf'.
  rewrite lookup_insert_eq in Hf'.
  assert (clean (json_dumps data) = json_dumps data) as Hc
    by (by apply clean_nothing).
  assert (json_loads (json_dumps data) = Ok data) as Hl.
  { apply loads_dumps; [done| |by eapply json_loads_fits].
    eapply json_loads_wf; [|done].
    apply clean_kept. by apply scalar_text_forall. }
  split; [done|]. rewrite Hc. split; [done|].
  by rewrite (convert_clean _ _ _ Hf'), Hc, Hl.
Qed.

End Reserialize.

Section ReserializeSamples.
#[local] Existing Instance whole_floats.
#[local] Existing Instance default_limits.

Lemma plain_json_reserialized_sample :
  (scalar_text (pyq "{'b': 1, 'a': [true, null, 'x']}") = true
   ∧ sample_fs !! py "plain.jsonc" = Some (pyq "{'b': 1, 'a': [true, null, 'x']}")
   ∧ json_loads (pyq "{'b': 1, 'a': [true, null, 'x']}")
     = Ok (JDict [(py "b", JInt 1);
                  (py "a", JList [JBool true; JNull; JStr (py "x")])]))
  ∧ files (convert_jsonc_to_json (py "plain.jsonc") sample_fs) !! py "plain.json"
    = Some (json_dumps
              (JDict [(py "b", JInt 1);
                      (py "a", JList [JBool true; JNull; JStr (py "x")])])).
Proof.
  assert (scalar_text (pyq "{'b': 1, 'a': [true, null, 'x']}") = true) as H1
    by (vm_compute; reflexivity).
  assert (sample_fs !! py "plain.jsonc"
          = Some (pyq "{'b': 1, 'a': [true, null, 'x']}")) as H2
    by (vm_compute; reflexivity).
  assert (json_loads (pyq "{'b': 1, 'a': [true, null, 'x']}")
          = Ok (JDict [(py "b", JInt 1);
                       (py "a", JList [JBool true; JNull; JStr (py "x")])]))
    as H3 by (vm_compute; reflexivity).
  split; [by repeat split|].
  rewrite (proj1 (plain_json_reserialized (py "plain.jsonc") sample_fs _ _
                    whole_floats_law H1 H2 H3 eq_refl eq_refl eq_refl)).
  cbn [files]. by rewrite lookup_insert_eq.
Defined.

(** The text written for the plain sample: four spaces a level, the keys in
    the order of the input. *)
Example plain_json_output :
  files (convert_jsonc_to_json (py "plain.jsonc") sample_fs) !! py "plain.json"
  = Some (pyq "{
    'b': 1,
    'a': [
        true,
        null,
        'x'
    ]
}").
Proof. vm_compute. reflexivity. Qed.

(** A valid JSON document without comments whose string holds [//]: the
    cleaning cuts the string, and the conversion fails. *)
Lemma url_string_breaks_conversion :
  sample_fs !! py "url.jsonc" = Some (pyq "{'a': 'http://x'}")
  ∧ json_loads (pyq "{'a': 'http://x'}")
    = Ok (JDict [(py "a", JStr (py "http://x"))])
  ∧ clean (pyq "{'a': 'http://x'}") = pyq "{'a': 'http:"
  ∧ ended (convert_jsonc_to_json (py "url.jsonc") sample_fs) = SysExit 1
  ∧ files (convert_jsonc_to_json (py "url.jsonc") sample_fs) = sample_fs.
Proof. repeat split; vm_compute; reflexivity. Qed.

Lemma reconversion_stable_sample :
  (scalar_text (pyq "{'b': 1, 'a': [true, null, 'x']}") = true
   ∧ sample_fs !! py "plain.jsonc" = Some (pyq "{'b': 1, 'a': [true, null, 'x']}")
   ∧ json_loads (clean (pyq "{'b': 1, 'a': [true, null, 'x']}"))
     = Ok (JDict [(py "b", JInt 1);
                  (py "a", JList [JBool true; JNull; JStr (py "x")])]))
  ∧ ended (convert_jsonc_to_json (py "again.jsonc")
             (<[py "again.jsonc" :=
                  json_dumps
                    (JDict [(py "b", JInt 1);
                            (py "a", JList [JBool true; JNull; JStr (py "x")])])]>
                sample_fs))
    = Finished.
Proof.
  assert (scalar_text (pyq "{'b': 1, 'a': [true, null, 'x']}") = true) as H1
    by (vm_compute; reflexivity).
  assert (sample_fs !! py "plain.jsonc"
          = Some (pyq "{'b': 1, 'a': [true, null, 'x']}")) as H2
    by (vm_compute; reflexivity).
  assert (json_loads (clean (pyq "{'b': 1, 'a': [true, null, 'x']}"))
          = Ok (JDict [(py "b", JInt 1);
                       (py "a", JList [JBool true; JNull; JStr (py "x")])]))
    as H3 by (vm_compute; reflexivity).
  assert ((<[py "again.jsonc" :=
              json_dumps
                (JDict [(py "b", JInt 1);
                        (py "a", JList [JBool true; JNull; JStr (py "x")])])]>
             sample_fs) !! py "again.jsonc"
          = files (convert_jsonc_to_json (py "plain.jsonc") sample_fs)
              !! output_path_of (py "plain.jsonc")) as H4
    by (vm_compute; reflexivity).
  split; [by repeat split|].
  rewrite (proj2 (proj2 (reconversion_stable (py "plain.jsonc")
    (py "again.jsonc") sample_fs _ _ _ whole_floats_law H1 H2 H3
    ltac:(vm_compute; reflexivity) ltac:(vm_compute; reflexivity)
    ltac:(vm_compute; reflexivity) H4))).
  done.
Defined.

(** A conversion that succeeds and whose output a second run rejects: the
    escaped slashes of the input are written as [//]. *)
Lemma escaped_slashes_break_second_run :
  ended (convert_jsonc_to_json (py "esc.jsonc") sample_fs) = Finished
  ∧ files (convert_jsonc_to_json (py "esc.jsonc") sample_fs) !! py "esc.json"
    = Some (pyq "{
    'a': 'http://x'
}")
  ∧ clean (pyq "{
    'a': 'http://x'
}") = pyq "{
    'a': 'http:
}"
  ∧ ended (convert_jsonc_to_json (py "again.jsonc")
             (<[py "again.jsonc" := pyq "{
    'a': 'http://x'
}"]> (files (convert_jsonc_to_json (py "esc.jsonc") sample_fs))))
    = SysExit 1.
Proof. repeat split; vm_compute; reflexivity. Qed.

End ReserializeSamples.

(** ** The decoder always answers *)

Lemma scan_piece_shorter begin s c r :
  scan_piece begin s = Char c r → length r < length s.
Proof.
  unfold scan_piece. destruct s as [|c0 t]; [done|].
  destruct (c0 =? quote)%N; [done|]. destruct (c0 =? ord "\")%N.
  - destruct t as [|e t']; [done|]. destruct (e =? ord "u")%N.
    + destruct t' as [|h1 [|h2 [|h3 [|h4 [|x r0]]]]]; try done.
      destruct (hex4 h1 h2 h3 h4); [|done].
      destruct r0 as [|e2 [|g1 [|g2 [|g3 [|g4 [|y r2]]]]]];
        try (intros [= <- <-]; simpl; lia).
      destruct (_ && _); [|intros [= <- <-]; simpl; lia].
      destruct (hex4 g1 g2 g3 g4); [|done].
      destruct (is_low_surrogate _); intros [= <- <-]; simpl; lia.
    + destruct (backslash e); [|done]. intros [= <- <-]. simpl. lia.
  - destruct (c0 <=? 31)%N; [done|]. intros [= <- <-]. simpl. lia.
Qed.

Lemma scanstring_total fuel : ∀ begin s acc,
  length s < fuel →
  scanstring fuel begin s acc ≠ Diverge
  ∧ ∀ x r, scanstring fuel begin s acc = Ok (x, r) → length r < length s.
Proof.
  induction fuel as [|fuel IH]; intros begin s acc Hf; [lia|].
  cbn [scanstring]. destruct (scan_piece begin s) as [r0|c r0|m r0] eqn:E.
  - split; [done|]. intros x r [= <- <-].
    apply scan_piece_closing in E as ->. simpl. lia.
  - apply scan_piece_shorter in E.
    destruct (IH begin r0 (c :: acc) ltac:(lia)) as [Hd Hok].
    split; [done|]. intros x r Hr. specialize (Hok _ _ Hr). lia.
  - split; done.
Qed.

Lemma skip_ws_length s : length (skip_ws s) ≤ length s.
Proof. apply span_length. Qed.

Lemma starts_with_shorter p s r :
  p ≠ [] → starts_with p s = Some r → length r < length s.
Proof.
  intros Hp Hs. destruct p as [|a p]; [done|]. destruct s as [|c s]; [done|].
  apply starts_with_drop in Hs as ->. rewrite length_drop. simpl. lia.
Qed.

Section Total.
Context `{PyFloat} `{PyLimits}.

Lemma array_items_total scan bound n :
  sound_scan bound scan → ∀ s acc,
  length s < bound → length s < n →
  array_items scan n s acc ≠ Diverge
  ∧ ∀ v r, array_items scan n s acc = Ok (v, r) → length r < length s.
Proof.
  intros Hscan. induction n as [|n IH]; intros s acc Hb Hn; [lia|].
  cbn [array_items]. destruct (Hscan s Hb) as [Hd Hok].
  destruct (scan s) as [[v0 r0]| | |] eqn:E; [|done..].
  cbn [bind]. specialize (Hok _ _ eq_refl).
  pose proof (skip_ws_length r0) as Hw.
  destruct (skip_ws r0) as [|c r2] eqn:Ew; [done|]. simpl in Hw.
  destruct (c =? ord "]")%N.
  { split; [done|]. intros v r [= <- <-]. lia. }
  destruct (c =? ord ",")%N; [|done].
  pose proof (skip_ws_length r2) as Hw2.
  destruct (IH (skip_ws r2) (v0 :: acc) ltac:(lia) ltac:(lia)) as [Hd' Hok'].
  split; [done|]. intros v r Hr. specialize (Hok' _ _ Hr). lia.
Qed.

Lemma object_items_total scan bound n :
  sound_scan bound scan → ∀ s d,
  length s < bound → length s < n →
  object_items scan n s d ≠ Diverge
  ∧ ∀ v r, object_items scan n s d = Ok (v, r) → length r < length s.
Proof.
  intros Hscan. induction n as [|n IH]; intros s d Hb Hn; [lia|].
  cbn [object_items]. destruct s as [|q t]; [done|].
  destruct (q =? quote)%N; [|done]. simpl in Hb, Hn.
  destruct (scanstring_total (S (length t)) (q :: t) t [] ltac:(lia))
    as [Hd Hok].
  destruct (scanstring _ _ t []) as [[key r0]| | |] eqn:Ek; [|done..].
  cbn [bind]. specialize (Hok _ _ eq_refl).
  pose proof (skip_ws_length r0) as Hw.
  destruct (skip_ws r0) as [|c r2] eqn:Ew; [done|]. simpl in Hw.
  destruct (c =? ord ":")%N; [|done].
  pose proof (skip_ws_length r2) as Hw2.
  destruct (Hscan (skip_ws r2) ltac:(lia)) as [Hd2 Hok2].
  destruct (scan (skip_ws r2)) as [[v0 r3]| | |] eqn:E; [|done..].
  cbn [bind]. specialize (Hok2 _ _ eq_refl).
  pose proof (skip_ws_length r3) as Hw3.
  destruct (skip_ws r3) as [|c' r5] eqn:Ew'; [done|]. simpl in Hw3.
  destruct (c' =? ord "}")%N.
  { split; [done|]. intros v r [= <- <-]. simpl. lia. }
  destruct (c' =? ord ",")%N; [|done].
  pose proof (skip_ws_length r5) as Hw5.
  destruct (IH (skip_ws r5) (dict_set key v0 d) ltac:(lia) ltac:(lia))
    as [Hd' Hok'].
  split; [done|]. intros v r Hr. specialize (Hok' _ _ Hr). simpl. lia.
Qed.

Lemma parse_number_total s :
  parse_number s ≠ Diverge
  ∧ ∀ v r, parse_number s = Ok (v, r) → length r < length s.
Proof.
  unfold parse_number.
  destruct (match_number s) as [[[[i fr] ex] r0]|] eqn:E; [|done].
  apply match_number_suffix in E as [_ Hl].
  destruct fr, ex; try (split; [done|]; by intros v r [= <- <-]).
  destruct (py_int i); [|done]. split; [done|]. by intros v r [= <- <-].
Qed.

Lemma scan_once_flat_total depth c t :
  (c =? ord "{")%N = false → (c =? ord "[")%N = false →
  scan_once depth (c :: t) ≠ Diverge
  ∧ ∀ v r, scan_once depth (c :: t) = Ok (v, r) → length r < length (c :: t).
Proof.
  intros H1 H2. rewrite (scan_once_any depth 0 c t H1 H2).
  cbn [scan_once]. rewrite H1, H2.
  destruct (c =? quote)%N.
  { destruct (scanstring_total (S (length t)) (c :: t) t [] ltac:(lia))
      as [Hd Hok].
    destruct (scanstring _ _ t []) as [[x r0]| | |]; [|done..]. cbn [bind].
    split; [done|]. intros v r [= <- <-]. specialize (Hok _ _ eq_refl).
    simpl. lia. }
  destruct (starts_with (py "null") (c :: t)) as [r0|] eqn:E1.
  { split; [done|]. intros v r [= <- <-].
    eapply starts_with_shorter; [|eassumption]; by vm_compute. }
  destruct (starts_with (py "true") (c :: t)) as [r0|] eqn:E2.
  { split; [done|]. intros v r [= <- <-].
    eapply starts_with_shorter; [|eassumption]; by vm_compute. }
  destruct (starts_with (py "false") (c :: t)) as [r0|] eqn:E3.
  { split; [done|]. intros v r [= <- <-].
    eapply starts_with_shorter; [|eassumption]; by vm_compute. }
  destruct (starts_with (py "NaN") (c :: t)) as [r0|] eqn:E4.
  { split; [done|]. intros v r [= <- <-].
    eapply starts_with_shorter; [|eassumption]; by vm_compute. }
  destruct (starts_with (py "Infinity") (c :: t)) as [r0|] eqn:E5.
  { split; [done|]. intros v r [= <- <-].
    eapply starts_with_shorter; [|eassumption]; by vm_compute. }
  destruct (starts_with (py "-Infinity") (c :: t)) as [r0|] eqn:E6.
  { split; [done|]. intros v r [= <- <-].
    eapply starts_with_shorter; [|eassumption]; by vm_compute. }
  apply parse_number_total.
Qed.

(** The loops of the model have fuel enough: [scan_once] returns a value
    or raises an exception, at every depth and on every text. *)
Lemma scan_once_total depth : ∀ bound, sound_scan bound (scan_once depth).
Proof.
  induction depth as [|depth IH]; intros bound s Hb;
    (destruct s as [|c t]; [done|]);
    destruct (c =? ord "{")%N eqn:E1;
    try (apply N.eqb_eq in E1 as ->; done);
    destruct (c =? ord "[")%N eqn:E2;
    try (apply N.eqb_eq in E2 as ->; done);
    try (by apply scan_once_flat_total).
  - apply N.eqb_eq in E1 as ->. rewrite scan_once_dict. unfold parse_object.
    pose proof (skip_ws_length t) as Hw.
    destruct (object_items_total _ _ (S (length (skip_ws t)))
                (IH (S (length t))) (skip_ws t) [] ltac:(lia) ltac:(lia))
      as [Hd Hok].
    assert (∀ v r, object_items (scan_once depth) (S (length (skip_ws t)))
                     (skip_ws t) [] = Ok (v, r) →
                   length r < length (ord "{" :: t)) as Hok'
      by (intros v r Hr; specialize (Hok _ _ Hr); simpl; lia).
    destruct (skip_ws t) as [|c' r'] eqn:Ew; [done|].
    destruct (c' =? ord "}")%N; [|done].
    split; [done|]. intros v r [= <- <-]. simpl in *. lia.
  - apply N.eqb_eq in E2 as ->. rewrite scan_once_list. unfold parse_array.
    pose proof (skip_ws_length t) as Hw.
    destruct (array_items_total _ _ (S (length (skip_ws t)))
                (IH (S (length t))) (skip_ws t) [] ltac:(lia) ltac:(lia))
      as [Hd Hok].
    assert (∀ v r, array_items (scan_once depth) (S (length (skip_ws t)))
                     (skip_ws t) [] = Ok (v, r) →
                   length r < length (ord "[" :: t)) as Hok'
      by (intros v r Hr; specialize (Hok _ _ Hr); simpl; lia).
    destruct (skip_ws t) as [|c' r'] eqn:Ew; [done|].
    destruct (c' =? ord "]")%N; [|done].
    split; [done|]. intros v r [= <- <-]. simpl in *. lia.
Qed.

(** [json.loads] returns a value or raises an exception: the fuel the model
    gives the loops of the decoder is never used up. *)
Lemma json_loads_total s : json_loads s ≠ Diverge.
Proof.
  unfold json_loads. destruct (starts_with _ s); [done|].
  destruct (scan_once_total recursion_depth (S (length (skip_ws s)))
              (skip_ws s) ltac:(lia)) as [Hd _].
  destruct (scan_once _ _) as [[obj r]| | |]; [|done..]. cbn [bind].
  by destruct (skip_ws r).
Qed.

End Total.

(** ** Parse failures *)

Section Failure.
Context `{PyFloat} `{PyLimits}.

(** C1.  When the cleaned text does not parse, no file is created or
    changed and the run ends with status 1.  When the decoder rejects the
    text with a [JSONDecodeError], the converter prints the error line with
    the decoder's diagnostic and calls [sys.exit(1)].  When the decoder
    leaves by another exception (an integer beyond the digit limit, nesting
    beyond the recursion limit), the handler does not catch it: the
    converter prints nothing, and the exception ends the run. *)
Theorem parse_failure_reported (path : str) (fs : gmap str str)
    (content : str) :
  fs !! path = Some content →
  (∀ data, json_loads (clean content) ≠ Ok data) →
  files (convert_jsonc_to_json path fs) = fs
  ∧ exit_status (ended (convert_jsonc_to_json path fs)) = 1
  ∧ (∀ msg rest,
       json_loads (clean content) = Err msg rest →
       stdout (convert_jsonc_to_json path fs)
       = [py "Error parsing JSON after cleaning: "
            ++ str_of_error (clean content) msg rest]
       ∧ ended (convert_jsonc_to_json path fs) = SysExit 1)
  ∧ ((∀ msg rest, json_loads (clean content) ≠ Err msg rest) →
     ∃ exc,
       json_loads (clean content) = Raise exc
       ∧ stdout (convert_jsonc_to_json path fs) = []
       ∧ ended (convert_jsonc_to_json path fs) = Uncaught exc).
Proof.
  intros Hf Hno. rewrite (convert_clean _ _ _ Hf).
  pose proof (json_loads_total (clean content)) as Htotal.
  destruct (json_loads (clean content)) as [data|msg rest|exc|]; [|..|done].
  - by destruct (Hno data).
  - split; [done|]. split; [done|]. split.
    + by intros msg' rest' [= <- <-].
    + intros Hne. by destruct (Hne msg rest).
  - split; [done|]. split; [done|]. split; [by intros msg rest|].
    intros _. by exists exc.
Qed.

End Failure.

Section FailureSamples.
#[local] Existing Instance whole_floats.
#[local] Existing Instance default_limits.

Lemma parse_failure_reported_sample :
  (sample_fs !! py "bad.jsonc" = Some (pyq "{'a': 1 'b': 2}")
   ∧ ∀ data, json_loads (clean (pyq "{'a': 1 'b': 2}")) ≠ Ok data)
  ∧ files (convert_jsonc_to_json (py "bad.jsonc") sample_fs) = sample_fs
  ∧ exit_status (ended (convert_jsonc_to_json (py "bad.jsonc") sample_fs)) = 1
  ∧ (∀ msg rest,
       json_loads (clean (pyq "{'a': 1 'b': 2}")) = Err msg rest →
       stdout (convert_jsonc_to_json (py "bad.jsonc") sample_fs)
       = [py "Error parsing JSON after cleaning: "
            ++ str_of_error (clean (pyq "{'a': 1 'b': 2}")) msg rest]
       ∧ ended (convert_jsonc_to_json (py "bad.jsonc") sample_fs) = SysExit 1)
  ∧ ((∀ msg rest,
        json_loads (clean (pyq "{'a': 1 'b': 2}")) ≠ Err msg rest) →
     ∃ exc,
       json_loads (clean (pyq "{'a': 1 'b': 2}")) = Raise exc
       ∧ stdout (convert_jsonc_to_json (py "bad.jsonc") sample_fs) = []
       ∧ ended (convert_jsonc_to_json (py "bad.jsonc") sample_fs)
         = Uncaught exc).
Proof.
  assert (sample_fs !! py "bad.jsonc" = Some (pyq "{'a': 1 'b': 2}")) as H1
    by (vm_compute; reflexivity).
  assert (∀ data, json_loads (clean (pyq "{'a': 1 'b': 2}")) ≠ Ok data) as H2
    by (intros data; vm_compute; discriminate).
  split; [by split|]. exact (parse_failure_reported _ _ _ H1 H2).
Defined.

(** The line printed for the sample with the missing comma. *)
Example parse_failure_message :
  stdout (convert_jsonc_to_json (py "bad.jsonc") sample_fs)
  = [py "Error parsing JSON after cleaning: Expecting ',' delimiter: line 1 column 9 (char 8)"].
Proof. vm_compute. reflexivity. Qed.

(** The failed run leaves the file system alone. *)
Example parse_failure_writes_nothing :
  files (convert_jsonc_to_json (py "bad.jsonc") sample_fs) = sample_fs
  ∧ ended (convert_jsonc_to_json (py "bad.jsonc") sample_fs) = SysExit 1.
Proof. by vm_compute. Qed.

(** A text that is no JSON (its array is not closed) and whose integer has
    4301 digits: the decoder raises [ValueError] at the integer, which the
    handler does not catch, and the converter prints no error line. *)
Lemma long_integer_not_reported :
  clean open_long_integer = open_long_integer
  ∧ (∀ data, json_loads (clean open_long_integer) ≠ Ok data)
  ∧ json_loads (clean open_long_integer) = Raise "ValueError"
  ∧ stdout (convert_jsonc_to_json (py "big.jsonc")
              (<[py "big.jsonc" := open_long_integer]> ∅)) = []
  ∧ ended (convert_jsonc_to_json (py "big.jsonc")
             (<[py "big.jsonc" := open_long_integer]> ∅))
    = Uncaught "ValueError".
Proof.
  assert (json_loads (clean open_long_integer) = Raise "ValueError") as Hl
    by (vm_compute; reflexivity).
  split; [vm_compute; reflexivity|]. split; [by rewrite Hl|].
  split; [done|]. split; vm_compute; reflexivity.
Qed.

(** Arrays nested beyond the recursion limit: [RecursionError], uncaught
    as well. *)
Example deep_nesting_not_reported :
  json_loads (replicate 1000 (ord "[")) = Raise "RecursionError"
  ∧ ended (convert_jsonc_to_json (py "deep.jsonc")
             (<[py "deep.jsonc" := replicate 1000 (ord "[")]> ∅))
    = Uncaught "RecursionError".
Proof. split; vm_compute; reflexivity. Qed.

End FailureSamples.

(** * Further properties of the cleaning steps *)

(** ** The steps only delete *)

Lemma block_sublist n : ∀ s,
  length s < n → remove_block_comments s `sublist_of` s.
Proof.
  induction n as [|n IH]; intros s Hn; [lia|].
  rewrite block_unfold.
  destruct (match_at block_comment_re false s) as [[t g]|] eqn:E.
  - pose proof (block_consuming _ _ _ E) as Hl.
    rewrite block_match in E. destruct s as [|a [|b u]]; try done.
    destruct (_ && _); [|done].
    destruct (find _ u) as [j|]; [|done]. injection E as <- <-.
    etrans; [apply IH; lia|]. do 2 apply sublist_cons. apply sublist_drop.
  - destruct s as [|c s']; [done|]. apply sublist_skip, IH.
    simpl in Hn. lia.
Qed.

Lemma line_sublist n : ∀ s,
  length s < n → remove_line_comments s `sublist_of` s.
Proof.
  induction n as [|n IH]; intros s Hn; [lia|].
  rewrite line_unfold.
  destruct (match_at line_comment_re false s) as [[t g]|] eqn:E.
  - pose proof (line_consuming _ _ _ E) as Hl.
    rewrite line_match in E. destruct s as [|a [|b u]]; try done.
    destruct (_ && _); [|done]. injection E as <- <-.
    etrans; [apply IH; lia|]. do 2 apply sublist_cons.
    destruct (span_suffix (cs_match (CDot false)) u) as [p Hp].
    rewrite Hp at 2. apply sublist_inserts_l. done.
  - destruct s as [|c s']; [done|]. apply sublist_skip, IH.
    simpl in Hn. lia.
Qed.

(** The shape of a trailing comma: the white space, the closer and the
    text after it. *)
Lemma closer_after_space_shape t cl r :
  closer_after_space t = Some (cl, r) →
  t = (span isspace t).1 ++ cl :: r
  ∧ mem cl [ord "]"; ord "}"] = true.
Proof.
  unfold closer_after_space. intros E.
  pose proof (span_app isspace t) as Ha.
  destruct (span isspace t).2 as [|cl' r'] eqn:Es; [done|].
  destruct (mem cl' _) eqn:Em; [|done]. by injection E as <- <-.
Qed.

Lemma comma_sublist n : ∀ s,
  length s < n → remove_trailing_commas s `sublist_of` s.
Proof.
  induction n as [|n IH]; intros s Hn; [lia|].
  rewrite comma_unfold. destruct s as [|c t]; [done|]. simpl in Hn.
  assert (c :: remove_trailing_commas t `sublist_of` c :: t) as Hkeep
    by (apply sublist_skip, IH; lia).
  destruct (c =? ord ",")%N; [|done].
  destruct (closer_after_space t) as [[cl r]|] eqn:E; [|done].
  apply closer_after_space_shape in E as [Ht _].
  apply sublist_cons. rewrite Ht.
  apply sublist_inserts_l, sublist_skip, IH.
  apply (f_equal length) in Ht. rewrite length_app in Ht. simpl in Ht. lia.
Qed.

(** X1.  The three steps only delete characters: the cleaned text is the
    input with some of its characters left out, the others in their order. *)
Theorem cleaning_only_deletes (s : str) : clean s `sublist_of` s.
Proof.
  unfold clean.
  etrans; [eapply comma_sublist, Nat.lt_succ_diag_r|].
  etrans; [eapply line_sublist, Nat.lt_succ_diag_r|].
  eapply block_sublist, Nat.lt_succ_diag_r.
Qed.

(** ** No [//] is left *)

Lemma find_slashes_cons a t :
  find (py "//") (a :: t) = None
  ↔ (a =? ord "/")%N && starts_with_slash t = false
    ∧ find (py "//") t = None.
Proof.
  cbn [find]. change (py "//") with [ord "/"; ord "/"].
  cbn [starts_with]. unfold starts_with_slash.
  destruct (a =? ord "/")%N; cbn [andb].
  - destruct t as [|b u]; [by split; [|intros [_ ?]]|].
    destruct (b =? ord "/")%N.
    + split; [done | by intros [? _]].
    + destruct (find _ (b :: u)); split; try done; by intros [_ ?].
  - destruct (find _ t); split; try done; by intros [_ ?].
Qed.

(** A line comment ends at the end of the text or before a line break. *)
Lemma comment_end u :
  (span (cs_match (CDot false)) u).2 = []
  ∨ ∃ r, (span (cs_match (CDot false)) u).2 = ord "010" :: r.
Proof.
  destruct (span (cs_match (CDot false)) u).2 as [|c r] eqn:E; [by left|].
  right. exists r. f_equal. apply span_stop in E.
  change (negb (c =? ord "010")%N = false) in E.
  by apply negb_false_iff, N.eqb_eq in E.
Qed.

Lemma line_break_kept r :
  remove_line_comments (ord "010" :: r) = ord "010" :: remove_line_comments r.
Proof. apply line_step. rewrite line_match. by destruct r. Qed.

Lemma line_head s :
  starts_with_slash (remove_line_comments s) = true →
  starts_with_slash s = true.
Proof.
  rewrite line_unfold, line_match. destruct s as [|a [|b u]]; try done.
  destruct (_ && _); [|done].
  destruct (comment_end u) as [->|[r ->]]; [by rewrite line_unfold|].
  by rewrite line_break_kept.
Qed.

Lemma line_slashes n : ∀ s,
  length s < n → find (py "//") (remove_line_comments s) = None.
Proof.
  induction n as [|n IH]; intros s Hn; [lia|].
  rewrite line_unfold.
  destruct (match_at line_comment_re false s) as [[t g]|] eqn:E.
  - pose proof (line_consuming _ _ _ E) as Hl. apply IH. lia.
  - destruct s as [|c s']; [done|]. simpl in Hn.
    apply find_slashes_cons. split; [|apply IH; lia].
    destruct (c =? ord "/")%N eqn:Ec; [|done]. cbn [andb].
    destruct (starts_with_slash (remove_line_comments s')) eqn:Eh; [|done].
    apply line_head in Eh. rewrite line_match in E.
    destruct s' as [|b u]; [done|]. simpl in Eh.
    by rewrite Ec, Eh in E.
Qed.

(** X2.  After the line-comment step no [//] is left in the text, so that
    running the step again changes nothing. *)
Theorem line_comments_gone (s : str) :
  find (py "//") (remove_line_comments s) = None
  ∧ remove_line_comments (remove_line_comments s) = remove_line_comments s.
Proof.
  assert (find (py "//") (remove_line_comments s) = None) as Hf
    by (eapply line_slashes, Nat.lt_succ_diag_r).
  split; [done|]. by apply line_no_opener.
Qed.

Lemma comma_head s :
  starts_with_slash (remove_trailing_commas s) = true →
  starts_with_slash s = true.
Proof.
  rewrite comma_unfold. destruct s as [|c t]; [done|].
  destruct (c =? ord ",")%N; [|done].
  destruct (closer_after_space t) as [[cl r]|] eqn:E; [|done].
  apply closer_after_space_shape in E as [_ Hcl]. simpl in *. ords.
  destruct (N.eqb_spec cl 47%N) as [->|]; done.
Qed.

Lemma find_app_none p a b : find p (a ++ b) = None → find p b = None.
Proof.
  intros Hf. apply (find_drop _ (length a)) in Hf. by rewrite drop_app_length in Hf.
Qed.

Lemma comma_slashes n : ∀ s,
  length s < n → find (py "//") s = None →
  find (py "//") (remove_trailing_commas s) = None.
Proof.
  induction n as [|n IH]; intros s Hn Hf; [lia|].
  rewrite comma_unfold. destruct s as [|c t]; [done|]. simpl in Hn.
  apply find_slashes_cons in Hf as [Hc Ht].
  assert (find (py "//") (c :: remove_trailing_commas t) = None) as Hkeep.
  { apply find_slashes_cons. split; [|apply IH; [lia | done]].
    destruct (c =? ord "/")%N; [|done]. cbn [andb] in *.
    destruct (starts_with_slash (remove_trailing_commas t)) eqn:Eh; [|done].
    apply comma_head in Eh. congruence. }
  destruct (c =? ord ",")%N; [|done].
  destruct (closer_after_space t) as [[cl r]|] eqn:E; [|done].
  apply closer_after_space_shape in E as [Hs Hcl].
  assert (find (py "//") r = None) as Hr.
  { rewrite Hs in Ht. apply find_app_none in Ht. by eapply find_tail. }
  apply find_slashes_cons. split.
  - simpl in Hcl. ords. destruct (N.eqb_spec cl 47%N) as [->|]; done.
  - apply IH; [|done]. apply (f_equal length) in Hs.
    rewrite length_app in Hs. simpl in Hs. lia.
Qed.

(** X3.  The cleaned text holds no [//], wherever the input had one: the
    decoder is never given two slashes in a row. *)
Theorem cleaned_text_has_no_double_slash (s : str) :
  find (py "//") (clean s) = None.
Proof.
  unfold clean. eapply comma_slashes; [apply Nat.lt_succ_diag_r|].
  eapply line_slashes, Nat.lt_succ_diag_r.
Qed.

(** ** Line breaks and closers *)

Lemma count_char_app c a b :
  count_char c (a ++ b) = count_char c a + count_char c b.
Proof. induction a as [|d a IH]; simpl; [done|]. rewrite IH. lia. Qed.

Lemma comment_no_break u :
  count_char (ord "010") (span (cs_match (CDot false)) u).1 = 0.
Proof.
  induction u as [|c u IH]; [done|]. cbn [span].
  destruct (cs_match (CDot false) c) eqn:Ec; [|done].
  destruct (span (cs_match (CDot false)) u) as [a b]. simpl in *.
  change (negb (c =? ord "010")%N = true) in Ec.
  apply negb_true_iff in Ec. by rewrite Ec.
Qed.

Lemma line_breaks n : ∀ s,
  length s < n →
  count_char (ord "010") (remove_line_comments s) = count_char (ord "010") s.
Proof.
  induction n as [|n IH]; intros s Hn; [lia|].
  rewrite line_unfold.
  destruct (match_at line_comment_re false s) as [[t g]|] eqn:E.
  - pose proof (line_consuming _ _ _ E) as Hl.
    rewrite line_match in E. destruct s as [|a [|b u]]; try done.
    destruct (a =? ord "/")%N eqn:Ea; [|done].
    destruct (b =? ord "/")%N eqn:Eb; [|done]. injection E as <- <-.
    rewrite IH by lia. apply N.eqb_eq in Ea, Eb. subst a b.
    rewrite <- (span_app (cs_match (CDot false)) u) at 2.
    change (count_char (ord "010") (ord "/" :: ord "/" :: ?x))
      with (count_char (ord "010") x).
    by rewrite count_char_app, comment_no_break.
  - destruct s as [|c s']; [done|]. simpl in Hn |- *. rewrite IH by lia. done.
Qed.

(** X4.  The line-comment step keeps every line break: the text has as many
    lines after it as before. *)
Theorem line_breaks_kept (s : str) :
  count_char (ord "010") (remove_line_comments s) = count_char (ord "010") s.
Proof. eapply line_breaks, Nat.lt_succ_diag_r. Qed.

Lemma without_filler_space w :
  Forall (λ c, isspace c = true) w → without_filler w = [].
Proof.
  induction 1 as [|c w Hc _ IH]; [done|]. unfold without_filler in *.
  cbn [List.filter]. unfold filler. by rewrite Hc, orb_true_r.
Qed.

Lemma comma_filler n : ∀ s,
  length s < n →
  without_filler (remove_trailing_commas s) = without_filler s.
Proof.
  induction n as [|n IH]; intros s Hn; [lia|].
  rewrite comma_unfold. destruct s as [|c t]; [done|]. simpl in Hn.
  assert (without_filler (c :: remove_trailing_commas t)
          = without_filler (c :: t)) as Hkeep.
  { unfold without_filler in *. cbn [List.filter]. rewrite IH by lia. done. }
  destruct (c =? ord ",")%N eqn:Ec; [|done].
  destruct (closer_after_space t) as [[cl r]|] eqn:E; [|done].
  apply closer_after_space_shape in E as [Hs Hcl].
  pose proof (span_all isspace t) as Hall.
  revert Hs Hall. generalize (span isspace t).1. intros w Hs Hall.
  apply without_filler_space in Hall.
  assert (length r < n) as Hr.
  { apply (f_equal length) in Hs. rewrite length_app in Hs. simpl in Hs. lia. }
  specialize (IH r Hr). subst t. unfold without_filler in *.
  assert (filler c = true) as Hfc by (unfold filler; by rewrite Ec).
  cbn [List.filter]. rewrite Hfc. cbn [negb].
  rewrite List.filter_app, Hall. cbn [app List.filter]. by rewrite IH.
Qed.

(** X5.  The trailing-comma step deletes commas and white space and nothing
    else: without its commas and white space, the text is the same before
    and after the step. *)
Theorem trailing_comma_step_deletes_filler (s : str) :
  without_filler (remove_trailing_commas s) = without_filler s.
Proof. eapply comma_filler, Nat.lt_succ_diag_r. Qed.

(** ** A block comment counts as absent *)

(** Text before the first [/*] is kept as it is. *)
Lemma block_prefix_kept pre x :
  find (py "/*") (pre ++ take 1 x) = None →
  remove_block_comments (pre ++ x) = pre ++ remove_block_comments x.
Proof.
  induction pre as [|c pre IH]; intros Hf; [done|].
  pose proof (find_tail _ _ _ Hf) as Ht.
  cbn [app]. rewrite block_unfold, block_match, (IH Ht).
  destruct (pre ++ x) as [|b u] eqn:E; [done|].
  destruct ((c =? ord "/")%N && (b =? ord "*")%N) eqn:Ecb; [|done].
  apply andb_true_iff in Ecb as [Ec Eb]. exfalso.
  assert (∃ u', pre ++ take 1 x = b :: u') as [u' Eu].
  { destruct pre as [|p pre']; [|injection E as -> _; eauto].
    destruct x as [|y x']; [done|]. injection E as -> _. by exists []. }
  cbn [app find] in Hf. rewrite Eu in Hf.
  change (py "/*") with [ord "/"; ord "*"] in Hf. cbn [starts_with] in Hf.
  by rewrite Ec, Eb in Hf.
Qed.

Lemma find_opener_slash pre y :
  find (py "/*") (pre ++ y) = None → find (py "/*") (pre ++ [ord "/"]) = None.
Proof.
  induction pre as [|c pre IH]; intros Hf; [done|].
  pose proof (IH (find_tail _ _ _ Hf)) as Ht.
  cbn [app find] in Hf |- *. rewrite Ht. cbn [fmap option_fmap option_map].
  change (py "/*") with [ord "/"; ord "*"] in *. cbn [starts_with] in Hf |- *.
  destruct (c =? ord "/")%N; [|done].
  destruct pre as [|b pre']; [done|]. cbn [app] in *.
  by destruct (b =? ord "*")%N.
Qed.

(** The nearest [*/] after a text that holds none. *)
Lemma find_closer_app body post :
  find (py "*/") body = None →
  find (py "*/") (body ++ py "*/" ++ post) = Some (length body).
Proof.
  induction body as [|c body IH]; intros Hf; [done|].
  pose proof (IH (find_tail _ _ _ Hf)) as Ht.
  cbn [app find length] in Hf |- *. rewrite Ht.
  cbn [fmap option_fmap option_map].
  change (py "*/") with [ord "*"; ord "/"] in *. cbn [starts_with] in Hf |- *.
  destruct (c =? ord "*")%N; [|done].
  destruct body as [|b body']; [done|]. cbn [app] in *.
  by destruct (b =? ord "/")%N.
Qed.

(** X6.  A block comment that stands after text without [/*] counts as
    absent: the text cleans to what it would clean to without the comment,
    provided that taking the comment out does not bring a [/] and a [*]
    together. *)
Theorem block_comment_is_transparent (pre body post : str) :
  find (py "/*") (pre ++ take 1 post) = None →
  find (py "*/") body = None →
  clean (pre ++ py "/*" ++ body ++ py "*/" ++ post) = clean (pre ++ post).
Proof.
  intros Hpre Hbody. unfold clean. do 2 f_equal.
  rewrite (block_prefix_kept pre post Hpre).
  rewrite block_prefix_kept by (by eapply find_opener_slash).
  f_equal.
  change (py "/*" ++ body ++ py "*/" ++ post)
    with (ord "/" :: ord "*" :: (body ++ py "*/" ++ post)).
  rewrite block_unfold, block_match, !N.eqb_refl. cbn [andb]. rewrite (find_closer_app _ _ Hbody).
  cbn [fmap option_fmap option_map]. f_equal.
  by rewrite drop_app_add.
Qed.

Lemma block_comment_is_transparent_sample :
  (find (py "/*") (py "[1," ++ take 1 (py "]")) = None
   ∧ find (py "*/") (py " one * two / ") = None)
  ∧ clean (py "[1," ++ py "/*" ++ py " one * two / " ++ py "*/" ++ py "]")
    = clean (py "[1," ++ py "]").
Proof.
  assert (find (py "/*") (py "[1," ++ take 1 (py "]")) = None) as H1
    by (vm_compute; reflexivity).
  assert (find (py "*/") (py " one * two / ") = None) as H2
    by (vm_compute; reflexivity).
  split; [by split|]. exact (block_comment_is_transparent _ _ _ H1 H2).
Defined.

(** The comma before the comment is a trailing comma all the same. *)
Example comment_before_closer :
  clean (py "[1, /* last */ ]") = py "[1]".
Proof. vm_compute. reflexivity. Qed.

(** * Further properties of the script *)

(** ** The output path *)

(** X9.  The output path ends in [.json], and it is its own output path:
    converting a file under that name writes the file itself. *)
Theorem output_path_fixed_point (p : str) :
  py ".json" `suffix_of` output_path_of p
  ∧ output_path_of (output_path_of p) = output_path_of p.
Proof.
  split.
  - by exists (item0 (rsplit1 (ord ".") p)).
  - apply output_is_input. by exists (item0 (rsplit1 (ord ".") p)).
Qed.

(** A dot in a directory name is taken for the start of the extension. *)
Example output_path_dotted_directory :
  output_path_of (py "conf.d/settings") = py "conf.json".
Proof. vm_compute. reflexivity. Qed.

(** ** Texts the decoder rejects at once *)

Lemma str_of_error_start doc msg :
  str_of_error doc msg doc = msg ++ py ": line 1 column 1 (char 0)".
Proof. unfold str_of_error. by rewrite Nat.sub_diag. Qed.

Lemma clean_head c t :
  (c =? ord "/")%N = false → (c =? ord ",")%N = false →
  ∃ t', clean (c :: t) = c :: t'.
Proof.
  intros Hs Hc. unfold clean.
  assert (remove_block_comments (c :: t) = c :: remove_block_comments t) as ->.
  { rewrite block_unfold, block_match. destruct t; [done|]. by rewrite Hs. }
  assert (∀ u, remove_line_comments (c :: u) = c :: remove_line_comments u)
    as ->.
  { intros u. rewrite line_unfold, line_match. destruct u; [done|].
    by rewrite Hs. }
  rewrite comma_unfold, Hc. eauto.
Qed.

Lemma span_whole p s : forallb p s = true → span p s = (s, []).
Proof.
  induction s as [|c s IH]; [done|]. cbn [forallb span].
  intros [-> Hs]%andb_true_iff. by rewrite (IH Hs).
Qed.

Section Rejected.
Context `{PyFloat} `{PyLimits}.

(** X7.  A text that starts with the byte order mark U+FEFF is never
    converted: the mark survives the cleaning, the decoder refuses it, and
    the run ends with status 1 without writing. *)
Theorem byte_order_mark_rejected (path : str) (fs : gmap str str) (t : str) :
  fs !! path = Some (0xfeff%N :: t) →
  convert_jsonc_to_json path fs =
    {| stdout := [py "Error parsing JSON after cleaning: "
                    ++ py "Unexpected UTF-8 BOM (decode using utf-8-sig)"
                    ++ py ": line 1 column 1 (char 0)"];
       files := fs;
       ended := SysExit 1 |}.
Proof.
  intros Hf. rewrite (convert_clean _ _ _ Hf).
  destruct (clean_head 0xfeff%N t eq_refl eq_refl) as [t' ->].
  unfold json_loads. cbn [starts_with]. rewrite N.eqb_refl.
  by rewrite str_of_error_start.
Qed.

Lemma json_loads_blank s :
  blank s = true → json_loads s = Err (py "Expecting value") [].
Proof.
  intros Hb. unfold json_loads.
  assert (starts_with [0xfeff%N] s = None) as ->.
  { destruct s as [|c s']; [done|]. cbn [blank forallb] in Hb.
    apply andb_true_iff in Hb as [Hc _]. cbn [starts_with].
    destruct (N.eqb_spec c 0xfeff%N) as [->|]; done. }
  unfold skip_ws. rewrite (span_whole _ _ Hb). cbn [snd].
  by destruct recursion_depth.
Qed.

(** X8.  A text that cleans to nothing but white space, such as an empty
    file or a file of comments only, is rejected: the decoder expects a
    value at the end of the text, and the run ends with status 1 without
    writing. *)
Theorem blank_text_rejected (path : str) (fs : gmap str str) (content : str) :
  fs !! path = Some content →
  blank (clean content) = true →
  convert_jsonc_to_json path fs =
    {| stdout := [py "Error parsing JSON after cleaning: "
                    ++ str_of_error (clean content) (py "Expecting value") []];
       files := fs;
       ended := SysExit 1 |}.
Proof.
  intros Hf Hb. rewrite (convert_clean _ _ _ Hf).
  by rewrite (json_loads_blank _ Hb).
Qed.

End Rejected.

Section RejectedSamples.
#[local] Existing Instance whole_floats.
#[local] Existing Instance default_limits.

Lemma byte_order_mark_rejected_sample :
  <[py "bom.jsonc" := 0xfeff%N :: py "[1]"]> sample_fs !! py "bom.jsonc"
    = Some (0xfeff%N :: py "[1]")
  ∧ convert_jsonc_to_json (py "bom.jsonc")
      (<[py "bom.jsonc" := 0xfeff%N :: py "[1]"]> sample_fs) =
    {| stdout := [py "Error parsing JSON after cleaning: "
                    ++ py "Unexpected UTF-8 BOM (decode using utf-8-sig)"
                    ++ py ": line 1 column 1 (char 0)"];
       files := <[py "bom.jsonc" := 0xfeff%N :: py "[1]"]> sample_fs;
       ended := SysExit 1 |}.
Proof.
  assert (<[py "bom.jsonc" := 0xfeff%N :: py "[1]"]> sample_fs
            !! py "bom.jsonc" = Some (0xfeff%N :: py "[1]")) as H1
    by (vm_compute; reflexivity).
  split; [exact H1|]. exact (byte_order_mark_rejected _ _ _ H1).
Defined.

Lemma blank_text_rejected_sample :
  (<[py "c.jsonc" := py "/* nothing */ // here
"]> sample_fs !! py "c.jsonc" = Some (py "/* nothing */ // here
")
   ∧ blank (clean (py "/* nothing */ // here
")) = true)
  ∧ convert_jsonc_to_json (py "c.jsonc")
      (<[py "c.jsonc" := py "/* nothing */ // here
"]> sample_fs) =
    {| stdout := [py "Error parsing JSON after cleaning: "
                    ++ str_of_error (clean (py "/* nothing */ // here
")) (py "Expecting value") []];
       files := <[py "c.jsonc" := py "/* nothing */ // here
"]> sample_fs;
       ended := SysExit 1 |}.
Proof.
  assert (<[py "c.jsonc" := py "/* nothing */ // here
"]> sample_fs !! py "c.jsonc" = Some (py "/* nothing */ // here
")) as H1 by (vm_compute; reflexivity).
  assert (blank (clean (py "/* nothing */ // here
")) = true) as H2 by (vm_compute; reflexivity).
  split; [by split|]. exact (blank_text_rejected _ _ _ H1 H2).
Defined.

(** The line printed for an empty file. *)
Example empty_file_message :
  stdout (convert_jsonc_to_json (py "e.jsonc") (<[py "e.jsonc" := []]> ∅))
  = [py "Error parsing JSON after cleaning: Expecting value: line 1 column 1 (char 0)"].
Proof. vm_compute. reflexivity. Qed.

(** The line printed for the file of comments: the position is one of the
    cleaned text, which has lost the first comment and kept the line break. *)
Example comment_file_message :
  stdout (convert_jsonc_to_json (py "c.jsonc")
            (<[py "c.jsonc" := py "/* nothing */ // here
"]> ∅))
  = [py "Error parsing JSON after cleaning: Expecting value: line 2 column 1 (char 2)"].
Proof. vm_compute. reflexivity. Qed.

End RejectedSamples.

(** ** What a run writes *)

Section Runs.
Context `{PyFloat} `{PyLimits}.

(** X10.  A run writes no file but the output file of its first argument,
    and it removes no file. *)
Theorem other_files_untouched (argv : list str) (fs : gmap str str) :
  (∀ p, p ≠ output_path_of (nth 1 argv []) →
        files (main argv fs) !! p = fs !! p)
  ∧ dom fs ⊆@{gset str} dom (files (main argv fs)).
Proof.
  unfold main. destruct (length argv <? 2); [done|].
  destruct (convert_files (nth 1 argv []) fs) as [->|[text ->]]; [done|].
  split.
  - intros p Hp. by rewrite lookup_insert_ne.
  - rewrite dom_insert. set_solver.
Qed.



(** X13.  The value parsed from the cleaned text of a file is well formed:
    no object of it has two equal keys, and no string of it holds a surrogate
    pair as two code points. *)
Theorem parsed_value_well_formed (content : str) (data : json) :
  scalar_text content = true →
  json_loads (clean content) = Ok data →
  wf_json data.
Proof.
  intros Hs Hd. eapply json_loads_wf; [|done].
  apply clean_kept. by apply scalar_text_forall.
Qed.

(** X11.  When a run of the converter ends normally, the output file exists
    and holds the serialized value of the cleaned text, and that file is
    JSON: the decoder reads it back as the same value. *)
Theorem successful_output_parses_back (path : str) (fs : gmap str str)
    (content : str) :
  float_law →
  scalar_text content = true →
  fs !! path = Some content →
  ended (convert_jsonc_to_json path fs) = Finished →
  ∃ data,
    json_loads (clean content) = Ok data
    ∧ files (convert_jsonc_to_json path fs) !! output_path_of path
      = Some (json_dumps data)
    ∧ json_loads (json_dumps data) = Ok data.
Proof.
  intros Hfloat Hs Hf. rewrite (convert_clean _ _ _ Hf).
  destruct (json_loads (clean content)) as [data| | |] eqn:Hd; [|done..].
  intros _. exists data. split; [done|]. cbn [files].
  split; [by rewrite lookup_insert_eq|].
  apply loads_dumps; [done| |by eapply json_loads_fits].
  eapply json_loads_wf; [|done].
  apply clean_kept. by apply scalar_text_forall.
Qed.

End Runs.

Section RunsSamples.
#[local] Existing Instance whole_floats.
#[local] Existing Instance default_limits.


(** A missing input file: the exception is not caught, nothing is printed
    and nothing is written. *)
Example missing_input_file :
  main [py "x.py"; py "none.jsonc"] sample_fs
  = {| stdout := []; files := sample_fs;
       ended := Uncaught "FileNotFoundError" |}.
Proof. by vm_compute. Qed.

Lemma parsed_value_well_formed_sample :
  (scalar_text (pyq "{'a': 1, 'b': 2, 'a': 3}") = true
   ∧ json_loads (clean (pyq "{'a': 1, 'b': 2, 'a': 3}"))
     = Ok (JDict [(py "a", JInt 3); (py "b", JInt 2)]))
  ∧ wf_json (JDict [(py "a", JInt 3); (py "b", JInt 2)]).
Proof.
  assert (scalar_text (pyq "{'a': 1, 'b': 2, 'a': 3}") = true) as H1
    by (vm_compute; reflexivity).
  assert (json_loads (clean (pyq "{'a': 1, 'b': 2, 'a': 3}"))
          = Ok (JDict [(py "a", JInt 3); (py "b", JInt 2)])) as H2
    by (vm_compute; reflexivity).
  split; [by split|]. exact (parsed_value_well_formed _ _ H1 H2).
Defined.

Lemma successful_output_parses_back_sample :
  (scalar_text (pyq "{'a': /* c */ 1, // x
  'b': [1, 2,],}") = true
   ∧ sample_fs !! py "a.b.jsonc" = Some (pyq "{'a': /* c */ 1, // x
  'b': [1, 2,],}")
   ∧ ended (convert_jsonc_to_json (py "a.b.jsonc") sample_fs) = Finished)
  ∧ ∃ data,
      json_loads (clean (pyq "{'a': /* c */ 1, // x
  'b': [1, 2,],}")) = Ok data
      ∧ files (convert_jsonc_to_json (py "a.b.jsonc") sample_fs)
          !! output_path_of (py "a.b.jsonc")
        = Some (json_dumps data)
      ∧ json_loads (json_dumps data) = Ok data.
Proof.
  assert (scalar_text (pyq "{'a': /* c */ 1, // x
  'b': [1, 2,],}") = true) as H1 by (vm_compute; reflexivity).
  assert (sample_fs !! py "a.b.jsonc" = Some (pyq "{'a': /* c */ 1, // x
  'b': [1, 2,],}")) as H2 by (vm_compute; reflexivity).
  assert (ended (convert_jsonc_to_json (py "a.b.jsonc") sample_fs) = Finished)
    as H3 by (vm_compute; reflexivity).
  split; [by repeat split|].
  exact (successful_output_parses_back _ _ _ whole_floats_law H1 H2 H3).
Defined.

(** The file written for the sample with comments and trailing commas. *)
Example commented_sample_output :
  files (convert_jsonc_to_json (py "a.b.jsonc") sample_fs) !! py "a.b.json"
  = Some (pyq "{
    'a': 1,
    'b': [
        1,
        2
    ]
}").
Proof. vm_compute. reflexivity. Qed.

End RunsSamples.

(** ** The written text is ASCII *)

Lemma ascii_text_app a b : ascii_text (a ++ b) = ascii_text a && ascii_text b.
Proof. apply forallb_app. Qed.

Lemma ascii_text_flat_map {A} (f : A → str) l :
  Forall (λ x, ascii_text (f x) = true) l → ascii_text (flat_map f l) = true.
Proof.
  induction 1 as [|x l Hx _ IH]; [done|].
  cbn [flat_map]. by rewrite ascii_text_app, Hx, IH.
Qed.

Lemma hex_char_ascii n : ascii_text [hex_char (N.land n 15)] = true.
Proof.
  assert (N.land n 15 < 16)%N as Hn.
  { change 15%N with (N.ones 4). rewrite N.land_ones. by apply N.mod_lt. }
  unfold ascii_text, hex_char. cbn [forallb]. rewrite andb_true_r. ords.
  apply N.ltb_lt. destruct (N.ltb_spec (N.land n 15) 10); lia.
Qed.

Lemma u_escape_ascii n : ascii_text (u_escape n) = true.
Proof.
  unfold u_escape.
  change (ascii_text ([ord "\"; ord "u"]
            ++ [hex_char (N.land (N.shiftr n 12) 15)]
            ++ [hex_char (N.land (N.shiftr n 8) 15)]
            ++ [hex_char (N.land (N.shiftr n 4) 15)]
            ++ [hex_char (N.land n 15)]) = true).
  by rewrite !ascii_text_app, !hex_char_ascii.
Qed.

Lemma escape_char_ascii c : ascii_text (escape_char c) = true.
Proof.
  unfold escape_char.
  repeat (match goal with
          | |- context [if (c =? ?x)%N then _ else _] =>
              destruct (c =? x)%N; [done|]
          end).
  destruct (_ && _) eqn:Ec.
  { apply andb_true_iff in Ec as [_ Ec]. apply N.leb_le in Ec.
    unfold ascii_text. cbn [forallb]. rewrite andb_true_r.
    apply N.ltb_lt. revert Ec. ords. lia. }
  destruct (c <? 0x10000)%N; [apply u_escape_ascii|].
  by rewrite ascii_text_app, !u_escape_ascii.
Qed.

Lemma basestring_ascii s : ascii_text (encode_basestring_ascii s) = true.
Proof.
  unfold encode_basestring_ascii.
  change (ascii_text ([quote] ++ flat_map escape_char s ++ [quote]) = true).
  rewrite !ascii_text_app, ascii_text_flat_map; [done|].
  apply Forall_forall. intros c _. apply escape_char_ascii.
Qed.

Lemma digits_ascii ds :
  Forall (λ c, is_digit c = true) ds → ascii_text ds = true.
Proof.
  induction 1 as [|c ds Hc _ IH]; [done|].
  unfold ascii_text in *. cbn [forallb]. rewrite IH, andb_true_r.
  unfold is_digit in Hc. apply andb_true_iff in Hc as [_ Hc].
  apply N.leb_le in Hc. apply N.ltb_lt. revert Hc. ords. lia.
Qed.

Lemma intstr_ascii n : ascii_text (intstr n) = true.
Proof.
  unfold intstr. destruct (Z.to_int n) as [u|u].
  - apply digits_ascii, str_of_uint_digits.
  - change (ascii_text ([ord "-"] ++ str_of_uint u) = true).
    rewrite ascii_text_app. by rewrite (digits_ascii _ (str_of_uint_digits u)).
Qed.

Lemma newline_indent_ascii n : ascii_text (newline_indent n) = true.
Proof.
  unfold newline_indent. generalize (4 * n). intros m.
  change (ascii_text ([ord "010"] ++ replicate m (ord " ")) = true).
  rewrite ascii_text_app. cbn [ascii_text forallb andb].
  by induction m.
Qed.

Section Ascii.
Context `{PyFloat} `{PyLimits}.
Hypothesis Hrepr : ∀ x, ascii_text (floatstr x) = true.

Lemma encode_ascii v : ∀ lvl, ascii_text (encode lvl v) = true.
Proof.
  induction v as [|b|n|x|s|l IH|d IH] using json_induction; intros lvl.
  - done.
  - by destruct b.
  - apply intstr_ascii.
  - apply Hrepr.
  - apply basestring_ascii.
  - destruct l as [|v l]; [done|]. apply Forall_cons in IH as [Hv Hl].
    cbn [encode].
    change (ascii_text ([ord "["] ++ newline_indent (S lvl)
              ++ encode (S lvl) v
              ++ flat_map (λ v', [ord ","] ++ newline_indent (S lvl)
                                   ++ encode (S lvl) v') l
              ++ newline_indent lvl ++ [ord "]"]) = true).
    rewrite !ascii_text_app, !newline_indent_ascii, Hv.
    rewrite ascii_text_flat_map; [done|].
    eapply Forall_impl; [exact Hl|]. intros v' Hv'. cbn beta.
    by rewrite !ascii_text_app, newline_indent_ascii, Hv'.
  - destruct d as [|[k v] d]; [done|]. apply Forall_cons in IH as [Hv Hd].
    cbn [encode snd] in *.
    change (ascii_text ([ord "{"] ++ newline_indent (S lvl)
              ++ encode_basestring_ascii k ++ py ": " ++ encode (S lvl) v
              ++ flat_map (λ kv, [ord ","] ++ newline_indent (S lvl)
                                   ++ encode_basestring_ascii kv.1 ++ py ": "
                                   ++ encode (S lvl) kv.2) d
              ++ newline_indent lvl ++ [ord "}"]) = true).
    rewrite !ascii_text_app, !newline_indent_ascii, basestring_ascii, Hv.
    rewrite ascii_text_flat_map; [done|].
    eapply Forall_impl; [exact Hd|]. intros [k' v'] Hv'. cbn beta.
    cbn [fst snd] in *.
    by rewrite !ascii_text_app, newline_indent_ascii, basestring_ascii, Hv'.
Qed.

End Ascii.

Section WrittenText.
Context `{PyFloat} `{PyLimits}.

(** X12.  The text a successful run writes is of the ASCII range, whatever
    the input held: the encoder escapes every other character.  What is
    asked of [float] is that the text of a float is of that range. *)
Theorem written_text_is_ascii (path : str) (fs : gmap str str) :
  (∀ x, ascii_text (floatstr x) = true) →
  ended (convert_jsonc_to_json path fs) = Finished →
  ∃ text,
    files (convert_jsonc_to_json path fs) !! output_path_of path = Some text
    ∧ ascii_text text = true.
Proof.
  intros Hrepr. unfold convert_jsonc_to_json.
  destruct (fs !! path) as [content|]; [|done].
  destruct (json_loads _) as [data| | |]; [|done..]. intros _.
  exists (json_dumps data). cbn [files].
  split; [by rewrite lookup_insert_eq|]. by apply encode_ascii.
Qed.

End WrittenText.

Lemma whole_floats_ascii :
  ∀ x : @float whole_floats, ascii_text (@floatstr whole_floats x) = true.
Proof.
  intros x. cbn [floatstr whole_floats].
  by rewrite ascii_text_app, intstr_ascii.
Qed.

Section WrittenTextSamples.
#[local] Existing Instance whole_floats.
#[local] Existing Instance default_limits.

Lemma written_text_is_ascii_sample :
  ended (convert_jsonc_to_json (py "u.jsonc")
           (<[py "u.jsonc" := pyq "['" ++ [0xe9%N; 0x1f600%N] ++ pyq "']"]> ∅))
  = Finished
  ∧ ∃ text,
      files (convert_jsonc_to_json (py "u.jsonc")
               (<[py "u.jsonc" := pyq "['" ++ [0xe9%N; 0x1f600%N] ++ pyq "']"]> ∅))
        !! output_path_of (py "u.jsonc") = Some text
      ∧ ascii_text text = true.
Proof.
  assert (ended (convert_jsonc_to_json (py "u.jsonc")
           (<[py "u.jsonc" := pyq "['" ++ [0xe9%N; 0x1f600%N] ++ pyq "']"]> ∅))
          = Finished) as H1 by (vm_compute; reflexivity).
  split; [exact H1|].
  exact (written_text_is_ascii _ _ whole_floats_ascii H1).
Defined.

(** The file written for a string with an accented letter and an emoji. *)
Example escaped_output :
  files (convert_jsonc_to_json (py "u.jsonc")
           (<[py "u.jsonc" := pyq "['" ++ [0xe9%N; 0x1f600%N] ++ pyq "']"]> ∅))
    !! py "u.json"
  = Some (pyq "[
    '\u00e9\ud83d\ude00'
]").
Proof. vm_compute. reflexivity. Qed.

End WrittenTextSamples.

(** ** Every path has an output path of one of two shapes *)

Lemma rpartition_some sep s a b :
  rpartition sep s = Some (a, b) → s = a ++ sep :: b ∧ mem sep b = false.
Proof.
  revert a. induction s as [|c t IH]; intros a; [done|]. cbn [rpartition].
  destruct (rpartition sep t) as [[a' b']|] eqn:E.
  - intros [= <- <-]. destruct (IH _ eq_refl) as [-> Hb]. by split.
  - destruct (N.eqb_spec c sep) as [->|]; [|done]. intros [= <- <-].
    split; [done|]. clear IH. induction t as [|d t IH]; [done|].
    cbn [rpartition] in E. cbn [mem].
    destruct (rpartition sep t) as [[a' b']|]; [done|].
    rewrite (N.eqb_sym sep d). destruct (d =? sep)%N; [done|]. by apply IH.
Qed.

Lemma rpartition_none_inv sep s : rpartition sep s = None → mem sep s = false.
Proof.
  induction s as [|d t IH]; [done|]. cbn [rpartition mem].
  destruct (rpartition sep t) as [[a' b']|]; [done|].
  rewrite (N.eqb_sym sep d). destruct (d =? sep)%N; [done|]. by apply IH.
Qed.

(** X16.  Every path is split in one of two ways: a path without [.] is the
    base itself, any other path is the base, a [.] and an extension without
    [.]; the output path is the base with [.json], so it starts like the
    input path and differs from it after the rightmost [.] only. *)
Theorem output_path_shape (p : str) :
  ∃ base,
    output_path_of p = base ++ py ".json"
    ∧ base `prefix_of` p
    ∧ ((p = base ∧ mem (ord ".") p = false)
       ∨ ∃ ext, p = base ++ ord "." :: ext ∧ mem (ord ".") ext = false).
Proof.
  unfold output_path_of, rsplit1.
  destruct (rpartition (ord ".") p) as [[a b]|] eqn:E.
  - apply rpartition_some in E as [-> Hb]. exists a.
    split; [done|]. split; [by eexists|]. right. by exists b.
  - apply rpartition_none_inv in E. exists p.
    split; [done|]. split; [done|]. by left.
Qed.

(** A block comment is replaced by nothing, not by a space: the texts on
    its two sides are joined. *)
Example comment_joins_tokens : clean (py "[1/* one */2]") = py "[12]".
Proof. vm_compute. reflexivity. Qed.

(** ** The limits of the interpreter, on samples *)

Section LimitSamples.
#[local] Existing Instance whole_floats.
#[local] Existing Instance default_limits.

(** A JSON text whose integer has 4301 digits: [json.loads] raises
    [ValueError], nothing is printed or written, and the status is 1. *)
Example long_integer_run :
  main [py "x.py"; py "big.jsonc"] (<[py "big.jsonc" := closed_long_integer]> ∅)
  = {| stdout := [];
       files := <[py "big.jsonc" := closed_long_integer]> ∅;
       ended := Uncaught "ValueError" |}
  ∧ exit_status
      (ended (main [py "x.py"; py "big.jsonc"]
                (<[py "big.jsonc" := closed_long_integer]> ∅))) = 1.
Proof. split; vm_compute; reflexivity. Qed.

(** With one digit less the integer is read, and the run ends normally. *)
Example integer_at_the_limit :
  ended (convert_jsonc_to_json (py "big.jsonc")
           (<[py "big.jsonc" := ord "[" :: replicate 4300 (ord "1")
                                  ++ [ord "]"]]> ∅))
  = Finished.
Proof. vm_compute. reflexivity. Qed.

(** A thousand arrays, one inside the other: [RecursionError], nothing
    printed or written. *)
Example deep_nesting_run :
  convert_jsonc_to_json (py "deep.jsonc")
    (<[py "deep.jsonc" := replicate 1000 (ord "[")
                            ++ replicate 1000 (ord "]")]> ∅)
  = {| stdout := [];
       files := <[py "deep.jsonc" := replicate 1000 (ord "[")
                                       ++ replicate 1000 (ord "]")]> ∅;
       ended := Uncaught "RecursionError" |}.
Proof. vm_compute. reflexivity. Qed.

End LimitSamples.
